(** * The table component: view-state engine, host shim and status classifier

    A shallow embedding of [CustomTable.tsx] (the React component with its
    filter / paging derivation and local view state), of the [TableGrid]
    control class that drives it (sort cycling, navigation, refresh, outputs)
    and of [statusUtils.ts] (status icon lookup).

    Conventions of the embedding:
    - a JavaScript string is a [string]; the case mapping and the white-space
      class are the ones of JavaScript restricted to the ASCII range (code
      units above 127 are left alone by [toLowerCase] and are never white
      space);
    - JavaScript numbers that hold page numbers, counts and pixel widths are
      integers of [Z];
    - a [Map] and the record store handed over by the host are finite maps
      ([gmap]); [undefined] and [null] results are [None]; record ids are
      the host's ids, never names of members of [Object.prototype];
    - the status table of [statusUtils.ts] is a table of object literals read
      with arbitrary cell text as key: it is an ordered list of own
      properties together with the members every object inherits;
    - the host data set is an interface ([DataSetApi]); it is one mutable
      object shared by [init], [updateView] and the callbacks, and its calls
      return normally;
    - React runs an effect after the render whose props changed its
      dependency, and applies the state setters called by one handler or one
      effect together, in one further render; a component wrapped in
      [React.memo] is not rendered again for props that are the same, one
      by one, as those of its previous render;
    - an object literal inherits the accessor [__proto__]: an assignment to
      that key creates no property of the object. *)

From Stdlib Require Import ZArith Bool Ascii String Lia.
From stdpp Require Import base option list gmap strings fin_maps.

Local Open Scope Z_scope.

(** ** JavaScript string primitives used by the component *)

Module JsString.

(** [String.prototype.toLowerCase] on one code unit. *)
Definition toLowerChar (c : ascii) : ascii :=
  let n := nat_of_ascii c in
  if (Nat.leb 65 n && Nat.leb n 90)%bool then ascii_of_nat (n + 32) else c.

Fixpoint toLowerCase (s : string) : string :=
  match s with
  | EmptyString => EmptyString
  | String c s' => String (toLowerChar c) (toLowerCase s')
  end.

(** White space as stripped by [String.prototype.trim]: TAB, LF, VT, FF, CR
    and SPACE. *)
Definition isWhiteSpace (c : ascii) : bool :=
  let n := nat_of_ascii c in
  (Nat.leb 9 n && Nat.leb n 13) || Nat.eqb n 32.

Fixpoint trimStart (s : string) : string :=
  match s with
  | EmptyString => EmptyString
  | String c s' => if isWhiteSpace c then trimStart s' else s
  end.

(** [trimEnd s] strips the trailing white space of [s]: a character is
    kept when it is not white space or when something is kept after it. *)
Fixpoint trimEnd (s : string) : string :=
  match s with
  | EmptyString => EmptyString
  | String c s' =>
      match trimEnd s' with
      | EmptyString => if isWhiteSpace c then EmptyString else String c EmptyString
      | t => String c t
      end
  end.

Definition trim (s : string) : string := trimEnd (trimStart s).

(** [s.startsWith(p)] *)
Fixpoint startsWith (s p : string) {struct p} : bool :=
  match p with
  | EmptyString => true
  | String a p' =>
      match s with
      | EmptyString => false
      | String b s' => Ascii.eqb a b && startsWith s' p'
      end
  end.

(** [s.includes(p)]: [p] occurs at some index of [s]. *)
Fixpoint includes (s p : string) : bool :=
  startsWith s p ||
  match s with
  | EmptyString => false
  | String _ s' => includes s' p
  end.

Fixpoint dropChars (n : nat) (s : string) : string :=
  match n with
  | O => s
  | S n' => match s with EmptyString => EmptyString | String _ s' => dropChars n' s' end
  end.

(** [s.endsWith(p)]: the last [p.length] code units of [s] are [p]. *)
Definition endsWith (s p : string) : bool :=
  let len := String.length s in
  let searchLength := String.length p in
  if Nat.leb searchLength len
  then String.eqb (dropChars (len - searchLength) s) p
  else false.

(** Truthiness of a string: only the empty string is falsy. *)
Definition truthy (s : string) : bool :=
  match s with EmptyString => false | _ => true end.

(** Declarative counterparts, used to state what the primitives decide. *)
Definition IsPrefix (p s : string) : Prop := exists t, s = p +:+ t.
Definition IsSuffix (p s : string) : Prop := exists t, s = t +:+ p.
Definition IsSubstring (p s : string) : Prop := exists a b, s = a +:+ p +:+ b.

(** No leading and no trailing white space. *)
Definition headIsSpace (s : string) : bool :=
  match s with EmptyString => false | String c _ => isWhiteSpace c end.

Fixpoint lastIsSpace (s : string) : bool :=
  match s with
  | EmptyString => false
  | String c EmptyString => isWhiteSpace c
  | String _ s' => lastIsSpace s'
  end.

Definition Trimmed (s : string) : Prop :=
  headIsSpace s = false /\ lastIsSpace s = false.

(** Only white space. *)
Fixpoint allWhiteSpace (s : string) : bool :=
  match s with
  | EmptyString => true
  | String c s' => isWhiteSpace c && allWhiteSpace s'
  end.

End JsString.

Import JsString.

(** ** [statusUtils.ts]: status icon lookup *)

Module StatusUtils.

(** [interface StatusStyle] *)
Record StatusStyle := mkStatusStyle { icon : string }.

(** A [StatusCategory] object literal: its own properties, in the order they
    are written (the order of [Object.keys]). *)
Definition StatusCategory : Type := list (string * StatusStyle).

(** What a property read [category[key]] can evaluate to. The category
    objects are plain object literals, so a key that is not an own property
    is looked up on [Object.prototype]. *)
Inductive PropertyValue :=
| OwnStyle (style : StatusStyle)
| Inherited (member : string).

(** The property names every plain object inherits from [Object.prototype];
    each of them reads as a function (or, for [__proto__], as the prototype
    object): a truthy value. *)
Definition objectPrototypeKeys : list string :=
  [ "constructor"; "hasOwnProperty"; "isPrototypeOf"; "propertyIsEnumerable";
    "toLocaleString"; "toString"; "valueOf"; "__proto__";
    "__defineGetter__"; "__defineSetter__"; "__lookupGetter__"; "__lookupSetter__" ].

Fixpoint ownProperty (category : StatusCategory) (key : string) : option StatusStyle :=
  match category with
  | [] => None
  | (k, style) :: rest => if String.eqb k key then Some style else ownProperty rest key
  end.

(** [category[key]]; [None] is [undefined]. *)
Definition getProperty (category : StatusCategory) (key : string) : option PropertyValue :=
  match ownProperty category key with
  | Some style => Some (OwnStyle style)
  | None =>
      if existsb (String.eqb key) objectPrototypeKeys
      then Some (Inherited key)
      else None
  end.

Definition STATUS_DEFINITIONS : list (string * StatusCategory) :=
  [ ("generalStatus",
      [ ("Active", mkStatusStyle "✓"); ("Inactive", mkStatusStyle "○");
        ("Enabled", mkStatusStyle "✓"); ("Disabled", mkStatusStyle "✗");
        ("Online", mkStatusStyle "●"); ("Offline", mkStatusStyle "○") ]);
    ("operationStatus",
      [ ("Success", mkStatusStyle "✓"); ("Failed", mkStatusStyle "✗");
        ("Error", mkStatusStyle "⚠"); ("Warning", mkStatusStyle "⚠");
        ("Info", mkStatusStyle "ℹ") ]);
    ("progressStatus",
      [ ("Not Started", mkStatusStyle "○"); ("In Progress", mkStatusStyle "⟳");
        ("Pending", mkStatusStyle "⏸"); ("Completed", mkStatusStyle "✓");
        ("On Hold", mkStatusStyle "⏸"); ("Cancelled", mkStatusStyle "✗");
        ("Paused", mkStatusStyle "⏸") ]);
    ("approvalStatus",
      [ ("Approved", mkStatusStyle "✓"); ("Rejected", mkStatusStyle "✗");
        ("Under Review", mkStatusStyle "👁"); ("Draft", mkStatusStyle "📝");
        ("Submitted", mkStatusStyle "📤"); ("Pending Approval", mkStatusStyle "⏳") ]);
    ("priorityStatus",
      [ ("Critical", mkStatusStyle "🔴"); ("High", mkStatusStyle "⬆");
        ("Medium", mkStatusStyle "➡"); ("Low", mkStatusStyle "⬇");
        ("Urgent", mkStatusStyle "⚡") ]);
    ("paymentStatus",
      [ ("Paid", mkStatusStyle "✓"); ("Unpaid", mkStatusStyle "✗");
        ("Pending", mkStatusStyle "⏳"); ("Overdue", mkStatusStyle "⚠");
        ("Refunded", mkStatusStyle "↩"); ("Partial", mkStatusStyle "◐") ]);
    ("orderStatus",
      [ ("New", mkStatusStyle "🆕"); ("Processing", mkStatusStyle "⚙");
        ("Shipped", mkStatusStyle "📦"); ("Delivered", mkStatusStyle "✓");
        ("Returned", mkStatusStyle "↩"); ("Cancelled", mkStatusStyle "✗") ]);
    ("membershipStatus",
      [ ("Trial", mkStatusStyle "🔓"); ("Active", mkStatusStyle "✓");
        ("Expired", mkStatusStyle "✗"); ("Suspended", mkStatusStyle "⏸");
        ("Cancelled", mkStatusStyle "○") ]) ].

(** [Object.keys(category).find(key => key.toLowerCase() === normalizedValue.toLowerCase())] *)
Definition findKeyIgnoringCase (category : StatusCategory) (normalizedValue : string)
    : option string :=
  List.find (fun key => String.eqb (toLowerCase key) (toLowerCase normalizedValue))
            (map fst category).

(** The loop of [getStatusStyle] over [Object.values(STATUS_DEFINITIONS)]. *)
Fixpoint searchCategories (categories : list StatusCategory) (normalizedValue : string)
    : option PropertyValue :=
  match categories with
  | [] => None
  | category :: rest =>
      match getProperty category normalizedValue with
      | Some found => Some found
      | None =>
          match findKeyIgnoringCase category normalizedValue with
          | Some statusKey =>
              if truthy statusKey
              then getProperty category statusKey
              else searchCategories rest normalizedValue
          | None => searchCategories rest normalizedValue
          end
      end
  end.

Definition getStatusStyle (statusValue : string) : option PropertyValue :=
  if negb (truthy statusValue) then None
  else
    let normalizedValue := trim statusValue in
    searchCategories (map snd STATUS_DEFINITIONS) normalizedValue.

Definition statusKeywords : list string :=
  [ "status"; "state"; "stage"; "priority"; "approval"; "progress"; "condition" ].

Definition isStatusColumn (columnName : string) : bool :=
  if negb (truthy columnName) then false
  else
    let normalizedName := toLowerCase columnName in
    existsb (fun keyword => includes normalizedName keyword) statusKeywords.

(** Some key of the category equals [n] up to case. *)
Definition keysMatch (category : StatusCategory) (n : string) : bool :=
  existsb (fun key => String.eqb (toLowerCase key) (toLowerCase n)) (map fst category).

(** Some entry of the table, in some category, has a key equal to the
    trimmed value up to case. *)
Definition entryMatches (statusValue : string) : bool :=
  existsb (fun category => keysMatch category (trim statusValue))
          (map snd STATUS_DEFINITIONS).

(** The name of a member every object inherits. *)
Definition inheritedName (key : string) : bool :=
  existsb (String.eqb key) objectPrototypeKeys.

End StatusUtils.

(** ** Data model of [CustomTable.tsx] *)

(** [interface ColumnFilter] *)
Record ColumnFilter := mkColumnFilter {
  columnName : string;
  operator : string;
  value : string;
}.

(** The part of the host's [EntityRecord] the component reads:
    [getFormattedValue(columnName)]; [None] is an [undefined] / [null] cell. *)
Record EntityRecord := mkEntityRecord {
  getFormattedValue : string -> option string;
}.

(** [Array.prototype.slice(start, end)] with its treatment of negative and
    out-of-range indices. *)
Definition slice {A : Type} (l : list A) (start end_ : Z) : list A :=
  let len := Z.of_nat (length l) in
  let k := if start <? 0 then Z.max (len + start) 0 else Z.min start len in
  let final := if end_ <? 0 then Z.max (len + end_) 0 else Z.min end_ len in
  take (Z.to_nat (final - k)) (drop (Z.to_nat k) l).

(** A column of the data set: [name] is its key. *)
Record Column := mkColumn {
  name : string;
  displayName : string;
}.

(** [0 | 1 | -1]: 0 = None, 1 = Ascending, -1 = Descending. *)
Inductive SortDirection := DirNone | Ascending | Descending.

Definition sortDirectionCode (d : SortDirection) : Z :=
  match d with DirNone => 0 | Ascending => 1 | Descending => -1 end.

Inductive SelectionMode := single | multiselect.

(** ["next" | "previous" | "first" | "last"] *)
Inductive NavDirection := Next | Previous | First | Last.

Global Instance SortDirection_eq_dec : EqDecision SortDirection.
Proof. solve_decision. Defined.

Global Instance ColumnFilter_eq_dec : EqDecision ColumnFilter.
Proof. solve_decision. Defined.

Global Instance SelectionMode_eq_dec : EqDecision SelectionMode.
Proof. solve_decision. Defined.

Module CustomTable.

(** [interface GridProps], without the callbacks (they are the methods of the
    control, see [TableGrid]) and the unused [resources]. *)
Record GridProps := mkGridProps {
  width : Z;
  height : Z;
  columns : list Column;
  records : gmap string EntityRecord;
  sortedRecordIds : list string;
  itemsLoading : bool;
  selectionMode : option SelectionMode;
  hasNextPage : bool;
  hasPreviousPage : bool;
  currentPage : Z;
  totalResultCount : Z;
  recordsPerPage : Z;
  sortColumn : option string;
  sortDirection : SortDirection;
  isTableRefresh : option bool;
  isLink : option bool;
}.

(** The [useState] cells of the component. *)
Record LocalState := mkLocalState {
  columnFilters : gmap string ColumnFilter;
  openFilterColumn : option string;
  tempFilterOperator : string;
  tempFilterValue : string;
  columnWidths : gmap string Z;
  resizingColumn : option string;
  resizeStartX : Z;
  resizeStartWidth : Z;
}.

(** The initial values given to [useState]. *)
Definition initialLocalState : LocalState :=
  {| columnFilters := ∅;
     openFilterColumn := None;
     tempFilterOperator := "Contains";
     tempFilterValue := "";
     columnWidths := ∅;
     resizingColumn := None;
     resizeStartX := 0;
     resizeStartWidth := 0 |}.

(** Truthiness of a [string | null]. *)
Definition truthyOpt (o : option string) : bool :=
  match o with Some s => truthy s | None => false end.

(** [s || fallback] for a string that may be missing. *)
Definition orElse (o : option string) (fallback : string) : string :=
  match o with
  | Some s => if truthy s then s else fallback
  | None => fallback
  end.


(** [String(value || '')] *)
Definition stringOrEmpty (v : option string) : string :=
  match v with
  | Some s => if truthy s then s else ""
  | None => ""
  end.

(** The body of the loop over [columnFilters.entries()]: the [switch] on
    [filter.operator]. *)
Definition filterMatches (record : EntityRecord) (columnName : string)
    (filter : ColumnFilter) : bool :=
  let cellValue := getFormattedValue record columnName in
  let filterValue := toLowerCase (filter.(value)) in
  let recordValue := toLowerCase (stringOrEmpty cellValue) in
  if String.eqb filter.(operator) "Contains" then includes recordValue filterValue
  else if String.eqb filter.(operator) "Equals" then String.eqb recordValue filterValue
  else if String.eqb filter.(operator) "Starts with" then startsWith recordValue filterValue
  else if String.eqb filter.(operator) "Ends with" then endsWith recordValue filterValue
  else if String.eqb filter.(operator) "Does not contain"
       then negb (includes recordValue filterValue)
  else includes recordValue filterValue.

(** The loop returns [false] at the first entry that does not match and
    [true] after the last one. *)
Definition passesAllFilters (columnFilters : gmap string ColumnFilter)
    (record : EntityRecord) : bool :=
  forallb (fun e => filterMatches record e.1 e.2) (map_to_list columnFilters).

(** The callback given to [sortedRecordIds.filter]. *)
Definition keepRecordId (records : gmap string EntityRecord)
    (columnFilters : gmap string ColumnFilter) (id : string) : bool :=
  match records !! id with
  | None => false
  | Some record => passesAllFilters columnFilters record
  end.

Definition filteredIds (sortedRecordIds : list string)
    (records : gmap string EntityRecord)
    (columnFilters : gmap string ColumnFilter) : list string :=
  if bool_decide (0 < size columnFilters)%nat
  then List.filter (keepRecordId records columnFilters) sortedRecordIds
  else sortedRecordIds.

(** The [displayRecordIds] memo. *)
Definition displayRecordIds (sortedRecordIds : list string)
    (records : gmap string EntityRecord)
    (columnFilters : gmap string ColumnFilter)
    (currentPage recordsPerPage : Z) : list string :=
  let filtered := filteredIds sortedRecordIds records columnFilters in
  let startIndex := (currentPage - 1) * recordsPerPage in
  let endIndex := startIndex + recordsPerPage in
  slice filtered startIndex endIndex.



(** *** Filter popup handlers *)

Definition handleOpenFilter (columnName : string) (st : LocalState) : LocalState :=
  let existingFilter := st.(columnFilters) !! columnName in
  {| columnFilters := st.(columnFilters);
     openFilterColumn := Some columnName;
     tempFilterOperator := orElse (operator <$> existingFilter) "Contains";
     tempFilterValue := orElse (value <$> existingFilter) "";
     columnWidths := st.(columnWidths);
     resizingColumn := st.(resizingColumn);
     resizeStartX := st.(resizeStartX);
     resizeStartWidth := st.(resizeStartWidth) |}.

Definition setOpenFilterColumn (o : option string) (st : LocalState) : LocalState :=
  {| columnFilters := st.(columnFilters);
     openFilterColumn := o;
     tempFilterOperator := st.(tempFilterOperator);
     tempFilterValue := st.(tempFilterValue);
     columnWidths := st.(columnWidths);
     resizingColumn := st.(resizingColumn);
     resizeStartX := st.(resizeStartX);
     resizeStartWidth := st.(resizeStartWidth) |}.

Definition setColumnFilters (m : gmap string ColumnFilter) (st : LocalState) : LocalState :=
  {| columnFilters := m;
     openFilterColumn := st.(openFilterColumn);
     tempFilterOperator := st.(tempFilterOperator);
     tempFilterValue := st.(tempFilterValue);
     columnWidths := st.(columnWidths);
     resizingColumn := st.(resizingColumn);
     resizeStartX := st.(resizeStartX);
     resizeStartWidth := st.(resizeStartWidth) |}.

Definition setTempFilterOperator (op : string) (st : LocalState) : LocalState :=
  {| columnFilters := st.(columnFilters);
     openFilterColumn := st.(openFilterColumn);
     tempFilterOperator := op;
     tempFilterValue := st.(tempFilterValue);
     columnWidths := st.(columnWidths);
     resizingColumn := st.(resizingColumn);
     resizeStartX := st.(resizeStartX);
     resizeStartWidth := st.(resizeStartWidth) |}.

Definition setTempFilterValue (v : string) (st : LocalState) : LocalState :=
  {| columnFilters := st.(columnFilters);
     openFilterColumn := st.(openFilterColumn);
     tempFilterOperator := st.(tempFilterOperator);
     tempFilterValue := v;
     columnWidths := st.(columnWidths);
     resizingColumn := st.(resizingColumn);
     resizeStartX := st.(resizeStartX);
     resizeStartWidth := st.(resizeStartWidth) |}.

Definition handleApplyFilter (st : LocalState) : LocalState :=
  let st1 :=
    match st.(openFilterColumn) with
    | Some column =>
        if truthy column && truthy (trim st.(tempFilterValue))
        then
          let newFilters :=
            <[ column := {| columnName := column;
                            operator := st.(tempFilterOperator);
                            value := trim st.(tempFilterValue) |} ]> st.(columnFilters) in
          setColumnFilters newFilters st
        else st
    | None => st
    end in
  setOpenFilterColumn None st1.

Definition handleClearFilter (st : LocalState) : LocalState :=
  let st1 :=
    match st.(openFilterColumn) with
    | Some column =>
        if truthy column
        then setColumnFilters (delete column st.(columnFilters)) st
        else st
    | None => st
    end in
  setOpenFilterColumn None (setTempFilterValue "" st1).

(** *** Column resize handlers *)

(** [columnWidths.get(columnName) || 150] *)
Definition widthOrDefault (widths : gmap string Z) (columnName : string) : Z :=
  match widths !! columnName with
  | Some w => if w =? 0 then 150 else w
  | None => 150
  end.

Definition handleResizeStart (columnName : string) (startX : Z) (st : LocalState)
    : LocalState :=
  let currentWidth := widthOrDefault st.(columnWidths) columnName in
  {| columnFilters := st.(columnFilters);
     openFilterColumn := st.(openFilterColumn);
     tempFilterOperator := st.(tempFilterOperator);
     tempFilterValue := st.(tempFilterValue);
     columnWidths := st.(columnWidths);
     resizingColumn := Some columnName;
     resizeStartX := startX;
     resizeStartWidth := currentWidth |}.

Definition handleResizeMove (clientX : Z) (st : LocalState) : LocalState :=
  match st.(resizingColumn) with
  | Some column =>
      if truthy column
      then
        let deltaX := clientX - st.(resizeStartX) in
        let newWidth := Z.max 80 (st.(resizeStartWidth) + deltaX) in
        {| columnFilters := st.(columnFilters);
           openFilterColumn := st.(openFilterColumn);
           tempFilterOperator := st.(tempFilterOperator);
           tempFilterValue := st.(tempFilterValue);
           columnWidths := <[ column := newWidth ]> st.(columnWidths);
           resizingColumn := st.(resizingColumn);
           resizeStartX := st.(resizeStartX);
           resizeStartWidth := st.(resizeStartWidth) |}
      else st
  | None => st
  end.

Definition handleResizeEnd (st : LocalState) : LocalState :=
  if truthyOpt st.(resizingColumn)
  then
    {| columnFilters := st.(columnFilters);
       openFilterColumn := st.(openFilterColumn);
       tempFilterOperator := st.(tempFilterOperator);
       tempFilterValue := st.(tempFilterValue);
       columnWidths := st.(columnWidths);
       resizingColumn := None;
       resizeStartX := st.(resizeStartX);
       resizeStartWidth := st.(resizeStartWidth) |}
  else st.

(** *** The refresh effect *)

(** The body of the effect when [isTableRefresh] is truthy: eight state
    setters, applied as one batched update. *)
Definition resetLocalState (st : LocalState) : LocalState :=
  {| columnFilters := ∅;
     openFilterColumn := None;
     tempFilterOperator := "Contains";
     tempFilterValue := "";
     columnWidths := ∅;
     resizingColumn := None;
     resizeStartX := 0;
     resizeStartWidth := 0 |}.

Definition refreshEffectBody (isTableRefresh : option bool) (st : LocalState)
    : LocalState :=
  match isTableRefresh with
  | Some true => resetLocalState st
  | _ => st
  end.

(** [React.useEffect(body, [isTableRefresh])]: the body runs after the first
    render and after every render in which the dependency differs from its
    value at the previous render. [prevDeps] is [None] before the first
    render. *)
Definition effectRuns (prevDeps : option (option bool)) (isTableRefresh : option bool)
    : bool :=
  match prevDeps with
  | None => true
  | Some prev => negb (bool_decide (prev = isTableRefresh))
  end.

(** The user's interactions with the component and the document-level mouse
    events it listens to while a resize is active. *)
Inductive UiEvent :=
| PopoverOpenChange (column : string) (open : bool)
| PopupCloseClick
| OperatorSelect (optionValue : option string)
| ValueInput (v : string)
| ApplyClick
| ClearClick
| ResizeHandleMouseDown (column : string) (clientX : Z)
| DocumentMouseMove (clientX : Z)
| DocumentMouseUp.

Definition handleUiEvent (e : UiEvent) (st : LocalState) : LocalState :=
  match e with
  | PopoverOpenChange column true => handleOpenFilter column st
  | PopoverOpenChange _ false => setOpenFilterColumn None st
  | PopupCloseClick => setOpenFilterColumn None st
  | OperatorSelect optionValue => setTempFilterOperator (orElse optionValue "Contains") st
  | ValueInput v => setTempFilterValue v st
  | ApplyClick => handleApplyFilter st
  | ClearClick => handleClearFilter st
  | ResizeHandleMouseDown column clientX => handleResizeStart column clientX st
  | DocumentMouseMove clientX =>
      (* the listener is installed only while a resize is active *)
      handleResizeMove clientX st
  | DocumentMouseUp => handleResizeEnd st
  end.

(** *** What a render pass computes *)

Record HeaderCell := mkHeaderCell {
  headerColumn : string;
  isSorted : bool;
  sortArrow : SortDirection;
  hasFilter : bool;
  columnWidth : Z;
  popupOpen : bool;
}.

Inductive CellView :=
| StatusBadge (style : StatusUtils.PropertyValue) (text : string)
| LinkCell (text : option string)
| TextCell (text : option string).

Record View := mkView {
  header : list HeaderCell;
  rows : list (string * list CellView);
  pageShown : Z;
}.

Definition renderHeaderCell (props : GridProps) (st : LocalState) (column : Column)
    : HeaderCell :=
  let sorted := bool_decide (props.(sortColumn) = Some column.(name)) in
  {| headerColumn := column.(name);
     isSorted := sorted;
     sortArrow := if sorted then props.(sortDirection) else DirNone;
     hasFilter := bool_decide (is_Some (st.(columnFilters) !! column.(name)));
     columnWidth := widthOrDefault st.(columnWidths) column.(name);
     popupOpen := bool_decide (st.(openFilterColumn) = Some column.(name)) |}.

(** [isStatus ? getStatusStyle(cellValue) : null] (a missing cell value is
    falsy, so [getStatusStyle] answers [null] for it). *)
Definition classify (columnName : string) (cellValue : option string)
    : option StatusUtils.PropertyValue :=
  if StatusUtils.isStatusColumn columnName
  then match cellValue with
       | Some v => StatusUtils.getStatusStyle v
       | None => None
       end
  else None.

Definition renderCell (props : GridProps) (recordId : string) (columnIndex : nat)
    (column : Column) : CellView :=
  let record := props.(records) !! recordId in
  let cellValue :=
    if String.eqb column.(name) "HighlightIndicator" then Some ""
    else match record with
         | Some r => getFormattedValue r column.(name)
         | None => Some ""
         end in
  match classify column.(name) cellValue with
  | Some style => StatusBadge style (default "" cellValue)
  | None =>
      if bool_decide (columnIndex = 0%nat) && bool_decide (props.(isLink) = Some true)
      then LinkCell cellValue
      else TextCell cellValue
  end.

(** The [recordsJson] memo reads [record.getFormattedValue] for every id and
    every column without a guard: it throws when an id has no record and
    there is at least one column. *)
Definition recordsJsonThrows (props : GridProps) : bool :=
  existsb (fun id => negb (bool_decide (is_Some (props.(records) !! id))))
          props.(sortedRecordIds)
  && negb (bool_decide (props.(columns) = [])).

(** One evaluation of the component function; [None] when it throws. *)
Definition renderView (props : GridProps) (st : LocalState) : option View :=
  if recordsJsonThrows props then None
  else
    let ids := displayRecordIds props.(sortedRecordIds) props.(records)
                 st.(columnFilters) props.(currentPage) props.(recordsPerPage) in
    Some {| header := map (renderHeaderCell props st) props.(columns);
            rows := map (fun id => (id, imap (renderCell props id) props.(columns))) ids;
            pageShown := props.(currentPage) |}.

(** The mounted component: its state cells and the dependency of the refresh
    effect recorded at the last committed render. *)
Record Mounted := mkMounted {
  localState : LocalState;
  refreshDeps : option (option bool);
}.

Definition unmounted : Mounted :=
  {| localState := initialLocalState; refreshDeps := None |}.

(** A render of the component with [props], as React carries it out when
    [React.memo] does not skip it (see [memoSkipsRender]): the component
    function runs with the current state cells; after that render is
    committed the refresh effect runs if its dependency changed; when the
    effect calls the state setters the component function runs once more
    with the new state. The result lists the views in the order they are
    produced. *)
Definition renderPass (props : GridProps) (m : Mounted) : list (option View) * Mounted :=
  let view1 := renderView props m.(localState) in
  match view1 with
  | None => ([None], m)
  | Some _ =>
      if effectRuns m.(refreshDeps) props.(isTableRefresh)
      then
        match props.(isTableRefresh) with
        | Some true =>
            let st' := resetLocalState m.(localState) in
            ([view1; renderView props st'],
             {| localState := st'; refreshDeps := Some props.(isTableRefresh) |})
        | _ =>
            ([view1],
             {| localState := m.(localState);
                refreshDeps := Some props.(isTableRefresh) |})
        end
      else ([view1], {| localState := m.(localState); refreshDeps := m.(refreshDeps) |})
  end.

(** The props that [React.memo] compares by value: numbers, booleans and
    strings. *)
Definition samePrimitiveProps (previous props : GridProps) : bool :=
  bool_decide (previous.(width) = props.(width))
  && bool_decide (previous.(height) = props.(height))
  && bool_decide (previous.(itemsLoading) = props.(itemsLoading))
  && bool_decide (previous.(selectionMode) = props.(selectionMode))
  && bool_decide (previous.(hasNextPage) = props.(hasNextPage))
  && bool_decide (previous.(hasPreviousPage) = props.(hasPreviousPage))
  && bool_decide (previous.(currentPage) = props.(currentPage))
  && bool_decide (previous.(totalResultCount) = props.(totalResultCount))
  && bool_decide (previous.(recordsPerPage) = props.(recordsPerPage))
  && bool_decide (previous.(sortColumn) = props.(sortColumn))
  && bool_decide (previous.(sortDirection) = props.(sortDirection))
  && bool_decide (previous.(isTableRefresh) = props.(isTableRefresh))
  && bool_decide (previous.(isLink) = props.(isLink)).

(** [React.memo((props) => ...)]: a mounted component is not rendered
    again when every prop is the same as at its previous render, compared
    with [Object.is]. The callbacks and [resources] are fields of the
    control that are assigned once. [columns], [records] and
    [sortedRecordIds] are objects handed over by the host and are compared
    by identity, whatever they hold: [sameObjects] says whether the host
    handed over the objects of the previous render. *)
Definition memoSkipsRender (sameObjects : bool) (previous : option GridProps)
    (props : GridProps) : bool :=
  match previous with
  | None => false
  | Some shown => sameObjects && samePrimitiveProps shown props
  end.

(** A user event between two render passes changes the state cells and makes
    the component function run again with the same props. *)
Definition dispatch (props : GridProps) (e : UiEvent) (m : Mounted)
    : option View * Mounted :=
  let st' := handleUiEvent e m.(localState) in
  (renderView props st', {| localState := st'; refreshDeps := m.(refreshDeps) |}).

(** What one reads off a view: the ids of the rows shown, the columns
    marked as sorted and the columns marked as filtered. *)
Definition summary (v : View) : list string * list string * list string :=
  (map fst v.(rows),
   map headerColumn (List.filter isSorted v.(header)),
   map headerColumn (List.filter hasFilter v.(header))).

(** The states the state cells can be in: the initial values, then user
    events and runs of the refresh effect. *)
Inductive reachableLocal : LocalState -> Prop :=
| reachable_initial : reachableLocal initialLocalState
| reachable_event (e : UiEvent) (st : LocalState) :
    reachableLocal st -> reachableLocal (handleUiEvent e st)
| reachable_refresh (st : LocalState) :
    reachableLocal st -> reachableLocal (resetLocalState st).

End CustomTable.

(** ** Record objects and [JSON.stringify] *)

Module Json.

(** An object [{ recordId: string; [key: string]: unknown }] whose values
    come from [getFormattedValue]: its own properties in enumeration order;
    a [None] value is [undefined]. *)
Definition RecordObject : Type := list (string * option string).

Definition isDigit (c : ascii) : bool :=
  let n := nat_of_ascii c in Nat.leb 48 n && Nat.leb n 57.

Fixpoint digitsValue (s : string) (acc : N) : option N :=
  match s with
  | EmptyString => Some acc
  | String c s' =>
      if isDigit c
      then digitsValue s' (10 * acc + N.of_nat (nat_of_ascii c - 48))%N
      else None
  end.

(** A property key is an array index when it is the canonical decimal form
    of an integer below [2^32 - 1]; such keys are enumerated first, in
    ascending order. *)
Definition arrayIndex (key : string) : option N :=
  match key with
  | EmptyString => None
  | String c rest =>
      if Ascii.eqb c "0" && negb (String.eqb rest "") then None
      else if Nat.ltb 10 (String.length key) then None
      else match digitsValue key 0 with
           | Some n => if (n <? 4294967295)%N then Some n else None
           | None => None
           end
  end.

Fixpoint hasKey (key : string) (o : RecordObject) : bool :=
  match o with
  | [] => false
  | (k, _) :: rest => String.eqb k key || hasKey key rest
  end.

Fixpoint replaceValue (key : string) (v : option string) (o : RecordObject)
    : RecordObject :=
  match o with
  | [] => []
  | (k, w) :: rest =>
      if String.eqb k key then (k, v) :: rest else (k, w) :: replaceValue key v rest
  end.

Fixpoint insertIndexKey (n : N) (key : string) (v : option string) (o : RecordObject)
    : RecordObject :=
  match o with
  | [] => [(key, v)]
  | (k, w) :: rest =>
      match arrayIndex k with
      | Some m => if (n <? m)%N then (key, v) :: o else (k, w) :: insertIndexKey n key v rest
      | None => (key, v) :: o
      end
  end.

(** The key of the accessor that [Object.prototype] defines. *)
Definition protoKey : string := "__proto__".

(** [o[key] = v] on an object literal.  An assignment to [__proto__]
    reaches the setter inherited from [Object.prototype]: given a string or
    [undefined] it does nothing, given [null] it changes the prototype; in
    no case does the object get an own property.  Every other key names a
    writable data property, own or inherited, and the assignment replaces
    or creates the own property. *)
Definition setProperty (key : string) (v : option string) (o : RecordObject)
    : RecordObject :=
  if String.eqb key protoKey then o
  else if hasKey key o then replaceValue key v o
  else match arrayIndex key with
       | Some n => insertIndexKey n key v o
       | None => o ++ [(key, v)]
       end.

(** The value of the own property [key] of [o]; [None] when [o] has no
    such property or its value is [undefined]. *)
Fixpoint getProperty (key : string) (o : RecordObject) : option string :=
  match o with
  | [] => None
  | (k, v) :: rest => if String.eqb k key then v else getProperty key rest
  end.

Definition quoteMark : string := String (ascii_of_nat 34) EmptyString.
Definition backslash : string := String (ascii_of_nat 92) EmptyString.

Definition hexDigit (n : nat) : ascii :=
  if Nat.ltb n 10 then ascii_of_nat (48 + n) else ascii_of_nat (87 + n).

(** The escape of one code unit in [QuoteJSONString]. *)
Definition quoteChar (c : ascii) : string :=
  let n := nat_of_ascii c in
  if Nat.eqb n 8 then backslash +:+ "b"
  else if Nat.eqb n 9 then backslash +:+ "t"
  else if Nat.eqb n 10 then backslash +:+ "n"
  else if Nat.eqb n 12 then backslash +:+ "f"
  else if Nat.eqb n 13 then backslash +:+ "r"
  else if Nat.eqb n 34 then backslash +:+ quoteMark
  else if Nat.eqb n 92 then backslash +:+ backslash
  else if Nat.ltb n 32
       then backslash +:+ "u00" +:+
            String (hexDigit (n / 16)) (String (hexDigit (n mod 16)) EmptyString)
  else String c EmptyString.

Fixpoint quoteBody (s : string) : string :=
  match s with
  | EmptyString => EmptyString
  | String c s' => quoteChar c +:+ quoteBody s'
  end.

Definition quoteJSONString (s : string) : string :=
  quoteMark +:+ quoteBody s +:+ quoteMark.

Fixpoint joinComma (parts : list string) : string :=
  match parts with
  | [] => ""
  | [p] => p
  | p :: rest => p +:+ "," +:+ joinComma rest
  end.

(** The members of an object: properties whose value is [undefined] are
    left out. *)
Fixpoint members (o : RecordObject) : list string :=
  match o with
  | [] => []
  | (k, Some v) :: rest => (quoteJSONString k +:+ ":" +:+ quoteJSONString v) :: members rest
  | (_, None) :: rest => members rest
  end.

Definition stringifyObject (o : RecordObject) : string :=
  "{" +:+ joinComma (members o) +:+ "}".

(** [JSON.stringify] of an array of record objects. *)
Definition stringify (l : list RecordObject) : string :=
  "[" +:+ joinComma (map stringifyObject l) +:+ "]".

End Json.

(** ** The host data set *)

(** An entry of [dataset.sorting]. *)
Record SortStatus := mkSortStatus {
  sortName : string;
  sortStatusDirection : SortDirection;
}.

(** The part of the framework's data-set object ([context.parameters.records]
    with its [paging]) the control uses. The object is mutable and owned by
    the host: a method call is a transition of its state [D]. *)
Class DataSetApi (D : Type) := {
  ds_columns : D -> list Column;
  ds_records : D -> gmap string EntityRecord;
  ds_sortedRecordIds : D -> list string;
  ds_loading : D -> bool;
  ds_setSorting : list SortStatus -> D -> D;
  ds_refresh : D -> D;
  paging_hasNextPage : D -> bool;
  paging_totalResultCount : D -> Z;
  paging_loadNextPage : D -> D;
  paging_loadPreviousPage : D -> D;
  paging_reset : D -> D;
  paging_setPageSize : Z -> D -> D;
}.

(** ** The [TableGrid] control *)

Module TableGrid.

Import Json.

(** [Math.ceil(a / b)] for a positive divisor. *)
Definition ceilDiv (a b : Z) : Z := - ((- a) / b).

(** The property bag read by [updateView], apart from the data set. *)
Record ViewInputs := mkViewInputs {
  isTableRefreshRaw : option bool;
  selectionModeRaw : option Z;
  isLinkRaw : option bool;
  allocatedWidth : Z;
  allocatedHeight : Z;
}.

Section Control.

Context {D : Type} `{DataSetApi D}.

(** The fields of the class that hold view state. [dataset] is the data-set
    object reached through [this.context]; [outputNotifications] counts the
    calls of [notifyOutputChanged]. The container, the React root and the
    resources are left out. *)
Record State := mkState {
  dataset : D;
  sortedRecordsIds : list string;
  records : gmap string EntityRecord;
  currentPage : Z;
  pageSize : Z;
  totalRecordCount : Z;
  currentSortColumn : option string;
  currentSortDirection : SortDirection;
  selectedRecordIds : list string;
  selectedRecordObjects : list RecordObject;
  recordsToJson : option (list RecordObject);
  previousRefreshValue : bool;
  selectedLinkRecords : list RecordObject;
  outputNotifications : nat;
}.

(** The field initialisers followed by [init], which sets the page size of
    the host's paging to 10. *)
Definition init (d : D) : State :=
  {| dataset := paging_setPageSize 10 d;
     sortedRecordsIds := [];
     records := ∅;
     currentPage := 1;
     pageSize := 10;
     totalRecordCount := 0;
     currentSortColumn := None;
     currentSortDirection := Ascending;
     selectedRecordIds := [];
     selectedRecordObjects := [];
     recordsToJson := None;
     previousRefreshValue := false;
     selectedLinkRecords := [];
     outputNotifications := 0 |}.

Definition setDataset (d : D) (g : State) : State :=
  mkState d g.(sortedRecordsIds) g.(records) g.(currentPage) g.(pageSize)
    g.(totalRecordCount) g.(currentSortColumn) g.(currentSortDirection)
    g.(selectedRecordIds) g.(selectedRecordObjects) g.(recordsToJson)
    g.(previousRefreshValue) g.(selectedLinkRecords) g.(outputNotifications).

Definition setCurrentPage (p : Z) (g : State) : State :=
  mkState g.(dataset) g.(sortedRecordsIds) g.(records) p g.(pageSize)
    g.(totalRecordCount) g.(currentSortColumn) g.(currentSortDirection)
    g.(selectedRecordIds) g.(selectedRecordObjects) g.(recordsToJson)
    g.(previousRefreshValue) g.(selectedLinkRecords) g.(outputNotifications).

Definition setSort (c : option string) (dir : SortDirection) (g : State) : State :=
  mkState g.(dataset) g.(sortedRecordsIds) g.(records) g.(currentPage) g.(pageSize)
    g.(totalRecordCount) c dir
    g.(selectedRecordIds) g.(selectedRecordObjects) g.(recordsToJson)
    g.(previousRefreshValue) g.(selectedLinkRecords) g.(outputNotifications).

Definition setSelection (ids : list string) (objs : list RecordObject) (g : State)
    : State :=
  mkState g.(dataset) g.(sortedRecordsIds) g.(records) g.(currentPage) g.(pageSize)
    g.(totalRecordCount) g.(currentSortColumn) g.(currentSortDirection)
    ids objs g.(recordsToJson)
    g.(previousRefreshValue) g.(selectedLinkRecords) g.(outputNotifications).

Definition setSelectedLinkRecords (l : list RecordObject) (g : State) : State :=
  mkState g.(dataset) g.(sortedRecordsIds) g.(records) g.(currentPage) g.(pageSize)
    g.(totalRecordCount) g.(currentSortColumn) g.(currentSortDirection)
    g.(selectedRecordIds) g.(selectedRecordObjects) g.(recordsToJson)
    g.(previousRefreshValue) l g.(outputNotifications).

Definition setPreviousRefreshValue (b : bool) (g : State) : State :=
  mkState g.(dataset) g.(sortedRecordsIds) g.(records) g.(currentPage) g.(pageSize)
    g.(totalRecordCount) g.(currentSortColumn) g.(currentSortDirection)
    g.(selectedRecordIds) g.(selectedRecordObjects) g.(recordsToJson)
    b g.(selectedLinkRecords) g.(outputNotifications).

Definition setLoaded (ids : list string) (recs : gmap string EntityRecord)
    (total : Z) (g : State) : State :=
  mkState g.(dataset) ids recs g.(currentPage) g.(pageSize)
    total g.(currentSortColumn) g.(currentSortDirection)
    g.(selectedRecordIds) g.(selectedRecordObjects) g.(recordsToJson)
    g.(previousRefreshValue) g.(selectedLinkRecords) g.(outputNotifications).

Definition setRecordsToJson (j : option (list RecordObject)) (g : State) : State :=
  mkState g.(dataset) g.(sortedRecordsIds) g.(records) g.(currentPage) g.(pageSize)
    g.(totalRecordCount) g.(currentSortColumn) g.(currentSortDirection)
    g.(selectedRecordIds) g.(selectedRecordObjects) j
    g.(previousRefreshValue) g.(selectedLinkRecords) g.(outputNotifications).

Definition notifyOutputChanged (g : State) : State :=
  mkState g.(dataset) g.(sortedRecordsIds) g.(records) g.(currentPage) g.(pageSize)
    g.(totalRecordCount) g.(currentSortColumn) g.(currentSortDirection)
    g.(selectedRecordIds) g.(selectedRecordObjects) g.(recordsToJson)
    g.(previousRefreshValue) g.(selectedLinkRecords) (S g.(outputNotifications)).

(** [totalRecordCount > 0 ? Math.ceil(totalRecordCount / pageSize) : 1] *)
Definition totalPages (g : State) : Z :=
  if 0 <? g.(totalRecordCount) then ceilDiv g.(totalRecordCount) g.(pageSize) else 1.

(** [while (paging.hasNextPage && pagesLoaded < 100) { paging.loadNextPage(); pagesLoaded++; }]
    with [budget] the number of iterations still allowed. *)
Fixpoint loadRemainingPages (budget : nat) (d : D) : D :=
  match budget with
  | O => d
  | S budget' =>
      if paging_hasNextPage d
      then loadRemainingPages budget' (paging_loadNextPage d)
      else d
  end.

Definition onNavigate (direction : NavDirection) (g : State) : State :=
  let paging := g.(dataset) in
  let lastPage := totalPages g in
  let hasNext := paging_hasNextPage paging in
  let hasPrevious := 1 <? g.(currentPage) in
  match direction with
  | Next =>
      if hasNext
      then setCurrentPage (g.(currentPage) + 1) (setDataset (paging_loadNextPage paging) g)
      else g
  | Previous =>
      if hasPrevious
      then setCurrentPage (g.(currentPage) - 1) (setDataset (paging_loadPreviousPage paging) g)
      else g
  | First =>
      if negb (g.(currentPage) =? 1)
      then setCurrentPage 1 (setDataset (paging_reset paging) g)
      else g
  | Last =>
      setCurrentPage lastPage (setDataset (loadRemainingPages 100 paging) g)
  end.

(** The new [(currentSortColumn, currentSortDirection)] computed at the top of
    [onSort]. *)
Definition nextSort (columnName : string) (column : option string)
    (direction : SortDirection) : option string * SortDirection :=
  if bool_decide (column = Some columnName)
  then match direction with
       | Ascending => (column, Descending)
       | Descending => (None, DirNone)
       | DirNone => (column, Ascending)
       end
  else (Some columnName, Ascending).

Definition onSort (columnName : string) (g : State) : State :=
  let dataset0 := g.(dataset) in
  let '(newColumn, newSortDirection) :=
    nextSort columnName g.(currentSortColumn) g.(currentSortDirection) in
  let g1 := setSort newColumn newSortDirection g in
  match List.find (fun col => String.eqb col.(name) columnName) (ds_columns dataset0) with
  | Some _ =>
      let sorting :=
        match newSortDirection with
        | DirNone => []
        | dir => [ {| sortName := columnName; sortStatusDirection := dir |} ]
        end in
      let d1 := ds_setSorting sorting dataset0 in
      let d2 := paging_reset d1 in
      let d3 := ds_refresh d2 in
      setDataset d3 (setCurrentPage 1 g1)
  | None => g1
  end.

(** [this.recordsToJson.find(rec => rec.recordId === id)] *)
Definition findRecordObject (id : string) (l : list RecordObject) : option RecordObject :=
  List.find (fun rec => bool_decide (getProperty "recordId" rec = Some id)) l.

Definition onSelectionChange (selectedIds : list string) (g : State) : State :=
  let objects :=
    match g.(recordsToJson) with
    | Some json =>
        if bool_decide (selectedIds = []) then []
        else omap (fun id => findRecordObject id json) selectedIds
    | None => []
    end in
  notifyOutputChanged (setSelection selectedIds objects g).

Definition onLinkClick (recordId : string) (g : State) : State :=
  match g.(recordsToJson) with
  | Some json =>
      match findRecordObject recordId json with
      | Some clickedRecord => notifyOutputChanged (setSelectedLinkRecords [clickedRecord] g)
      | None => g
      end
  | None => g
  end.

(** The object built for one id by [convertRecordsToJson]; [None] when
    [record.getFormattedValue] is called on a missing record. *)
Definition recordToJson (cols : list Column) (recs : gmap string EntityRecord)
    (id : string) : option RecordObject :=
  match recs !! id with
  | Some record =>
      Some (foldl (fun recordData column =>
                     setProperty column.(name) (getFormattedValue record column.(name))
                                 recordData)
                  [("recordId", Some id)] cols)
  | None =>
      match cols with
      | [] => Some [("recordId", Some id)]
      | _ :: _ => None
      end
  end.

Definition convertRecordsToJson (g : State) : option (list RecordObject) :=
  mapM (recordToJson (ds_columns g.(dataset)) g.(records)) g.(sortedRecordsIds).

(** The block of [updateView] guarded by
    [isTableRefresh && !this.previousRefreshValue]. *)
Definition refreshBlock (g : State) : State :=
  let g1 := setSelectedLinkRecords [] (setSelection [] [] g) in
  let d1 := paging_reset g1.(dataset) in
  let g2 := setDataset d1 (setCurrentPage 1 g1) in
  let g3 := setSort None Ascending g2 in
  let d2 := ds_refresh (ds_setSorting [] g3.(dataset)) in
  notifyOutputChanged (setDataset d2 g3).

(** The total stored by [updateView]. *)
Definition computeTotal (g : State) (d : D) : Z :=
  let pagingTotalCount := paging_totalResultCount d in
  if 0 <=? pagingTotalCount then pagingTotalCount
  else if paging_hasNextPage d
       then g.(currentPage) * g.(pageSize) + g.(pageSize)
       else (g.(currentPage) - 1) * g.(pageSize) + Z.of_nat (length (ds_sortedRecordIds d)).

(** The state changes of [updateView] up to the call of
    [convertRecordsToJson]. *)
Definition updateFields (inputs : ViewInputs) (g : State) : State :=
  let isTableRefresh := bool_decide (inputs.(isTableRefreshRaw) = Some true) in
  let g1 := if isTableRefresh && negb g.(previousRefreshValue) then refreshBlock g else g in
  let g2 := setPreviousRefreshValue isTableRefresh g1 in
  let g3 := setDataset (paging_setPageSize 10 g2.(dataset)) g2 in
  let d := g3.(dataset) in
  setLoaded (ds_sortedRecordIds d) (ds_records d) (computeTotal g3 d) g3.

Definition selectionModeOf (raw : option Z) : option SelectionMode :=
  let selectionModeValue := default 1 raw in
  if selectionModeValue =? 0 then None
  else if selectionModeValue =? 1 then Some single
  else Some multiselect.

(** The props handed to [React.createElement(CustomTable, ...)]. *)
Definition propsOf (inputs : ViewInputs) (g : State) : CustomTable.GridProps :=
  let d := g.(dataset) in
  {| CustomTable.width := inputs.(allocatedWidth);
     CustomTable.height := inputs.(allocatedHeight);
     CustomTable.columns := ds_columns d;
     CustomTable.records := g.(records);
     CustomTable.sortedRecordIds := g.(sortedRecordsIds);
     CustomTable.itemsLoading := ds_loading d;
     CustomTable.selectionMode := selectionModeOf inputs.(selectionModeRaw);
     CustomTable.hasNextPage := paging_hasNextPage d;
     CustomTable.hasPreviousPage := 1 <? g.(currentPage);
     CustomTable.currentPage := g.(currentPage);
     CustomTable.totalResultCount := Z.of_nat (length (ds_sortedRecordIds d));
     CustomTable.recordsPerPage := g.(pageSize);
     CustomTable.sortColumn := g.(currentSortColumn);
     CustomTable.sortDirection := g.(currentSortDirection);
     CustomTable.isTableRefresh :=
       Some (bool_decide (inputs.(isTableRefreshRaw) = Some true));
     CustomTable.isLink := Some (bool_decide (inputs.(isLinkRaw) = Some true)) |}.

(** [updateView]: the new state of the control and the props it renders
    with; no props when [convertRecordsToJson] throws (the fields assigned
    before the throw keep their new values). *)
Definition updateView (inputs : ViewInputs) (g : State)
    : State * option CustomTable.GridProps :=
  let g1 := updateFields inputs g in
  match convertRecordsToJson g1 with
  | Some json =>
      let g2 := setRecordsToJson (Some json) g1 in
      (g2, Some (propsOf inputs g2))
  | None => (g1, None)
  end.

(** The two output properties. *)
Record Outputs := mkOutputs {
  SelectedRecordIds : string;
  SelectedLinkRecords : string;
}.

Definition getOutputs (g : State) : Outputs :=
  let selectedRecordObjectsJson :=
    if bool_decide (0 < length g.(selectedRecordObjects))%nat
    then stringify g.(selectedRecordObjects)
    else "" in
  let selectedLinkRecordsJson :=
    if bool_decide (0 < length g.(selectedLinkRecords))%nat
    then stringify g.(selectedLinkRecords)
    else "" in
  {| SelectedRecordIds := selectedRecordObjectsJson;
     SelectedLinkRecords := selectedLinkRecordsJson |}.

(** What can happen to the control after [init]: the framework calls
    [updateView], the rendered component calls back, or the host changes its
    data set on its own (a page arrives, a refresh completes). *)
Inductive Event :=
| UpdateView (inputs : ViewInputs)
| Navigate (direction : NavDirection)
| Sort (columnName : string)
| SelectionChange (selectedIds : list string)
| LinkClick (recordId : string)
| HostChange (d : D).

Definition step (e : Event) (g : State) : State :=
  match e with
  | UpdateView inputs => (updateView inputs g).1
  | Navigate direction => onNavigate direction g
  | Sort columnName => onSort columnName g
  | SelectionChange selectedIds => onSelectionChange selectedIds g
  | LinkClick recordId => onLinkClick recordId g
  | HostChange d => setDataset d g
  end.

Definition run (events : list Event) (g : State) : State :=
  foldl (fun g e => step e g) g events.

(** The states the control can be in. *)
Inductive reachable : State -> Prop :=
| reachable_init (d : D) : reachable (init d)
| reachable_step (e : Event) (g : State) : reachable g -> reachable (step e g).

(** The sort state of the control. *)
Definition sortOf (g : State) : option string * SortDirection :=
  (g.(currentSortColumn), g.(currentSortDirection)).

(** The sort states the control is ever in: a descending sort needs a column,
    and a column is never kept with direction None. *)
Definition sortAllowed (s : option string * SortDirection) : Prop :=
  match s with
  | (None, Descending) => False
  | (Some _, DirNone) => False
  | _ => True
  end.

(** [updateView] enters its refresh block. *)
Definition refreshEdge (inputs : ViewInputs) (g : State) : bool :=
  bool_decide (inputs.(isTableRefreshRaw) = Some true) && negb g.(previousRefreshValue).

End Control.

Global Arguments State D : clear implicits.
Global Arguments Event D : clear implicits.

(** Three requests on [c], from a sort state given by its two fields. *)
Definition cycle3 (c : string) (s : option string * SortDirection)
    : option string * SortDirection :=
  let s1 := nextSort c s.1 s.2 in
  let s2 := nextSort c s1.1 s1.2 in
  nextSort c s2.1 s2.2.

End TableGrid.

(** ** The control together with the component it renders *)

Module App.

Section App.

Context {D : Type} `{DataSetApi D}.

Record World := mkWorld {
  grid : TableGrid.State D;
  table : CustomTable.Mounted;
}.

(** A user event handled inside the component. *)
Definition userEvent (e : CustomTable.UiEvent) (w : World) : World :=
  {| grid := w.(grid);
     table := {| CustomTable.localState :=
                   CustomTable.handleUiEvent e w.(table).(CustomTable.localState);
                 CustomTable.refreshDeps := w.(table).(CustomTable.refreshDeps) |} |}.

(** A callback of the component into the control. *)
Definition callback (e : TableGrid.Event D) (w : World) : World :=
  {| grid := TableGrid.step e w.(grid); table := w.(table) |}.

Definition start (d : D) : World :=
  {| grid := TableGrid.init d; table := CustomTable.unmounted |}.

(** The control with its React root: the root remembers the props of the
    last element it was given, [None] before the first render. *)
Record Screen := mkScreen {
  world : World;
  renderedProps : option CustomTable.GridProps;
}.

Definition startScreen (d : D) : Screen :=
  {| world := start d; renderedProps := None |}.

(** Something that happens to the control or inside the component and does
    not go through [root.render]. *)
Definition between (f : World -> World) (s : Screen) : Screen :=
  {| world := f s.(world); renderedProps := s.(renderedProps) |}.

(** The framework calls [updateView]; unless [convertRecordsToJson] throws
    the control ends with [root.render] on the new props, and React renders
    the component unless [React.memo] finds the props unchanged. The views
    produced are returned in order. *)
Definition hostUpdate (sameObjects : bool) (inputs : TableGrid.ViewInputs) (s : Screen)
    : list (option CustomTable.View) * Screen :=
  match TableGrid.updateView inputs s.(world).(grid) with
  | (g', Some props) =>
      if CustomTable.memoSkipsRender sameObjects s.(renderedProps) props
      then ([], {| world := {| grid := g'; table := s.(world).(table) |};
                   renderedProps := Some props |})
      else
        let '(views, m') := CustomTable.renderPass props s.(world).(table) in
        (views, {| world := {| grid := g'; table := m' |};
                   renderedProps := Some props |})
  | (g', None) =>
      ([], {| world := {| grid := g'; table := s.(world).(table) |};
              renderedProps := s.(renderedProps) |})
  end.

(** The control and the component have seen the same refresh signal: the
    value the control remembers in [previousRefreshValue] is the value of
    the prop [isTableRefresh] at the last render and the dependency that
    the refresh effect recorded there. Before the first render the
    component is not mounted. *)
Definition inStep (s : Screen) : Prop :=
  match s.(renderedProps) with
  | None => s.(world).(table) = CustomTable.unmounted
  | Some shown =>
      shown.(CustomTable.isTableRefresh)
        = Some s.(world).(grid).(TableGrid.previousRefreshValue)
      /\ s.(world).(table).(CustomTable.refreshDeps)
        = Some (Some s.(world).(grid).(TableGrid.previousRefreshValue))
  end.

(** The runs in which every [updateView] got as far as its render: the
    start, updates that render, user events on the rendered component, and
    calls of the control's handlers or changes of the host's data between
    two updates. *)
Inductive steady : Screen -> Prop :=
| steady_start (d : D) : steady (startScreen d)
| steady_update (sameObjects : bool) (inputs : TableGrid.ViewInputs) (s : Screen) :
    steady s ->
    is_Some (TableGrid.updateView inputs s.(world).(grid)).2 ->
    steady (hostUpdate sameObjects inputs s).2
| steady_user (e : CustomTable.UiEvent) (s : Screen) :
    steady s -> is_Some s.(renderedProps) -> steady (between (userEvent e) s)
| steady_callback (e : TableGrid.Event D) (s : Screen) :
    steady s ->
    (forall inputs, e <> TableGrid.UpdateView inputs) ->
    steady (between (callback e) s).

End App.

Global Arguments World D : clear implicits.
Global Arguments Screen D : clear implicits.

End App.

(** ** What the filter predicate is meant to decide *)

Module FilterSpec.

(** Case-insensitive comparison of a cell text with a filter value: both
    sides are compared through their lower-case forms. *)
Definition ciContains (cell v : string) : Prop :=
  IsSubstring (toLowerCase v) (toLowerCase cell).
Definition ciEquals (cell v : string) : Prop :=
  toLowerCase cell = toLowerCase v.
Definition ciStartsWith (cell v : string) : Prop :=
  IsPrefix (toLowerCase v) (toLowerCase cell).
Definition ciEndsWith (cell v : string) : Prop :=
  IsSuffix (toLowerCase v) (toLowerCase cell).

(** The string form of a cell: a missing cell reads as the empty string. *)
Definition cellText (record : EntityRecord) (column : string) : string :=
  default "" (getFormattedValue record column).

(** One filter holds of a cell text. *)
Definition FilterHolds (f : ColumnFilter) (cell : string) : Prop :=
  if decide (f.(operator) = "Equals") then ciEquals cell f.(value)
  else if decide (f.(operator) = "Starts with") then ciStartsWith cell f.(value)
  else if decide (f.(operator) = "Ends with") then ciEndsWith cell f.(value)
  else if decide (f.(operator) = "Does not contain") then ~ ciContains cell f.(value)
  else ciContains cell f.(value).

(** Every active filter holds of the record (conjunction over columns). *)
Definition PassesEvery (filters : gmap string ColumnFilter)
    (record : EntityRecord) : Prop :=
  forall (column : string) (f : ColumnFilter),
    filters !! column = Some f -> FilterHolds f (cellText record column).

(** The ids kept by the filtering step, as the window is meant to see them:
    all of them under an empty filter mapping, else those the predicate
    accepts, in their original order. *)
Definition keptIds (ids : list string) (records : gmap string EntityRecord)
    (filters : gmap string ColumnFilter) : list string :=
  if decide (filters = ∅) then ids
  else List.filter (CustomTable.keepRecordId records filters) ids.

(** Every stored filter value is trimmed and not empty. *)
Definition storedValuesTrimmed (filters : gmap string ColumnFilter) : Prop :=
  forall (column : string) (f : ColumnFilter),
    filters !! column = Some f -> Trimmed f.(value) /\ f.(value) ≠ "".

End FilterSpec.

(** ** Sample data used in the worked scenarios *)

Module Samples.

(** A record whose cells are given by a finite map; other cells are missing. *)
Definition recordOf (cells : gmap string string) : EntityRecord :=
  {| getFormattedValue := fun column => cells !! column |}.

Definition statusRecords : gmap string EntityRecord :=
  {[ "A" := recordOf {[ "Status" := "active" ]};
     "B" := recordOf {[ "Status" := "Inactive" ]};
     "C" := recordOf {[ "Status" := "pending" ]} ]}.

Definition statusFilter : gmap string ColumnFilter :=
  {[ "Status" := {| columnName := "Status"; operator := "Contains"; value := "activ" |} ]}.

Definition fiveIds : list string := ["a"; "b"; "c"; "d"; "e"].

End Samples.

(** ** A simple host, used to run scenarios *)

Module MockHost.

(** A data set that knows how many further pages it can load. *)
Record DataSet := mkDataSet {
  columns : list Column;
  records : gmap string EntityRecord;
  sortedRecordIds : list string;
  loading : bool;
  sorting : list SortStatus;
  pagesAhead : nat;
  pagesBehind : nat;
  totalResultCount : Z;
  pageSize : Z;
  refreshes : nat;
}.

Definition loadNextPage (d : DataSet) : DataSet :=
  match d.(pagesAhead) with
  | O => d
  | S n =>
      mkDataSet d.(columns) d.(records) d.(sortedRecordIds) d.(loading) d.(sorting)
        n (S d.(pagesBehind)) d.(totalResultCount) d.(pageSize) d.(refreshes)
  end.

Definition loadPreviousPage (d : DataSet) : DataSet :=
  match d.(pagesBehind) with
  | O => d
  | S n =>
      mkDataSet d.(columns) d.(records) d.(sortedRecordIds) d.(loading) d.(sorting)
        (S d.(pagesAhead)) n d.(totalResultCount) d.(pageSize) d.(refreshes)
  end.

Definition reset (d : DataSet) : DataSet :=
  mkDataSet d.(columns) d.(records) d.(sortedRecordIds) d.(loading) d.(sorting)
    (d.(pagesAhead) + d.(pagesBehind)) 0 d.(totalResultCount) d.(pageSize) d.(refreshes).

Definition setSorting (s : list SortStatus) (d : DataSet) : DataSet :=
  mkDataSet d.(columns) d.(records) d.(sortedRecordIds) d.(loading) s
    d.(pagesAhead) d.(pagesBehind) d.(totalResultCount) d.(pageSize) d.(refreshes).

Definition refresh (d : DataSet) : DataSet :=
  mkDataSet d.(columns) d.(records) d.(sortedRecordIds) d.(loading) d.(sorting)
    d.(pagesAhead) d.(pagesBehind) d.(totalResultCount) d.(pageSize) (S d.(refreshes)).

Definition setPageSize (n : Z) (d : DataSet) : DataSet :=
  mkDataSet d.(columns) d.(records) d.(sortedRecordIds) d.(loading) d.(sorting)
    d.(pagesAhead) d.(pagesBehind) d.(totalResultCount) n d.(refreshes).

Global Instance api : DataSetApi DataSet :=
  {| ds_columns := columns;
     ds_records := records;
     ds_sortedRecordIds := sortedRecordIds;
     ds_loading := loading;
     ds_setSorting := setSorting;
     ds_refresh := refresh;
     paging_hasNextPage := fun d => negb (Nat.eqb d.(pagesAhead) 0);
     paging_totalResultCount := totalResultCount;
     paging_loadNextPage := loadNextPage;
     paging_loadPreviousPage := loadPreviousPage;
     paging_reset := reset;
     paging_setPageSize := setPageSize |}.

(** A data set with the columns Name and Age, three records, all of them
    loaded, and a reported total of 25 rows. *)
Definition people : DataSet :=
  {| columns := [ mkColumn "Name" "Name"; mkColumn "Age" "Age"; mkColumn "Status" "Status" ];
     records :=
       {[ "r1" := Samples.recordOf {[ "Name" := "Ada"; "Age" := "36"; "Status" := "active" ]};
          "r2" := Samples.recordOf {[ "Name" := "Bob"; "Age" := "41"; "Status" := "pending" ]};
          "r3" := Samples.recordOf {[ "Name" := "Cy"; "Age" := "29"; "Status" := "Inactive" ]} ]};
     sortedRecordIds := ["r1"; "r2"; "r3"];
     loading := false;
     sorting := [];
     pagesAhead := 0;
     pagesBehind := 0;
     totalResultCount := 25;
     pageSize := 50;
     refreshes := 0 |}.

Definition plainInputs : TableGrid.ViewInputs :=
  {| TableGrid.isTableRefreshRaw := Some false;
     TableGrid.selectionModeRaw := Some 1;
     TableGrid.isLinkRaw := Some false;
     TableGrid.allocatedWidth := 800;
     TableGrid.allocatedHeight := 600 |}.

Definition refreshInputs : TableGrid.ViewInputs :=
  {| TableGrid.isTableRefreshRaw := Some true;
     TableGrid.selectionModeRaw := Some 1;
     TableGrid.isLinkRaw := Some false;
     TableGrid.allocatedWidth := 800;
     TableGrid.allocatedHeight := 600 |}.

End MockHost.

(** ** A run of the control and the component on the sample host *)

Module Scenario.

Import TableGrid CustomTable App.

(** The scenario: the component is mounted on the sample host, the user
    filters the Status column by "activ" and sorts by Name, the framework
    updates the view, and then the refresh signal goes from false to true.
    The host hands over the same objects at every update. *)
Definition beforeRefresh : list (option View) * Screen MockHost.DataSet :=
  let s1 := (hostUpdate true MockHost.plainInputs (startScreen MockHost.people)).2 in
  let s2 := between (userEvent (PopoverOpenChange "Status" true)) s1 in
  let s3 := between (userEvent (ValueInput "activ")) s2 in
  let s4 := between (userEvent ApplyClick) s3 in
  let s5 := between (callback (Sort "Name")) s4 in
  hostUpdate true MockHost.plainInputs s5.

Definition atRefresh : list (option View) * Screen MockHost.DataSet :=
  hostUpdate true MockHost.refreshInputs beforeRefresh.2.

(** The same update once more, the signal still true. *)
Definition afterRefresh : list (option View) * Screen MockHost.DataSet :=
  hostUpdate true MockHost.refreshInputs atRefresh.2.

(** The sample data set, one of its ids without a record. *)
Definition peopleWithGap : MockHost.DataSet :=
  MockHost.mkDataSet MockHost.people.(MockHost.columns) MockHost.people.(MockHost.records)
    ["r1"; "gone"] false [] 0 0 25 10 0.

(** A run in which one [updateView] throws: the table is refreshed once,
    the user filters the Status column by "activ", the host then offers an
    id that has no record while the signal goes back to false (this
    [updateView] throws in [convertRecordsToJson] and renders nothing), the
    host repairs its data, and the signal goes from false to true again. *)
Definition beforeFailedUpdate : Screen MockHost.DataSet :=
  let s1 := (hostUpdate false MockHost.plainInputs (startScreen MockHost.people)).2 in
  let s2 := (hostUpdate false MockHost.refreshInputs s1).2 in
  let s3 := between (userEvent (PopoverOpenChange "Status" true)) s2 in
  let s4 := between (userEvent (ValueInput "activ")) s3 in
  let s5 := between (userEvent ApplyClick) s4 in
  between (callback (HostChange peopleWithGap)) s5.

Definition failedUpdate : list (option View) * Screen MockHost.DataSet :=
  hostUpdate false MockHost.plainInputs beforeFailedUpdate.

Definition refreshAfterFailedUpdate : list (option View) * Screen MockHost.DataSet :=
  hostUpdate false MockHost.refreshInputs
    (between (callback (HostChange MockHost.people)) failedUpdate.2).

End Scenario.

(** ** Further code of [CustomTable.tsx]: header texts and the sort buttons
    of the filter popup *)

Module HeaderPopup.

Import TableGrid CustomTable App.

(** [String.prototype.toUpperCase] on one code unit of the ASCII range:
    the letters a to z move to A to Z, every other code unit below 128
    stays.  Code units from 128 on are left as they are here, which is not
    what the library does to letters outside ASCII. *)
Definition toUpperChar (c : ascii) : ascii :=
  let n := nat_of_ascii c in
  if (Nat.leb 97 n && Nat.leb n 122)%bool then ascii_of_nat (n - 32) else c.

Fixpoint toUpperCase (s : string) : string :=
  match s with
  | EmptyString => EmptyString
  | String c s' => String (toUpperChar c) (toUpperCase s')
  end.

Definition isAsciiUnit (c : ascii) : bool := Nat.ltb (nat_of_ascii c) 128.

(** [text.charAt(0).toUpperCase() + text.slice(1)], the empty (falsy) text
    being returned as it is.  The library's case mapping of a first
    character outside ASCII can change it and can make the text longer; it
    is not modelled, and the result is [None] for such a text. *)
Definition capitalizeFirstLetter (text : string) : option string :=
  match text with
  | EmptyString => Some text
  | String c rest =>
      if isAsciiUnit c then Some (String (toUpperChar c) rest) else None
  end.

(** The texts on which [capitalizeFirstLetter] is modelled. *)
Definition startsInAscii (text : string) : bool :=
  match text with
  | EmptyString => true
  | String c _ => isAsciiUnit c
  end.

Section Buttons.

Context {D : Type} `{DataSetApi D}.

Definition closePopup (m : Mounted) : Mounted :=
  {| localState := setOpenFilterColumn None m.(localState);
     refreshDeps := m.(refreshDeps) |}.

(** The click handler of the button "Sort A to Z" in the popup of [column]:
    [onSort] is called, then called once more unless the props of the
    render that built the handler say that the column is sorted ascending;
    the popup is closed. *)
Definition sortAToZClick (props : GridProps) (column : string) (w : World D) : World D :=
  let g1 := onSort column w.(grid) in
  let g2 :=
    if negb (bool_decide (props.(sortColumn) = Some column))
       || negb (bool_decide (props.(sortDirection) = Ascending))
    then onSort column g1
    else g1 in
  {| grid := g2; table := closePopup w.(table) |}.

(** The click handler of the button "Sort Z to A": the new world, and the
    calls it leaves to a timer ([setTimeout(() => onSort(column.name), 100)]). *)
Definition sortZToAClick (props : GridProps) (column : string) (w : World D)
    : World D * list (Event D) :=
  if bool_decide (props.(sortColumn) = Some column)
     && bool_decide (props.(sortDirection) = Ascending)
  then ({| grid := onSort column w.(grid); table := closePopup w.(table) |}, [])
  else if negb (bool_decide (props.(sortColumn) = Some column))
  then ({| grid := onSort column w.(grid); table := closePopup w.(table) |},
        [Sort column])
  else ({| grid := w.(grid); table := closePopup w.(table) |}, []).

(** The timer calls are made, in order, when nothing else happened in
    between. *)
Definition runTimers (pending : list (Event D)) (w : World D) : World D :=
  {| grid := run pending w.(grid); table := w.(table) |}.

(** The props a render shows agree with the sort state of the control. *)
Definition propsShowSort (props : GridProps) (g : State D) : Prop :=
  props.(sortColumn) = g.(currentSortColumn)
  /\ props.(sortDirection) = g.(currentSortDirection).

End Buttons.

End HeaderPopup.

(** ** User gestures on the filter popup *)

Module Gestures.

Import CustomTable.

(** What the user does to put a filter on a column: open its popup, choose
    the operator, type the value, press Apply. *)
Definition applyFilterOn (column op v : string) (st : LocalState) : LocalState :=
  handleApplyFilter
    (setTempFilterValue v (setTempFilterOperator op (handleOpenFilter column st))).

End Gestures.

(** ** Further code of [statusUtils.ts] *)

Module StatusValues.

Import StatusUtils.

(** The loop of [getAllStatusValues]: the keys of every category, in table
    order. *)
Definition allKeys (categories : list StatusCategory) : list string :=
  flat_map (fun category => map fst category) categories.

Definition getAllStatusValues : list string :=
  allKeys (map snd STATUS_DEFINITIONS).

(** The style a key has in the first category, in table order, that has it
    as an own key. *)
Definition firstOwnStyle (categories : list StatusCategory) (key : string)
    : option StatusStyle :=
  head (omap (fun category => ownProperty category key) categories).

End StatusValues.

(** ** Helpers to state properties of the paging and of the host loop *)

Module Paging.

(** The page numbers 1 .. n. *)
Definition pagesUpTo (n : nat) : list Z := map Z.of_nat (seq 1 n).

(** [n] calls of a host method. *)
Fixpoint callTimes {D : Type} (f : D -> D) (n : nat) (d : D) : D :=
  match n with
  | O => d
  | S n' => callTimes f n' (f d)
  end.

End Paging.

(** ** Records and filter values in another case *)

Module OtherCase.

(** The record whose every cell is the upper-case form of the cell of
    [record]. *)
Definition upperRecord (record : EntityRecord) : EntityRecord :=
  {| getFormattedValue := fun column =>
       HeaderPopup.toUpperCase <$> getFormattedValue record column |}.

End OtherCase.

(** ** The loop of [convertRecordsToJson] over the columns *)

Module RecordJson.

Import Json.

(** [dataset.columns.forEach(column => recordData[column.name] =
    record.getFormattedValue(column.name))], from the object [start]. *)
Definition fillColumns (record : EntityRecord) (cols : list Column) (start : RecordObject)
    : RecordObject :=
  foldl (fun recordData column =>
           setProperty column.(name) (getFormattedValue record column.(name)) recordData)
        start cols.

End RecordJson.

(** ** Further sample hosts *)

Module MoreSamples.

(** The sample host when it reports no total and can load three more
    pages. *)
Definition peopleUnknownTotal : MockHost.DataSet :=
  MockHost.mkDataSet MockHost.people.(MockHost.columns) MockHost.people.(MockHost.records)
    MockHost.people.(MockHost.sortedRecordIds) false [] 3 0 (-1) 50 0.

(** The world in which the sample host has been sorted ascending by Name and
    the view updated. *)
Definition sortedByName : App.World MockHost.DataSet :=
  {| App.grid :=
       TableGrid.run [TableGrid.UpdateView MockHost.plainInputs; TableGrid.Sort "Name";
                      TableGrid.UpdateView MockHost.plainInputs]
                     (TableGrid.init MockHost.people);
     App.table := CustomTable.unmounted |}.

End MoreSamples.


(** * Properties *)

(** ** String primitives *)

Section JsStringFacts.

Lemma app_nil_l_s (s : string) : "" +:+ s = s.
Proof. reflexivity. Qed.

Lemma app_cons_s (c : ascii) (s t : string) :
  String c s +:+ t = String c (s +:+ t).
Proof. reflexivity. Qed.

Lemma app_nil_r_s (s : string) : s +:+ "" = s.
Proof. induction s as [|c s IH]; [done|]. by rewrite app_cons_s, IH. Qed.

Lemma app_assoc_s (a b c : string) : (a +:+ b) +:+ c = a +:+ b +:+ c.
Proof. induction a as [|x a IH]; [done|]. by rewrite !app_cons_s, IH. Qed.

Lemma length_app_s (a b : string) :
  String.length (a +:+ b) = (String.length a + String.length b)%nat.
Proof. induction a as [|x a IH]; [done|]. rewrite app_cons_s. simpl. by rewrite IH. Qed.

Lemma startsWith_spec (s p : string) :
  startsWith s p = true <-> IsPrefix p s.
Proof.
  revert s. induction p as [|a p IH]; intros s; simpl.
  - split; [intros _; by exists s | done].
  - destruct s as [|b s].
    + split; [done | intros [t Ht]; rewrite app_cons_s in Ht; discriminate].
    + rewrite andb_true_iff, Ascii.eqb_eq, IH. split.
      * intros [-> [t ->]]. by exists t.
      * intros [t Ht]. rewrite app_cons_s in Ht. injection Ht as -> ->.
        split; [done | by exists t].
Qed.

Lemma includes_spec (s p : string) :
  includes s p = true <-> IsSubstring p s.
Proof.
  induction s as [|c s IH].
  - cbn [includes]. rewrite orb_false_r, startsWith_spec. split.
    + intros [t Ht]. exists "", t. by rewrite app_nil_l_s.
    + intros [a [b Hab]]. destruct a as [|x a].
      * by exists b.
      * rewrite app_cons_s in Hab. discriminate.
  - cbn [includes]. rewrite orb_true_iff, startsWith_spec, IH. split.
    + intros [[t Ht] | [a [b Hab]]].
      * exists "", t. by rewrite app_nil_l_s.
      * exists (String c a), b. by rewrite app_cons_s, Hab.
    + intros [a [b Hab]]. destruct a as [|x a].
      * left. by exists b.
      * right. rewrite app_cons_s in Hab. injection Hab as -> ->. by exists a, b.
Qed.

Lemma dropChars_app (a b : string) : dropChars (String.length a) (a +:+ b) = b.
Proof. induction a as [|x a IH]; [done|]. rewrite app_cons_s. simpl. exact IH. Qed.

Lemma dropChars_split (n : nat) (s : string) :
  (n <= String.length s)%nat ->
  exists t, s = t +:+ dropChars n s /\ String.length t = n.
Proof.
  revert s. induction n as [|n IH]; intros s Hn.
  - by exists "".
  - destruct s as [|c s]; simpl in Hn; [lia|].
    destruct (IH s) as [t [Ht Hlen]]; [lia|].
    exists (String c t). split; [| simpl; by rewrite Hlen].
    rewrite app_cons_s. simpl. by rewrite <- Ht.
Qed.

Lemma endsWith_spec (s p : string) :
  endsWith s p = true <-> IsSuffix p s.
Proof.
  unfold endsWith, IsSuffix. split.
  - destruct (Nat.leb_spec (String.length p) (String.length s)) as [Hle|Hlt]; [|done].
    intros Heq. apply String.eqb_eq in Heq.
    destruct (dropChars_split (String.length s - String.length p) s) as [t [Ht _]]; [lia|].
    exists t. by rewrite <- Heq.
  - intros [t ->]. rewrite length_app_s.
    destruct (Nat.leb_spec (String.length p) (String.length t + String.length p)) as [_|Hlt]; [|lia].
    replace (String.length t + String.length p - String.length p)%nat
      with (String.length t) by lia.
    rewrite dropChars_app. apply String.eqb_refl.
Qed.

Lemma includes_empty (s : string) : includes s "" = true.
Proof. destruct s; reflexivity. Qed.

(** [trimStart] leaves no leading white space. *)
Lemma trimStart_head (s : string) : headIsSpace (trimStart s) = false.
Proof.
  induction s as [|c s IH]; [done|]. simpl.
  destruct (isWhiteSpace c) eqn:Hc; [exact IH | simpl; exact Hc].
Qed.

Lemma trimEnd_last (s : string) : lastIsSpace (trimEnd s) = false.
Proof.
  induction s as [|c s IH]; [done|]. simpl.
  destruct (trimEnd s) as [|d t] eqn:Ht.
  - destruct (isWhiteSpace c) eqn:Hc; [done | simpl; exact Hc].
  - exact IH.
Qed.

Lemma trimEnd_head (s : string) :
  headIsSpace s = false -> headIsSpace (trimEnd s) = false.
Proof.
  destruct s as [|c s]; [done|]. simpl. intros Hc.
  destruct (trimEnd s); [rewrite Hc|]; simpl; exact Hc.
Qed.

Lemma trim_Trimmed (s : string) : Trimmed (trim s).
Proof.
  split; unfold trim.
  - apply trimEnd_head, trimStart_head.
  - apply trimEnd_last.
Qed.

Lemma trimEnd_empty_iff (s : string) :
  trimEnd s = "" <-> allWhiteSpace s = true.
Proof.
  induction s as [|c s IH]; [done|]. simpl.
  destruct (trimEnd s) as [|d t] eqn:Ht.
  - destruct (isWhiteSpace c); simpl.
    + rewrite <- IH. done.
    + split; done.
  - split; [done|]. rewrite andb_true_iff. intros [_ H]. apply IH in H. done.
Qed.

Lemma trimStart_allWhiteSpace (s : string) :
  allWhiteSpace (trimStart s) = allWhiteSpace s.
Proof.
  induction s as [|c s IH]; [done|]. simpl.
  destruct (isWhiteSpace c) eqn:Hc; simpl; [exact IH | by rewrite Hc].
Qed.

(** [trim] yields the empty (falsy) string exactly on white-space-only
    input. *)
Lemma trim_empty_iff (s : string) :
  trim s = "" <-> allWhiteSpace s = true.
Proof. unfold trim. by rewrite trimEnd_empty_iff, trimStart_allWhiteSpace. Qed.

Lemma truthy_false_iff (s : string) : truthy s = false <-> s = "".
Proof. destruct s; split; done. Qed.

Lemma toLowerChar_idem (c : ascii) : toLowerChar (toLowerChar c) = toLowerChar c.
Proof.
  destruct c as [[] [] [] [] [] [] [] []]; reflexivity.
Qed.

Lemma toLowerCase_idem (s : string) : toLowerCase (toLowerCase s) = toLowerCase s.
Proof. induction s as [|c s IH]; [done|]. simpl. by rewrite toLowerChar_idem, IH. Qed.

End JsStringFacts.

(** ** The view window *)

Section Window.

Import CustomTable FilterSpec.

Lemma slice_window {A : Type} (l : list A) (start count : Z) :
  0 <= start -> 0 <= count ->
  slice l start (start + count) = take (Z.to_nat count) (drop (Z.to_nat start) l).
Proof.
  intros Hs Hc. unfold slice.
  destruct (Z.ltb_spec start 0) as [?|_]; [lia|].
  destruct (Z.ltb_spec (start + count) 0) as [?|_]; [lia|].
  destruct (Z.le_gt_cases start (Z.of_nat (length l))) as [Hle|Hgt].
  - rewrite (Z.min_l start) by lia.
    destruct (Z.le_gt_cases (start + count) (Z.of_nat (length l))) as [Hle2|Hgt2].
    + rewrite Z.min_l by lia. f_equal. lia.
    + rewrite Z.min_r by lia.
      rewrite !take_ge; [done | |]; rewrite length_drop; lia.
  - rewrite (Z.min_r start) by lia. rewrite Z.min_r by lia.
    rewrite !drop_ge by lia. by rewrite !take_nil.
Qed.

Lemma slice_sublist {A : Type} (l : list A) (start end_ : Z) :
  sublist (slice l start end_) l.
Proof.
  unfold slice. etrans; [apply sublist_take | apply sublist_drop].
Qed.

Lemma list_filter_sublist {A : Type} (f : A -> bool) (l : list A) :
  sublist (List.filter f l) l.
Proof.
  induction l as [|x l IH]; simpl; [constructor|].
  destruct (f x); by constructor.
Qed.

Lemma filteredIds_sublist ids records filters :
  sublist (filteredIds ids records filters) ids.
Proof.
  unfold filteredIds. case_bool_decide; [apply list_filter_sublist | done].
Qed.

Lemma size_positive_iff (filters : gmap string ColumnFilter) :
  (0 < size filters)%nat <-> filters ≠ ∅.
Proof.
  rewrite <- map_size_non_empty_iff. lia.
Qed.

Lemma filteredIds_keptIds ids records filters :
  filteredIds ids records filters = keptIds ids records filters.
Proof.
  unfold filteredIds, keptIds.
  case_bool_decide as Hsz; case_decide as He; try done.
  - subst. rewrite map_size_empty in Hsz. lia.
  - apply size_positive_iff in He. lia.
Qed.

(** C1. For page [p >= 1] and page size [s >= 0] the derived window is the
    slice [[(p-1)*s, (p-1)*s + s)] of the kept ids (all ids under an empty
    filter mapping, else those accepted by the predicate, order preserved);
    it is a stable subsequence of the ordered ids, has at most [s] elements
    and is empty when [(p-1)*s] is at least the number of kept ids. *)
Theorem displayRecordIds_window
    (orderedIds : list string) (records : gmap string EntityRecord)
    (filters : gmap string ColumnFilter) (p s : Z) :
  1 <= p -> 0 <= s ->
  let window := displayRecordIds orderedIds records filters p s in
  let kept := keptIds orderedIds records filters in
  window = take (Z.to_nat s) (drop (Z.to_nat ((p - 1) * s)) kept)
  /\ sublist window orderedIds
  /\ Z.of_nat (length window) <= s
  /\ (Z.of_nat (length kept) <= (p - 1) * s -> window = []).
Proof.
  intros Hp Hs window kept.
  assert (Hw : window = take (Z.to_nat s) (drop (Z.to_nat ((p - 1) * s)) kept)).
  { unfold window, displayRecordIds, kept.
    rewrite slice_window by nia. by rewrite filteredIds_keptIds. }
  split; [exact Hw|]. split; [|split].
  - unfold window, displayRecordIds.
    etrans; [apply slice_sublist | apply filteredIds_sublist].
  - rewrite Hw, length_take. lia.
  - intros Hlen. rewrite Hw, drop_ge; [by rewrite take_nil | lia].
Qed.

(** The partial last page: page size 2, five kept ids, page 3. *)
Lemma displayRecordIds_window_witness :
  displayRecordIds Samples.fiveIds ∅ ∅ 3 2 = ["e"]
  /\ sublist ["e"] Samples.fiveIds.
Proof.
  destruct (displayRecordIds_window Samples.fiveIds ∅ ∅ 3 2) as (Hw & Hsub & _);
    [lia | lia |].
  split.
  - rewrite Hw. reflexivity.
  - assert (He : displayRecordIds Samples.fiveIds ∅ ∅ 3 2 = ["e"])
      by (rewrite Hw; reflexivity).
    rewrite He in Hsub. exact Hsub.
Defined.

End Window.

(** ** The filter predicate *)

Section FilterPredicate.

Import CustomTable FilterSpec.

Lemma stringOrEmpty_default (v : option string) : stringOrEmpty v = default "" v.
Proof. destruct v as [[|c s]|]; reflexivity. Qed.

Lemma eqb_true_iff_s (a b : string) : String.eqb a b = true <-> a = b.
Proof. apply String.eqb_eq. Qed.

Lemma negb_includes_spec (s p : string) :
  negb (includes s p) = true <-> ~ IsSubstring p s.
Proof.
  rewrite negb_true_iff, <- includes_spec. destruct (includes s p); split; done.
Qed.

(** The [switch] decides what [FilterHolds] states. *)
Lemma filterMatches_spec (record : EntityRecord) (column : string) (f : ColumnFilter) :
  filterMatches record column f = true <-> FilterHolds f (cellText record column).
Proof.
  unfold filterMatches, FilterHolds, cellText,
    ciContains, ciEquals, ciStartsWith, ciEndsWith.
  rewrite stringOrEmpty_default.
  destruct (String.eqb_spec (operator f) "Contains") as [Hc|Hc].
  - rewrite Hc. repeat (case_decide; [discriminate|]). apply includes_spec.
  - destruct (String.eqb_spec (operator f) "Equals") as [He|He].
    { rewrite decide_True by done. apply eqb_true_iff_s. }
    rewrite decide_False by done.
    destruct (String.eqb_spec (operator f) "Starts with") as [Hs|Hs].
    { rewrite decide_True by done. apply startsWith_spec. }
    rewrite decide_False by done.
    destruct (String.eqb_spec (operator f) "Ends with") as [Hw|Hw].
    { rewrite decide_True by done. apply endsWith_spec. }
    rewrite decide_False by done.
    destruct (String.eqb_spec (operator f) "Does not contain") as [Hd|Hd].
    { rewrite decide_True by done. apply negb_includes_spec. }
    rewrite decide_False by done. apply includes_spec.
Qed.

Lemma passesAllFilters_spec (filters : gmap string ColumnFilter) (record : EntityRecord) :
  passesAllFilters filters record = true <-> PassesEvery filters record.
Proof.
  unfold passesAllFilters, PassesEvery. rewrite forallb_forall. split.
  - intros Hall column f Hf.
    apply filterMatches_spec.
    apply (Hall (column, f)). apply list_elem_of_In. by apply elem_of_map_to_list.
  - intros Hall [column f] Hin. simpl. apply filterMatches_spec, Hall.
    apply elem_of_map_to_list. by apply list_elem_of_In.
Qed.

(** An operator outside the five named ones is treated as [Contains]. *)
Lemma unknown_operator_is_contains (f : ColumnFilter) (cell : string) :
  f.(operator) ∉ ["Contains"; "Equals"; "Starts with"; "Ends with"; "Does not contain"] ->
  FilterHolds f cell <-> ciContains cell f.(value).
Proof.
  intros Hop. unfold FilterHolds.
  repeat (destruct (decide _) as [Heq|_];
          [exfalso; apply Hop; rewrite Heq; set_solver |]).
  done.
Qed.

(** C2. For a record present in the store, the predicate applied by the
    filtering step answers [true] exactly when every active filter holds of
    the record: the conjunction over the columns of the mapping of the
    case-insensitive comparison fixed by the operator (substring for
    Contains and for any unknown operator, equality for Equals, prefix and
    suffix for Starts with and Ends with, negated substring for Does not
    contain), a missing cell being read as the empty string. *)
Theorem keepRecordId_iff_passes_every
    (filters : gmap string ColumnFilter) (records : gmap string EntityRecord)
    (id : string) (record : EntityRecord) :
  records !! id = Some record ->
  (keepRecordId records filters id = true <-> PassesEvery filters record)
  /\ (forall (column : string) (f : ColumnFilter),
        f.(operator) ∉ ["Contains"; "Equals"; "Starts with"; "Ends with";
                        "Does not contain"] ->
        filterMatches record column f = true
        <-> ciContains (cellText record column) f.(value)).
Proof.
  intros Hrec. split.
  - unfold keepRecordId. rewrite Hrec. apply passesAllFilters_spec.
  - intros column f Hop. rewrite filterMatches_spec.
    by apply unknown_operator_is_contains.
Qed.

(** The scenario of the three Status values under [{Status: Contains "activ"}]:
    "active" and "Inactive" pass, "pending" does not, and the filtered
    sequence is [A, B]. *)
Lemma keepRecordId_iff_passes_every_witness :
  PassesEvery Samples.statusFilter (Samples.recordOf {[ "Status" := "active" ]})
  /\ PassesEvery Samples.statusFilter (Samples.recordOf {[ "Status" := "Inactive" ]})
  /\ ~ PassesEvery Samples.statusFilter (Samples.recordOf {[ "Status" := "pending" ]})
  /\ filteredIds ["A"; "B"; "C"] Samples.statusRecords Samples.statusFilter = ["A"; "B"].
Proof.
  split; [|split; [|split]].
  - apply (keepRecordId_iff_passes_every Samples.statusFilter Samples.statusRecords "A");
      vm_compute; reflexivity.
  - apply (keepRecordId_iff_passes_every Samples.statusFilter Samples.statusRecords "B");
      vm_compute; reflexivity.
  - intros Hp.
    apply (keepRecordId_iff_passes_every Samples.statusFilter Samples.statusRecords "C")
      in Hp; [vm_compute in Hp; discriminate Hp | vm_compute; reflexivity].
  - vm_compute; reflexivity.
Defined.

End FilterPredicate.

(** ** Ids without a record *)

Section MissingRecords.

Import CustomTable FilterSpec.

Lemma slice_elem_of {A : Type} (l : list A) (start end_ : Z) (x : A) :
  x ∈ slice l start end_ -> x ∈ l.
Proof. intros Hx. eapply elem_of_sublist; [exact Hx | apply slice_sublist]. Qed.

Lemma keepRecordId_missing (records : gmap string EntityRecord)
    (filters : gmap string ColumnFilter) (id : string) :
  records !! id = None -> keepRecordId records filters id = false.
Proof. intros Hn. unfold keepRecordId. by rewrite Hn. Qed.

(** C3 as stated fails: under an empty filter mapping the filtering step is
    skipped, and an id without a record is shown like any other. *)
Lemma displayRecordIds_keeps_missing_id_without_filters :
  (∅ : gmap string EntityRecord) !! "ghost" = None
  /\ displayRecordIds ["ghost"] ∅ ∅ 1 10 = ["ghost"].
Proof. split; vm_compute; reflexivity. Qed.

(** C3, amended. An id whose record is absent from the store never appears
    in the derived window when the filter mapping is not empty, whatever the
    page and the page size; under an empty filter mapping no id is dropped by
    the filtering step: the window is the page slice of the whole ordered
    sequence, absent ids included. In both cases the derivation is a total
    function: it yields a list and never fails. *)
Theorem displayRecordIds_missing_record
    (orderedIds : list string) (records : gmap string EntityRecord)
    (filters : gmap string ColumnFilter) (p s : Z) (id : string) :
  records !! id = None ->
  (filters ≠ ∅ -> id ∉ displayRecordIds orderedIds records filters p s)
  /\ (filters = ∅ ->
      displayRecordIds orderedIds records filters p s
      = slice orderedIds ((p - 1) * s) ((p - 1) * s + s)).
Proof.
  intros Hmiss. split.
  - intros Hne Hin. unfold displayRecordIds in Hin.
    apply slice_elem_of in Hin. rewrite filteredIds_keptIds in Hin.
    unfold keptIds in Hin. rewrite decide_False in Hin by done.
    apply list_elem_of_In, filter_In in Hin. destruct Hin as [_ Hkeep].
    rewrite keepRecordId_missing in Hkeep by done. discriminate.
  - intros ->. unfold displayRecordIds. rewrite filteredIds_keptIds.
    unfold keptIds. by rewrite decide_True.
Qed.

Lemma displayRecordIds_missing_record_witness :
  ("C" ∉ displayRecordIds ["A"; "C"; "B"] (delete "C" Samples.statusRecords)
           Samples.statusFilter 1 10)
  /\ displayRecordIds ["A"; "C"; "B"] (delete "C" Samples.statusRecords)
          Samples.statusFilter 1 10 = ["A"; "B"].
Proof.
  split.
  - apply (displayRecordIds_missing_record ["A"; "C"; "B"]
             (delete "C" Samples.statusRecords) Samples.statusFilter 1 10 "C").
    + vm_compute; reflexivity.
    + intros He. apply (f_equal size) in He. vm_compute in He. discriminate.
  - vm_compute; reflexivity.
Defined.

End MissingRecords.

(** ** The control: sort cycling, navigation, refresh *)

Section ControlFacts.

Import TableGrid.

Context {D : Type} `{DataSetApi D}.

Lemma onSort_sortOf (c : string) (g : State D) :
  sortOf (onSort c g) = nextSort c g.(currentSortColumn) g.(currentSortDirection).
Proof.
  unfold onSort, sortOf.
  destruct (nextSort c (currentSortColumn g) (currentSortDirection g)) as [col dir].
  by destruct (List.find _ _).
Qed.

Lemma nextSort_other (c : string) (column : option string) (dir : SortDirection) :
  column ≠ Some c -> nextSort c column dir = (Some c, Ascending).
Proof. intros Hne. unfold nextSort. by rewrite bool_decide_eq_false_2. Qed.

Lemma nextSort_same (c : string) (dir : SortDirection) :
  nextSort c (Some c) dir =
    match dir with
    | Ascending => (Some c, Descending)
    | Descending => (None, DirNone)
    | DirNone => (Some c, Ascending)
    end.
Proof. unfold nextSort. by rewrite bool_decide_eq_true_2. Qed.

Lemma onSort_sortOf_fields (c : string) (g g' : State D) :
  sortOf g = sortOf g' -> sortOf (onSort c g) = sortOf (onSort c g').
Proof.
  rewrite !onSort_sortOf. unfold sortOf. by intros [= -> ->].
Qed.

Lemma onSort_sortOf_pair (c : string) (g : State D) :
  sortOf (onSort c g) = nextSort c (sortOf g).1 (sortOf g).2.
Proof. apply onSort_sortOf. Qed.

Lemma onSort3_sortOf (c : string) (g : State D) :
  sortOf (onSort c (onSort c (onSort c g))) = cycle3 c (sortOf g).
Proof. unfold cycle3. by rewrite !onSort_sortOf_pair. Qed.

Lemma cycle3_outside (c : string) (column : option string) (dir : SortDirection) :
  column ≠ Some c -> cycle3 c (column, dir) = (None, DirNone).
Proof.
  intros Hne. unfold cycle3. cbn [fst snd].
  rewrite (nextSort_other c column dir Hne). cbn [fst snd].
  rewrite nextSort_same. cbn [fst snd]. by rewrite nextSort_same.
Qed.

Lemma cycle3_inside (c : string) (s : option string * SortDirection) :
  s ∈ [(Some c, Ascending); (Some c, Descending); (None, DirNone)] ->
  cycle3 c s = s.
Proof.
  intros Hs. unfold cycle3.
  repeat (apply elem_of_cons in Hs as [-> | Hs]); cbn [fst snd].
  - rewrite nextSort_same. cbn [fst snd]. rewrite nextSort_same. cbn [fst snd].
    by rewrite (nextSort_other c None) by discriminate.
  - rewrite nextSort_same. cbn [fst snd].
    rewrite (nextSort_other c None) by discriminate. cbn [fst snd].
    by rewrite nextSort_same.
  - rewrite (nextSort_other c None) by discriminate. cbn [fst snd].
    rewrite nextSort_same. cbn [fst snd]. by rewrite nextSort_same.
  - by apply elem_of_nil in Hs.
Qed.

(** C4, amended. A sort request on a column other than the current sort
    column yields (that column, Ascending); a repeated request on the same
    column takes Ascending to Descending and Descending to None with the
    column cleared. Three consecutive requests on a column [c] bring the sort
    state back to where it started when it starts in one of the three states
    of the cycle of [c]: (c, Ascending), (c, Descending) or (null, None).
    From any state whose sort column is not [c] (an unsorted state included)
    three requests on [c] end in (null, None). *)
Theorem onSort_three_state_cycle (c : string) (g : State D) :
  (g.(currentSortColumn) ≠ Some c -> sortOf (onSort c g) = (Some c, Ascending))
  /\ (sortOf g = (Some c, Ascending) -> sortOf (onSort c g) = (Some c, Descending))
  /\ (sortOf g = (Some c, Descending) -> sortOf (onSort c g) = (None, DirNone))
  /\ (sortOf g ∈ [(Some c, Ascending); (Some c, Descending); (None, DirNone)] ->
      sortOf (onSort c (onSort c (onSort c g))) = sortOf g)
  /\ (g.(currentSortColumn) ≠ Some c ->
      sortOf (onSort c (onSort c (onSort c g))) = (None, DirNone)).
Proof.
  repeat split.
  - intros Hne. rewrite onSort_sortOf. by apply nextSort_other.
  - intros [= Hc Hd]. rewrite onSort_sortOf, Hc, Hd. by rewrite nextSort_same.
  - intros [= Hc Hd]. rewrite onSort_sortOf, Hc, Hd. by rewrite nextSort_same.
  - intros Hin. rewrite onSort3_sortOf. by apply cycle3_inside.
  - intros Hne. rewrite onSort3_sortOf. unfold sortOf. by apply cycle3_outside.
Qed.

End ControlFacts.

(** ** The sort-state invariant *)

Section SortInvariant.

Import TableGrid.

Context {D : Type} `{DataSetApi D}.

Lemma updateView_fields (inputs : ViewInputs) (g : State D) :
  (updateView inputs g).1 = updateFields inputs g
  \/ exists json, (updateView inputs g).1 = setRecordsToJson (Some json) (updateFields inputs g).
Proof.
  unfold updateView. destruct (convertRecordsToJson _) as [json|]; [right; by exists json | by left].
Qed.

Lemma updateFields_sortOf (inputs : ViewInputs) (g : State D) :
  sortOf (updateFields inputs g)
  = if refreshEdge inputs g then (None, Ascending) else sortOf g.
Proof.
  unfold updateFields, refreshEdge. by destruct (_ && _).
Qed.

Lemma updateView_sortOf (inputs : ViewInputs) (g : State D) :
  sortOf (updateView inputs g).1
  = if refreshEdge inputs g then (None, Ascending) else sortOf g.
Proof.
  destruct (updateView_fields inputs g) as [-> | [json ->]];
    [| change (sortOf (setRecordsToJson (Some json) (updateFields inputs g)))
         with (sortOf (updateFields inputs g))];
    apply updateFields_sortOf.
Qed.

Lemma onNavigate_sortOf (direction : NavDirection) (g : State D) :
  sortOf (onNavigate direction g) = sortOf g.
Proof.
  unfold onNavigate. destruct direction; repeat case_match; reflexivity.
Qed.

Lemma onSelectionChange_sortOf (ids : list string) (g : State D) :
  sortOf (onSelectionChange ids g) = sortOf g.
Proof. reflexivity. Qed.

Lemma onLinkClick_sortOf (id : string) (g : State D) :
  sortOf (onLinkClick id g) = sortOf g.
Proof. unfold onLinkClick. repeat case_match; reflexivity. Qed.

Lemma nextSort_allowed (c : string) (s : option string * SortDirection) :
  sortAllowed s -> sortAllowed (nextSort c s.1 s.2).
Proof.
  intros Hs. destruct s as [[col|] dir]; destruct dir; simpl in *;
    unfold nextSort; try case_bool_decide; simplify_eq; done.
Qed.

Lemma nextSort_well_formed (c : string) (s : option string * SortDirection) :
  sortAllowed s ->
  (nextSort c s.1 s.2).1 = None <-> (nextSort c s.1 s.2).2 = DirNone.
Proof.
  intros Hs. destruct s as [[col|] dir]; destruct dir; simpl in *;
    unfold nextSort; try case_bool_decide; simplify_eq; done.
Qed.

Lemma reachable_sortAllowed (g : State D) : reachable g -> sortAllowed (sortOf g).
Proof.
  induction 1 as [d | e g Hg IH]; [done|].
  destruct e as [inputs | direction | c | ids | id | d]; cbn [step].
  - rewrite updateView_sortOf. by destruct (refreshEdge inputs g).
  - by rewrite onNavigate_sortOf.
  - rewrite onSort_sortOf_pair. by apply nextSort_allowed.
  - exact IH.
  - by rewrite onLinkClick_sortOf.
  - exact IH.
Qed.

(** C5, amended. In every reachable state a sort direction None comes with a
    null sort column, and a null sort column comes with direction None or
    Ascending; every state produced by a sort request satisfies the
    equivalence (column null iff direction None). The initial state and the
    state produced by the refresh signal have a null column together with
    the direction Ascending. *)
Theorem sort_state_invariant (g : State D) :
  reachable g ->
  (g.(currentSortDirection) = DirNone -> g.(currentSortColumn) = None)
  /\ (g.(currentSortColumn) = None ->
      g.(currentSortDirection) = DirNone \/ g.(currentSortDirection) = Ascending)
  /\ (forall c : string,
        (onSort c g).(currentSortColumn) = None
        <-> (onSort c g).(currentSortDirection) = DirNone)
  /\ (forall d : D, sortOf (init d) = (None, Ascending))
  /\ (forall inputs : ViewInputs,
        refreshEdge inputs g = true ->
        sortOf (updateView inputs g).1 = (None, Ascending)).
Proof.
  intros Hg. pose proof (reachable_sortAllowed g Hg) as Hal.
  unfold sortOf in Hal. repeat split.
  - intros Hd. rewrite Hd in Hal. by destruct (currentSortColumn g).
  - intros Hc. rewrite Hc in Hal. destruct (currentSortDirection g); auto. done.
  - pose proof (onSort_sortOf_pair c g) as Hs.
    pose proof (nextSort_well_formed c (sortOf g) Hal) as [Hw _].
    rewrite <- Hs in Hw. exact Hw.
  - pose proof (onSort_sortOf_pair c g) as Hs.
    pose proof (nextSort_well_formed c (sortOf g) Hal) as [_ Hw].
    rewrite <- Hs in Hw. exact Hw.
  - intros inputs He. by rewrite updateView_sortOf, He.
Qed.

End SortInvariant.

(** ** Navigation *)

Section Navigation.

Import TableGrid.

Context {D : Type} `{DataSetApi D}.

Lemma setDataset_same (g : State D) : setDataset g.(dataset) g = g.
Proof. by destruct g. Qed.

Lemma loadRemainingPages_no_next (budget : nat) (d : D) :
  paging_hasNextPage d = false -> loadRemainingPages budget d = d.
Proof. intros Hn. destruct budget; simpl; [done | by rewrite Hn]. Qed.

Lemma updateFields_currentPage (inputs : ViewInputs) (g : State D) :
  (updateFields inputs g).(currentPage)
  = if refreshEdge inputs g then 1 else g.(currentPage).
Proof. unfold updateFields, refreshEdge. by destruct (_ && _). Qed.

Lemma updateView_currentPage (inputs : ViewInputs) (g : State D) :
  (updateView inputs g).1.(currentPage)
  = if refreshEdge inputs g then 1 else g.(currentPage).
Proof.
  destruct (updateView_fields inputs g) as [-> | [json ->]];
    apply updateFields_currentPage.
Qed.

Lemma onSort_currentPage (c : string) (g : State D) :
  (onSort c g).(currentPage) = 1 \/ (onSort c g).(currentPage) = g.(currentPage).
Proof.
  unfold onSort. destruct (nextSort _ _ _) as [col dir].
  destruct (List.find _ _); [by left | by right].
Qed.

(** The page size is the constant the field is initialised with. *)
Lemma reachable_pageSize (g : State D) : reachable g -> g.(pageSize) = 10.
Proof.
  induction 1 as [d | e g Hg IH]; [done|].
  destruct e as [inputs | direction | c | ids | id | d]; cbn [step]; try exact IH.
  - destruct (updateView_fields inputs g) as [-> | [json ->]];
      unfold updateFields; by destruct (_ && _).
  - unfold onNavigate. destruct direction; repeat case_match; exact IH.
  - unfold onSort. destruct (nextSort _ _ _) as [col dir].
    by destruct (List.find _ _).
  - unfold onLinkClick. repeat case_match; exact IH.
Qed.

(** C6, amended. A "next" request with no next page, a "previous" request on
    page 1 (or below) and a "first" request on page 1 leave the whole state
    of the control, the host paging state included, unchanged. A "last"
    request with no next page leaves the host paging state unchanged but
    assigns the page count computed from the stored total
    ([ceil(totalRecordCount / pageSize)], or 1 for a non-positive total) to
    [currentPage]: it is a no-op exactly when [currentPage] already has that
    value. Apart from navigation requests, an event either keeps
    [currentPage] or resets it to 1 (a sort request on a known column, the
    refresh signal); [updateView] never recomputes it from the total count. *)
Theorem onNavigate_beyond_available_pages (g : State D) :
  (paging_hasNextPage g.(dataset) = false -> onNavigate Next g = g)
  /\ (g.(currentPage) <= 1 -> onNavigate Previous g = g)
  /\ (g.(currentPage) = 1 -> onNavigate First g = g)
  /\ (paging_hasNextPage g.(dataset) = false ->
      onNavigate Last g = setCurrentPage (totalPages g) g
      /\ (onNavigate Last g).(dataset) = g.(dataset)
      /\ (onNavigate Last g = g <-> totalPages g = g.(currentPage)))
  /\ (forall e : Event D,
        (exists direction, e = Navigate direction)
        \/ (step e g).(currentPage) = g.(currentPage)
        \/ (step e g).(currentPage) = 1)
  /\ (forall inputs : ViewInputs,
        refreshEdge inputs g = false ->
        (updateView inputs g).1.(currentPage) = g.(currentPage)).
Proof.
  split; [|split; [|split; [|split; [|split]]]].
  - intros Hn. unfold onNavigate. by rewrite Hn.
  - intros Hp. unfold onNavigate.
    destruct (Z.ltb_spec 1 (currentPage g)); [lia | done].
  - intros Hp. unfold onNavigate. by rewrite Hp.
  - intros Hn.
    assert (Hlast : onNavigate Last g = setCurrentPage (totalPages g) g).
    { unfold onNavigate. rewrite loadRemainingPages_no_next by done.
      by rewrite setDataset_same. }
    rewrite Hlast. split; [done|]. split; [done|]. split.
    + intros Heq. apply (f_equal currentPage) in Heq. exact Heq.
    + intros ->. by destruct g.
  - intros e. destruct e as [inputs | direction | c | ids | id | d]; cbn [step].
    + right. rewrite updateView_currentPage. destruct (refreshEdge inputs g); auto.
    + left. by exists direction.
    + right. destruct (onSort_currentPage c g); auto.
    + right. by left.
    + right. left. unfold onLinkClick. repeat case_match; reflexivity.
    + right. by left.
  - intros inputs He. by rewrite updateView_currentPage, He.
Qed.

End Navigation.

(** ** The control on the sample host *)

Section ControlScenarios.

Import TableGrid.

(** C4 as stated fails: three requests on "Name" do not restore the sort
    state the control starts in (null column, direction Ascending), and they
    do not restore a state sorted on another column either; both end in
    (null, None). *)
Lemma onSort_three_requests_do_not_restore :
  sortOf (init MockHost.people) = (None, Ascending)
  /\ sortOf (run [Sort "Name"; Sort "Name"; Sort "Name"] (init MockHost.people))
     = (None, DirNone)
  /\ sortOf (run [Sort "Age"] (init MockHost.people)) = (Some "Age", Ascending)
  /\ sortOf (run [Sort "Age"; Sort "Name"; Sort "Name"; Sort "Name"]
               (init MockHost.people))
     = (None, DirNone).
Proof. repeat split; vm_compute; reflexivity. Qed.

(** Three requests on "Name" from the unsorted state end in (null, None);
    from (Name, Ascending) they come back to (Name, Ascending). *)
Lemma onSort_three_state_cycle_witness :
  let unsorted := setSort None DirNone (init MockHost.people) in
  let byName := onSort "Name" unsorted in
  sortOf (onSort "Name" (onSort "Name" (onSort "Name" unsorted))) = (None, DirNone)
  /\ sortOf byName = (Some "Name", Ascending)
  /\ sortOf (onSort "Name" (onSort "Name" (onSort "Name" byName))) = sortOf byName.
Proof.
  cbn zeta.
  pose proof (onSort_three_state_cycle "Name" (setSort None DirNone (init MockHost.people)))
    as (_ & _ & _ & _ & Hout).
  pose proof (onSort_three_state_cycle "Name"
                (onSort "Name" (setSort None DirNone (init MockHost.people))))
    as (_ & _ & _ & Hin & _).
  split; [|split].
  - apply Hout. vm_compute. discriminate.
  - vm_compute; reflexivity.
  - apply Hin. vm_compute. apply list_elem_of_here.
Defined.

(** C5 as stated fails: the initial state and the state after the refresh
    signal have a null sort column with the direction Ascending. *)
Lemma sort_state_initial_and_refreshed :
  (init MockHost.people).(currentSortColumn) = None
  /\ (init MockHost.people).(currentSortDirection) = Ascending
  /\ sortOf (run [Sort "Name"] (init MockHost.people)) = (Some "Name", Ascending)
  /\ sortOf (run [Sort "Name"; UpdateView MockHost.refreshInputs] (init MockHost.people))
     = (None, Ascending).
Proof. repeat split; vm_compute; reflexivity. Qed.

Lemma sort_state_invariant_witness :
  (forall c : string,
     (onSort c (run [Sort "Name"; Sort "Name"] (init MockHost.people))).(currentSortColumn)
       = None
     <-> (onSort c (run [Sort "Name"; Sort "Name"] (init MockHost.people))).(currentSortDirection)
       = DirNone)
  /\ sortOf (run [Sort "Name"; Sort "Name"] (init MockHost.people))
     = (Some "Name", Descending).
Proof.
  split.
  - apply (sort_state_invariant (run [Sort "Name"; Sort "Name"] (init MockHost.people))).
    apply (reachable_step (Sort "Name")), (reachable_step (Sort "Name")), reachable_init.
  - vm_compute; reflexivity.
Defined.

(** C6 as stated fails: with no further page, a "last" request moves
    [currentPage] from 1 to the page count computed from the total (25 rows,
    10 per page: 3), while the host paging state stays as it is. *)
Lemma onNavigate_last_without_next_page_moves :
  let g := run [UpdateView MockHost.plainInputs] (init MockHost.people) in
  paging_hasNextPage g.(dataset) = false
  /\ g.(currentPage) = 1
  /\ g.(totalRecordCount) = 25
  /\ (onNavigate Last g).(currentPage) = 3
  /\ (onNavigate Last g).(dataset) = g.(dataset).
Proof. repeat split; vm_compute; reflexivity. Qed.

Lemma onNavigate_beyond_available_pages_witness :
  let g := run [UpdateView MockHost.plainInputs] (init MockHost.people) in
  onNavigate Next g = g /\ onNavigate Previous g = g /\ onNavigate First g = g.
Proof.
  cbn zeta.
  pose proof (onNavigate_beyond_available_pages
                (run [UpdateView MockHost.plainInputs] (init MockHost.people)))
    as (Hnext & Hprev & Hfirst & _).
  split; [|split].
  - apply Hnext. vm_compute; reflexivity.
  - apply Hprev. vm_compute. discriminate.
  - apply Hfirst. vm_compute; reflexivity.
Defined.

End ControlScenarios.

(** ** Applying a filter *)

Section ApplyFilter.

Import CustomTable FilterSpec.

Lemma truthy_trim_false (v : string) :
  allWhiteSpace v = true -> truthy (trim v) = false.
Proof. intros Hw. apply truthy_false_iff. by apply trim_empty_iff. Qed.

Lemma truthy_trim_true (v : string) :
  allWhiteSpace v = false -> truthy (trim v) = true.
Proof.
  intros Hw. destruct (truthy (trim v)) eqn:Ht; [done|].
  apply truthy_false_iff, trim_empty_iff in Ht. congruence.
Qed.

Lemma truthy_true_iff (s : string) : truthy s = true <-> s ≠ "".
Proof. destruct s; split; done. Qed.

Lemma handleApplyFilter_closes (st : LocalState) :
  (handleApplyFilter st).(openFilterColumn) = None.
Proof. reflexivity. Qed.

Lemma handleApplyFilter_ignores_blank (st : LocalState) :
  allWhiteSpace st.(tempFilterValue) = true ->
  (handleApplyFilter st).(columnFilters) = st.(columnFilters).
Proof.
  intros Hw. unfold handleApplyFilter.
  destruct (openFilterColumn st) as [column|]; [|done].
  by rewrite (truthy_trim_false _ Hw), andb_false_r.
Qed.

Lemma handleApplyFilter_stores (st : LocalState) (column : string) :
  st.(openFilterColumn) = Some column -> column ≠ "" ->
  allWhiteSpace st.(tempFilterValue) = false ->
  (handleApplyFilter st).(columnFilters)
  = <[ column := {| columnName := column;
                    operator := st.(tempFilterOperator);
                    value := trim st.(tempFilterValue) |} ]> st.(columnFilters).
Proof.
  intros Ho Hc Hw. unfold handleApplyFilter. rewrite Ho.
  apply truthy_true_iff in Hc. by rewrite Hc, (truthy_trim_true _ Hw).
Qed.

Lemma handleApplyFilter_keeps_trimmed (st : LocalState) :
  storedValuesTrimmed st.(columnFilters) ->
  storedValuesTrimmed (handleApplyFilter st).(columnFilters).
Proof.
  intros Hinv. destruct (allWhiteSpace (tempFilterValue st)) eqn:Hw.
  { by rewrite handleApplyFilter_ignores_blank. }
  unfold handleApplyFilter.
  destruct (openFilterColumn st) as [column|]; [|done].
  destruct (truthy column); [|done].
  rewrite (truthy_trim_true _ Hw). simpl.
  intros c f Hf. destruct (decide (column = c)) as [->|Hne].
  - rewrite lookup_insert_eq in Hf. injection Hf as <-. simpl.
    split; [apply trim_Trimmed|].
    apply truthy_true_iff. by apply truthy_trim_true.
  - rewrite lookup_insert_ne in Hf by done. by apply (Hinv c).
Qed.

Lemma handleClearFilter_keeps_trimmed (st : LocalState) :
  storedValuesTrimmed st.(columnFilters) ->
  storedValuesTrimmed (handleClearFilter st).(columnFilters).
Proof.
  intros Hinv. unfold handleClearFilter.
  destruct (openFilterColumn st) as [column|]; [|done].
  destruct (truthy column); [|done]. simpl.
  intros c f Hf. apply lookup_delete_Some in Hf as [_ Hf]. by apply (Hinv c).
Qed.

Lemma handleUiEvent_keeps_trimmed (e : UiEvent) (st : LocalState) :
  storedValuesTrimmed st.(columnFilters) ->
  storedValuesTrimmed (handleUiEvent e st).(columnFilters).
Proof.
  intros Hinv. destruct e as [column [|] | | op | v | | | column x | x | ]; simpl;
    try exact Hinv.
  - by apply handleApplyFilter_keeps_trimmed.
  - by apply handleClearFilter_keeps_trimmed.
  - unfold handleResizeMove. repeat case_match; exact Hinv.
  - unfold handleResizeEnd. case_match; exact Hinv.
Qed.

Lemma reachableLocal_trimmed (st : LocalState) :
  reachableLocal st -> storedValuesTrimmed st.(columnFilters).
Proof.
  induction 1 as [| e st Hst IH | st Hst IH].
  - intros c f Hf.
    change (columnFilters initialLocalState) with (∅ : gmap string ColumnFilter) in Hf.
    by rewrite lookup_empty in Hf.
  - by apply handleUiEvent_keeps_trimmed.
  - intros c f Hf.
    change (columnFilters (resetLocalState st)) with (∅ : gmap string ColumnFilter) in Hf.
    by rewrite lookup_empty in Hf.
Qed.

(** C7. Applying a filter whose pending value is empty or only white space
    leaves the filter mapping unchanged and closes the popup. Applying any
    other value, with the popup open on a column (of non-empty name), stores
    under that column the pending operator and the value with its leading
    and trailing white space removed, and closes the popup. In every
    reachable state of the component no stored filter value has leading or
    trailing white space (and none is empty). *)
Theorem handleApplyFilter_trims_and_rejects_blank (st : LocalState) :
  (allWhiteSpace st.(tempFilterValue) = true ->
     (handleApplyFilter st).(columnFilters) = st.(columnFilters)
     /\ (handleApplyFilter st).(openFilterColumn) = None)
  /\ (forall column : string,
        st.(openFilterColumn) = Some column -> column ≠ "" ->
        allWhiteSpace st.(tempFilterValue) = false ->
        (handleApplyFilter st).(columnFilters)
        = <[ column := {| columnName := column;
                          operator := st.(tempFilterOperator);
                          value := trim st.(tempFilterValue) |} ]> st.(columnFilters)
        /\ Trimmed (trim st.(tempFilterValue))
        /\ (handleApplyFilter st).(openFilterColumn) = None)
  /\ (reachableLocal st ->
      forall (column : string) (f : ColumnFilter),
        st.(columnFilters) !! column = Some f ->
        Trimmed f.(value) /\ f.(value) ≠ "").
Proof.
  split; [|split].
  - intros Hw. split; [by apply handleApplyFilter_ignores_blank | done].
  - intros column Ho Hc Hw. split; [by apply handleApplyFilter_stores|].
    split; [apply trim_Trimmed | done].
  - intros Hr. by apply reachableLocal_trimmed.
Qed.

(** The white-space-only value of the scenario, and a value with blanks
    around it. *)
Lemma handleApplyFilter_trims_and_rejects_blank_witness :
  let st0 := handleOpenFilter "Status" initialLocalState in
  (handleApplyFilter (setTempFilterValue "  " st0)).(columnFilters) = ∅
  /\ (handleApplyFilter (setTempFilterValue "  " st0)).(openFilterColumn) = None
  /\ (handleApplyFilter (setTempFilterValue "  Activ " st0)).(columnFilters)
     = {[ "Status" := {| columnName := "Status"; operator := "Contains";
                         value := "Activ" |} ]}.
Proof.
  cbn zeta.
  pose proof (handleApplyFilter_trims_and_rejects_blank
                (setTempFilterValue "  " (handleOpenFilter "Status" initialLocalState)))
    as (Hblank & _ & _).
  pose proof (handleApplyFilter_trims_and_rejects_blank
                (setTempFilterValue "  Activ " (handleOpenFilter "Status" initialLocalState)))
    as (_ & Hstore & _).
  destruct Hblank as [Hsame Hclosed]; [vm_compute; reflexivity|].
  destruct (Hstore "Status") as (Hnew & _ & _);
    [vm_compute; reflexivity | discriminate | vm_compute; reflexivity |].
  split; [|split].
  - rewrite Hsame. vm_compute; reflexivity.
  - exact Hclosed.
  - rewrite Hnew. vm_compute; reflexivity.
Defined.

End ApplyFilter.

(** ** The refresh signal *)

Section RefreshSignal.

Import TableGrid CustomTable.

Context {D : Type} `{DataSetApi D}.

Lemma updateView_selection (inputs : ViewInputs) (g : State D) :
  let g' := (updateView inputs g).1 in
  TableGrid.selectedRecordIds g'
    = (if refreshEdge inputs g then [] else TableGrid.selectedRecordIds g)
  /\ TableGrid.selectedRecordObjects g'
    = (if refreshEdge inputs g then [] else TableGrid.selectedRecordObjects g)
  /\ TableGrid.selectedLinkRecords g'
    = (if refreshEdge inputs g then [] else TableGrid.selectedLinkRecords g).
Proof.
  cbn zeta.
  destruct (updateView_fields inputs g) as [-> | [json ->]];
    unfold updateFields, refreshEdge; by destruct (_ && _).
Qed.

Lemma updateView_previousRefreshValue (inputs : ViewInputs) (g : State D) :
  TableGrid.previousRefreshValue (updateView inputs g).1
  = bool_decide (inputs.(isTableRefreshRaw) = Some true).
Proof.
  destruct (updateView_fields inputs g) as [-> | [json ->]]; reflexivity.
Qed.

(** A value of the signal that is merely sustained does not trigger the
    refresh block again. *)
Lemma refreshEdge_after_updateView (inputs : ViewInputs) (g : State D) :
  refreshEdge inputs (updateView inputs g).1 = false.
Proof.
  unfold refreshEdge. rewrite updateView_previousRefreshValue.
  by destruct (bool_decide _).
Qed.

Lemma effectRuns_same (dep : option bool) : effectRuns (Some dep) dep = false.
Proof. unfold effectRuns. by rewrite bool_decide_eq_true_2. Qed.

Lemma renderPass_edge (props : GridProps) (m : Mounted) :
  effectRuns m.(refreshDeps) props.(isTableRefresh) = true ->
  props.(isTableRefresh) = Some true ->
  is_Some (renderView props m.(localState)) ->
  renderPass props m
  = ([renderView props m.(localState); renderView props initialLocalState],
     {| localState := initialLocalState; refreshDeps := Some (Some true) |}).
Proof.
  intros He Ht [v Hv]. unfold renderPass. by rewrite Hv, He, Ht.
Qed.

Lemma renderPass_no_edge (props : GridProps) (m : Mounted) :
  effectRuns m.(refreshDeps) props.(isTableRefresh) = false
  \/ props.(isTableRefresh) ≠ Some true ->
  (renderPass props m).1 = [renderView props m.(localState)]
  /\ (renderPass props m).2.(localState) = m.(localState).
Proof.
  intros Hno. unfold renderPass.
  destruct (renderView props (localState m)) as [v|]; [|done].
  destruct (effectRuns _ _); [|done].
  destruct Hno as [Hno|Hno]; [done|].
  destruct (isTableRefresh props) as [[|]|]; done.
Qed.

Lemma renderPass_deps (props : GridProps) (m : Mounted) :
  is_Some (renderView props m.(localState)) ->
  effectRuns (renderPass props m).2.(refreshDeps) props.(isTableRefresh) = false.
Proof.
  intros [v Hv]. unfold renderPass. rewrite Hv.
  destruct (effectRuns (refreshDeps m) (isTableRefresh props)) eqn:He.
  - destruct (isTableRefresh props) as [[|]|]; apply effectRuns_same.
  - exact He.
Qed.

Lemma updateView_dataset (inputs : ViewInputs) (g : State D) :
  (updateView inputs g).1.(dataset)
  = paging_setPageSize 10
      (if refreshEdge inputs g
       then ds_refresh (ds_setSorting [] (paging_reset g.(dataset)))
       else g.(dataset)).
Proof.
  destruct (updateView_fields inputs g) as [-> | [json ->]];
    unfold updateFields, refreshEdge; by destruct (_ && _).
Qed.

End RefreshSignal.

(** ** The status classifier *)

Section StatusClassifier.

Import StatusUtils.

(** A column is eligible exactly when its lower-cased name contains one of
    the seven keywords. *)
Lemma isStatusColumn_spec (columnName : string) :
  isStatusColumn columnName = true
  <-> exists keyword, keyword ∈ statusKeywords
                      /\ IsSubstring keyword (toLowerCase columnName).
Proof.
  unfold isStatusColumn. destruct columnName as [|c s].
  - simpl. split; [done|]. intros (keyword & Hin & a & b & Hab).
    destruct a; [|done]. destruct keyword; [|done].
    apply list_elem_of_In in Hin. simpl in Hin. intuition discriminate.
  - cbn [truthy negb]. rewrite existsb_exists. split.
    + intros (keyword & Hin & Hinc). exists keyword.
      split; [by apply list_elem_of_In | by apply includes_spec].
    + intros (keyword & Hin & Hsub). exists keyword.
      split; [by apply list_elem_of_In | by apply includes_spec].
Qed.

Lemma ownProperty_Some (category : StatusCategory) (key : string) (style : StatusStyle) :
  ownProperty category key = Some style -> (key, style) ∈ category.
Proof.
  induction category as [|[k s] rest IH]; simpl; [done|].
  destruct (String.eqb_spec k key) as [->|Hne].
  - intros [= ->]. apply list_elem_of_here.
  - intros Hr. apply list_elem_of_further. by apply IH.
Qed.

Lemma ownProperty_of_key (category : StatusCategory) (key : string) :
  In key (map fst category) -> is_Some (ownProperty category key).
Proof.
  induction category as [|[k s] rest IH]; simpl; [done|].
  destruct (String.eqb_spec k key) as [->|Hne]; [by eexists|].
  intros [Hk|Hin]; [done | by apply IH].
Qed.

Lemma ownProperty_key (category : StatusCategory) (key : string) :
  is_Some (ownProperty category key) -> In key (map fst category).
Proof.
  induction category as [|[k s] rest IH]; simpl; [by intros [? ?]|].
  destruct (String.eqb_spec k key) as [->|Hne]; [by left|].
  intros Hs. right. by apply IH.
Qed.

Lemma findKeyIgnoringCase_None (category : StatusCategory) (n : string) :
  findKeyIgnoringCase category n = None <-> keysMatch category n = false.
Proof.
  unfold findKeyIgnoringCase, keysMatch.
  induction (map fst category) as [|k ks IH]; simpl; [done|].
  destruct (String.eqb (toLowerCase k) (toLowerCase n)); [done | exact IH].
Qed.

(** The search over a list of categories whose keys are all non-empty, for a
    value that is not the name of an inherited member: the answer is [null]
    exactly when no key of any category equals the value up to case. *)
Lemma searchCategories_None (categories : list StatusCategory) (n : string) :
  Forall (fun category => Forall (fun key => truthy key = true) (map fst category))
         categories ->
  inheritedName n = false ->
  searchCategories categories n = None
  <-> existsb (fun category => keysMatch category n) categories = false.
Proof.
  intros Hkeys Hinh. induction Hkeys as [|category rest Hcat Hrest IH]; simpl; [done|].
  unfold getProperty at 1. fold (inheritedName n). rewrite Hinh.
  destruct (ownProperty category n) as [style|] eqn:Hown.
  - split; [done|]. rewrite orb_false_iff. intros [Hm _].
    assert (Hin : In n (map fst category)) by (apply ownProperty_key; by eexists).
    unfold keysMatch in Hm. rewrite <- not_true_iff_false, existsb_exists in Hm.
    exfalso. apply Hm. exists n. split; [done | apply String.eqb_refl].
  - destruct (findKeyIgnoringCase category n) as [statusKey|] eqn:Hfind.
    + assert (Hk : In statusKey (map fst category)
                   /\ String.eqb (toLowerCase statusKey) (toLowerCase n) = true)
        by (by apply find_some in Hfind).
      destruct Hk as [Hin Heq].
      rewrite Forall_forall in Hcat.
      rewrite (Hcat statusKey) by (by apply list_elem_of_In).
      destruct (ownProperty_of_key category statusKey Hin) as [style Hstyle].
      unfold getProperty. rewrite Hstyle.
      split; [done|]. rewrite orb_false_iff. intros [Hm _].
      unfold keysMatch in Hm. rewrite <- not_true_iff_false, existsb_exists in Hm.
      exfalso. apply Hm. by exists statusKey.
    + apply findKeyIgnoringCase_None in Hfind. rewrite Hfind. simpl. exact IH.
Qed.

Lemma table_keys_not_empty :
  Forall (fun category : StatusCategory =>
            Forall (fun key => truthy key = true) (map fst category))
         (map snd STATUS_DEFINITIONS).
Proof. repeat constructor. Qed.

(** For every cell value whose trimmed form is not the name of a member
    inherited from [Object.prototype], the lookup returns [null] exactly
    when no entry of the table matches. *)
Lemma getStatusStyle_None_iff (statusValue : string) :
  inheritedName (trim statusValue) = false ->
  getStatusStyle statusValue = None <-> entryMatches statusValue = false.
Proof.
  intros Hinh. unfold getStatusStyle, entryMatches.
  destruct statusValue as [|c s]; [done|].
  cbn [truthy negb].
  apply (searchCategories_None _ _ table_keys_not_empty Hinh).
Qed.

(** The scenarios: "Shipped" in the column OrderStatus gets the icon of the
    order-status category, also when written in another case or padded with
    blanks; nothing is classified in the column Description. *)
Lemma classify_scenarios :
  isStatusColumn "OrderStatus" = true
  /\ getStatusStyle "Shipped" = Some (OwnStyle (mkStatusStyle "📦"))
  /\ ownProperty
       (default [] (snd <$> List.find (fun c => String.eqb c.1 "orderStatus") STATUS_DEFINITIONS))
       "Shipped" = Some (mkStatusStyle "📦")
  /\ getStatusStyle " shipped " = Some (OwnStyle (mkStatusStyle "📦"))
  /\ getStatusStyle "Unheard of" = None
  /\ isStatusColumn "Description" = false
  /\ (forall cell, CustomTable.classify "Description" cell = None).
Proof. repeat split; vm_compute; reflexivity. Qed.

(** C9 at the failing input. The cell value "constructor" matches no entry
    of the table in any category, yet the lookup does not return [null]: the
    exact-match read [category[normalizedValue]] finds the member that the
    category object inherits and returns it. In a status column such a cell
    is rendered as a badge. *)
Theorem getStatusStyle_returns_inherited_member :
  entryMatches "constructor" = false
  /\ getStatusStyle "constructor" = Some (Inherited "constructor")
  /\ isStatusColumn "Status" = true
  /\ CustomTable.classify "Status" (Some "constructor") = Some (Inherited "constructor").
Proof. repeat split; vm_compute; reflexivity. Qed.

End StatusClassifier.

(** ** The outputs *)

Section Outputs.

Import TableGrid Json.

Context {D : Type} `{DataSetApi D}.

Lemma stringify_not_empty (l : list RecordObject) : stringify l ≠ "".
Proof. unfold stringify. done. Qed.

Lemma length_positive_iff {A : Type} (l : list A) : (0 < length l)%nat <-> l ≠ [].
Proof. destruct l; simpl; split; (done || lia). Qed.

Lemma onNavigate_selection (direction : NavDirection) (g : State D) :
  (onNavigate direction g).(selectedRecordIds) = g.(selectedRecordIds)
  /\ (onNavigate direction g).(selectedRecordObjects) = g.(selectedRecordObjects).
Proof. unfold onNavigate. destruct direction; repeat case_match; done. Qed.

Lemma onSort_selection (c : string) (g : State D) :
  (onSort c g).(selectedRecordIds) = g.(selectedRecordIds)
  /\ (onSort c g).(selectedRecordObjects) = g.(selectedRecordObjects).
Proof.
  unfold onSort. destruct (nextSort _ _ _) as [col dir].
  by destruct (List.find _ _).
Qed.

Lemma onLinkClick_selection (id : string) (g : State D) :
  (onLinkClick id g).(selectedRecordIds) = g.(selectedRecordIds)
  /\ (onLinkClick id g).(selectedRecordObjects) = g.(selectedRecordObjects).
Proof. unfold onLinkClick. repeat case_match; done. Qed.

(** With no id selected there is no selected record object. *)
Lemma reachable_no_selection (g : State D) :
  reachable g -> g.(selectedRecordIds) = [] -> g.(selectedRecordObjects) = [].
Proof.
  induction 1 as [d | e g Hg IH]; [done|].
  destruct e as [inputs | direction | c | ids | id | d]; cbn [step].
  - pose proof (updateView_selection inputs g) as (Hids & Hobjs & _).
    cbn zeta in Hids, Hobjs. rewrite Hids, Hobjs.
    by destruct (refreshEdge inputs g).
  - destruct (onNavigate_selection direction g) as [-> ->]. exact IH.
  - destruct (onSort_selection c g) as [-> ->]. exact IH.
  - unfold onSelectionChange. cbn. intros ->.
    destruct (recordsToJson g); [by rewrite bool_decide_eq_true_2 | done].
  - destruct (onLinkClick_selection id g) as [-> ->]. exact IH.
  - exact IH.
Qed.

(** C10. [getOutputs] returns the empty string for [SelectedRecordIds] when
    the list of selected record objects is empty (in particular, in every
    reachable state in which no id is selected), and the empty string for
    [SelectedLinkRecords] when no link-clicked record is held; when a list is
    not empty the output is its JSON serialization. The empty string is not
    the serialization of the empty list (that is the text of an opening and
    a closing bracket), and it is not the serialization of any list: every
    serialization starts with an opening bracket. *)
Theorem getOutputs_empty_string_or_json (g : State D) :
  (g.(selectedRecordObjects) = [] -> (getOutputs g).(SelectedRecordIds) = "")
  /\ (reachable g -> g.(selectedRecordIds) = [] ->
      (getOutputs g).(SelectedRecordIds) = "")
  /\ (g.(selectedLinkRecords) = [] -> (getOutputs g).(SelectedLinkRecords) = "")
  /\ (g.(selectedRecordObjects) ≠ [] ->
      (getOutputs g).(SelectedRecordIds) = stringify g.(selectedRecordObjects))
  /\ (g.(selectedLinkRecords) ≠ [] ->
      (getOutputs g).(SelectedLinkRecords) = stringify g.(selectedLinkRecords))
  /\ stringify [] = "[]"
  /\ (forall l : list RecordObject,
        stringify l ≠ "" /\ exists rest, stringify l = String "[" rest).
Proof.
  unfold getOutputs. cbn [SelectedRecordIds SelectedLinkRecords].
  split; [|split; [|split; [|split; [|split; [|split]]]]].
  - intros ->. done.
  - intros Hr Hids. by rewrite (reachable_no_selection g Hr Hids).
  - intros ->. done.
  - intros Hne. apply length_positive_iff in Hne. by rewrite bool_decide_eq_true_2.
  - intros Hne. apply length_positive_iff in Hne. by rewrite bool_decide_eq_true_2.
  - reflexivity.
  - intros l. split; [apply stringify_not_empty|]. by eexists.
Qed.

End Outputs.

Section OutputsScenario.

Import TableGrid Json.

(** On the sample host: with nothing selected both outputs are the empty
    string; selecting an id that is not among the loaded records leaves the
    output empty; selecting "r2" yields the serialization of its record. *)
Lemma getOutputs_empty_string_or_json_witness :
  let g := run [UpdateView MockHost.plainInputs] (init MockHost.people) in
  (getOutputs g).(SelectedRecordIds) = ""
  /\ (getOutputs g).(SelectedLinkRecords) = ""
  /\ (getOutputs (onSelectionChange ["unknown"] g)).(SelectedRecordIds) = ""
  /\ (getOutputs (onSelectionChange ["r2"] g)).(SelectedRecordIds)
     = "[{" +:+ quoteJSONString "recordId" +:+ ":" +:+ quoteJSONString "r2" +:+ ","
            +:+ quoteJSONString "Name" +:+ ":" +:+ quoteJSONString "Bob" +:+ ","
            +:+ quoteJSONString "Age" +:+ ":" +:+ quoteJSONString "41" +:+ ","
            +:+ quoteJSONString "Status" +:+ ":" +:+ quoteJSONString "pending" +:+ "}]".
Proof.
  cbn zeta.
  pose proof (getOutputs_empty_string_or_json
                (run [UpdateView MockHost.plainInputs] (init MockHost.people)))
    as (Hsel & _ & Hlink & _).
  pose proof (getOutputs_empty_string_or_json
                (onSelectionChange ["unknown"]
                   (run [UpdateView MockHost.plainInputs] (init MockHost.people))))
    as (Hunknown & _).
  pose proof (getOutputs_empty_string_or_json
                (onSelectionChange ["r2"]
                   (run [UpdateView MockHost.plainInputs] (init MockHost.people))))
    as (_ & _ & _ & Hjson & _).
  split; [|split; [|split]].
  - apply Hsel. vm_compute; reflexivity.
  - apply Hlink. vm_compute; reflexivity.
  - apply Hunknown. vm_compute; reflexivity.
  - rewrite Hjson; [vm_compute; reflexivity | vm_compute; discriminate].
Defined.

End OutputsScenario.

(** * Further properties of the code *)

(** ** Column resizing *)

Section Resize.

Import CustomTable.

Lemma widthOrDefault_at_least (widths : gmap string Z) (column : string) :
  (forall c w, widths !! c = Some w -> 80 <= w) ->
  80 <= widthOrDefault widths column.
Proof.
  intros Hall. unfold widthOrDefault.
  destruct (widths !! column) as [w|] eqn:Hw; [|lia].
  specialize (Hall column w Hw). destruct (Z.eqb_spec w 0); lia.
Qed.

Lemma handleUiEvent_widths_at_least (e : UiEvent) (st : LocalState) :
  (forall c w, st.(columnWidths) !! c = Some w -> 80 <= w) ->
  forall c w, (handleUiEvent e st).(columnWidths) !! c = Some w -> 80 <= w.
Proof.
  intros Hall. destruct e as [column [|] | | op | v | | | column x | x | ];
    cbn [handleUiEvent]; try exact Hall.
  - unfold handleApplyFilter. repeat case_match; exact Hall.
  - unfold handleClearFilter. repeat case_match; exact Hall.
  - unfold handleResizeMove.
    destruct (resizingColumn st) as [column|]; [|exact Hall].
    destruct (truthy column); [|exact Hall]. cbn [columnWidths].
    intros c w Hw. destruct (decide (column = c)) as [->|Hne].
    + rewrite lookup_insert_eq in Hw. injection Hw as <-. lia.
    + rewrite lookup_insert_ne in Hw by done. by apply (Hall c).
  - unfold handleResizeEnd. case_match; exact Hall.
Qed.

(** X1. In every reachable state of the component every stored column width
    is at least 80 pixels, and so is the width every header and body cell is
    rendered with (the stored width, or 150 for a column never resized). *)
Theorem reachable_widths_at_least_80 (st : LocalState) :
  reachableLocal st ->
  (forall c w, st.(columnWidths) !! c = Some w -> 80 <= w)
  /\ (forall (props : GridProps) (column : Column),
        80 <= (renderHeaderCell props st column).(columnWidth)).
Proof.
  intros Hr.
  assert (Hall : forall c w, st.(columnWidths) !! c = Some w -> 80 <= w).
  { induction Hr as [| e st Hst IH | st Hst IH].
    - intros c w Hw.
      change (columnWidths initialLocalState) with (∅ : gmap string Z) in Hw.
      by rewrite lookup_empty in Hw.
    - by apply handleUiEvent_widths_at_least.
    - intros c w Hw.
      change (columnWidths (resetLocalState st)) with (∅ : gmap string Z) in Hw.
      by rewrite lookup_empty in Hw. }
  split; [exact Hall|].
  intros props column. cbn [renderHeaderCell columnWidth].
  by apply widthOrDefault_at_least.
Qed.

Lemma reachable_widths_at_least_80_witness :
  let dragged :=
    handleUiEvent (DocumentMouseMove (-500))
      (handleUiEvent (ResizeHandleMouseDown "Name" 300) initialLocalState) in
  dragged.(columnWidths) !! "Name" = Some 80
  /\ 80 <= widthOrDefault dragged.(columnWidths) "Age".
Proof.
  cbn zeta. split; [vm_compute; reflexivity|].
  pose proof (reachable_widths_at_least_80
                (handleUiEvent (DocumentMouseMove (-500))
                   (handleUiEvent (ResizeHandleMouseDown "Name" 300) initialLocalState)))
    as [_ Hcell].
  - apply reachable_event, reachable_event, reachable_initial.
  - apply (Hcell (TableGrid.propsOf MockHost.plainInputs (TableGrid.init MockHost.people))
                 (mkColumn "Age" "Age")).
Defined.

(** X2. A drag: after a mouse-down on the handle of a column at [x0], a
    mouse move to [x] sets the width of that column to
    [max 80 (w0 + (x - x0))], where [w0] is the width the column had at the
    mouse-down (150 if it had none), and leaves the width of every other
    column, the filters and the popup as they were. Further moves do not
    accumulate: the width depends on the last pointer position only. For a
    column whose name is the empty string nothing is resized. *)
Theorem resize_drag_sets_clamped_width (st : LocalState) (column : string) (x0 x x' : Z) :
  let started := handleResizeStart column x0 st in
  let moved := handleResizeMove x started in
  moved.(columnWidths)
    = (if truthy column
       then <[ column := Z.max 80 (widthOrDefault st.(columnWidths) column + (x - x0)) ]>
              st.(columnWidths)
       else st.(columnWidths))
  /\ moved.(columnFilters) = st.(columnFilters)
  /\ moved.(openFilterColumn) = st.(openFilterColumn)
  /\ (handleResizeMove x' moved).(columnWidths)
     = (handleResizeMove x' started).(columnWidths).
Proof.
  cbn zeta. unfold handleResizeMove, handleResizeStart. cbn.
  destruct (truthy column) eqn:Ht; cbn; rewrite ?Ht; cbn; repeat split.
  by rewrite insert_insert_eq.
Qed.

(** X3. The end of a drag: a mouse-up leaves every width as the last move
    set it and ends the session, so that later mouse moves change nothing
    until the next mouse-down. *)
Theorem resize_end_keeps_width_and_stops (st : LocalState) (x : Z) :
  let ended := handleResizeEnd st in
  ended.(columnWidths) = st.(columnWidths)
  /\ truthyOpt ended.(resizingColumn) = false
  /\ handleResizeMove x ended = ended.
Proof.
  cbn zeta. unfold handleResizeEnd.
  destruct (truthyOpt (resizingColumn st)) eqn:Ht; cbn.
  - done.
  - repeat split; [exact Ht|].
    unfold handleResizeMove. destruct (resizingColumn st) as [c|]; [|done].
    cbn in Ht. by rewrite Ht.
Qed.

End Resize.

(** ** The filter popup: apply, reopen, clear *)

Section FilterPopup.

Import CustomTable FilterSpec Gestures.

Lemma applyFilterOn_filters (column op v : string) (st : LocalState) :
  (applyFilterOn column op v st).(columnFilters)
  = if truthy column && truthy (trim v)
    then <[ column := {| columnName := column; operator := op; value := trim v |} ]>
           st.(columnFilters)
    else st.(columnFilters).
Proof.
  unfold applyFilterOn, handleApplyFilter.
  cbn [openFilterColumn tempFilterValue tempFilterOperator columnFilters
       setTempFilterValue setTempFilterOperator handleOpenFilter].
  destruct (truthy column); destruct (truthy (trim v)); reflexivity.
Qed.

Lemma handleClearFilter_filters (st : LocalState) :
  (handleClearFilter st).(columnFilters)
  = match st.(openFilterColumn) with
    | Some column => if truthy column then delete column st.(columnFilters)
                     else st.(columnFilters)
    | None => st.(columnFilters)
    end.
Proof.
  unfold handleClearFilter. destruct (openFilterColumn st) as [column|]; [|done].
  by destruct (truthy column).
Qed.

Lemma handleOpenFilter_fields (column : string) (st : LocalState) :
  (handleOpenFilter column st).(columnFilters) = st.(columnFilters)
  /\ (handleOpenFilter column st).(openFilterColumn) = Some column.
Proof. done. Qed.

(** X4. Apply, then clear: opening the popup of a column again and pressing
    Clear removes the filter of that column and no other, whatever was
    applied before; in particular, for a column that had no filter, applying
    one and clearing it gives the filter mapping back. Clear closes the
    popup and empties the pending value. *)
Theorem clear_undoes_apply (st : LocalState) (column op v : string) :
  column ≠ "" ->
  let cleared := handleClearFilter (handleOpenFilter column (applyFilterOn column op v st)) in
  cleared.(columnFilters) = delete column st.(columnFilters)
  /\ (st.(columnFilters) !! column = None -> cleared.(columnFilters) = st.(columnFilters))
  /\ (forall other, other ≠ column ->
        cleared.(columnFilters) !! other = st.(columnFilters) !! other)
  /\ cleared.(openFilterColumn) = None
  /\ cleared.(tempFilterValue) = "".
Proof.
  intros Hc. cbn zeta. apply truthy_true_iff in Hc.
  assert (Hdel : (handleClearFilter (handleOpenFilter column (applyFilterOn column op v st))).(columnFilters)
                 = delete column st.(columnFilters)).
  { rewrite handleClearFilter_filters.
    destruct (handleOpenFilter_fields column (applyFilterOn column op v st)) as [-> ->].
    rewrite Hc, applyFilterOn_filters, Hc. cbn [andb].
    destruct (truthy (trim v)); [by rewrite delete_insert_eq | done]. }
  rewrite Hdel. repeat split.
  - intros Hnone. by apply delete_id.
  - intros other Hne. by rewrite lookup_delete_ne.
Qed.

Lemma clear_undoes_apply_witness :
  let st := applyFilterOn "Age" "Equals" "41" initialLocalState in
  (handleClearFilter (handleOpenFilter "Status" (applyFilterOn "Status" "Contains" " activ" st))).(columnFilters)
  = st.(columnFilters).
Proof.
  cbn zeta.
  destruct (clear_undoes_apply (applyFilterOn "Age" "Equals" "41" initialLocalState)
              "Status" "Contains" " activ") as (_ & Hback & _).
  - discriminate.
  - apply Hback. vm_compute; reflexivity.
Defined.

(** X5. Apply, then reopen: the popup of a column that carries a filter
    opens with the stored operator and the stored (trimmed) value as pending
    input. *)
Theorem reopen_shows_stored_filter (st : LocalState) (column op v : string) :
  column ≠ "" -> op ≠ "" -> allWhiteSpace v = false ->
  let reopened := handleOpenFilter column (applyFilterOn column op v st) in
  reopened.(tempFilterOperator) = op
  /\ reopened.(tempFilterValue) = trim v
  /\ reopened.(openFilterColumn) = Some column.
Proof.
  intros Hc Hop Hv. cbn zeta. unfold handleOpenFilter.
  cbn [tempFilterOperator tempFilterValue openFilterColumn].
  rewrite applyFilterOn_filters.
  apply truthy_true_iff in Hc. apply truthy_true_iff in Hop.
  pose proof (truthy_trim_true v Hv) as Ht.
  rewrite Hc, Ht. cbn [andb]. rewrite lookup_insert_eq.
  cbn [fmap option_fmap option_map orElse operator value].
  by rewrite Hop, Ht.
Qed.

Lemma reopen_shows_stored_filter_witness :
  let reopened :=
    handleOpenFilter "Status" (applyFilterOn "Status" "Ends with" "  ive " initialLocalState) in
  reopened.(tempFilterOperator) = "Ends with" /\ reopened.(tempFilterValue) = "ive".
Proof.
  cbn zeta.
  destruct (reopen_shows_stored_filter initialLocalState "Status" "Ends with" "  ive ")
    as (Hop & Hv & _); [discriminate | discriminate | vm_compute; reflexivity |].
  split; [exact Hop | rewrite Hv; vm_compute; reflexivity].
Defined.

End FilterPopup.

(** ** The filter predicate and the pages *)

Section FilterAndPages.

Import CustomTable FilterSpec Paging.

Lemma list_filter_sublist_weaker {A : Type} (f g : A -> bool) (l : list A) :
  (forall x, f x = true -> g x = true) ->
  sublist (List.filter f l) (List.filter g l).
Proof.
  intros Hfg. induction l as [|x l IH]; simpl; [constructor|].
  destruct (f x) eqn:Hf.
  - rewrite (Hfg x Hf). by constructor.
  - destruct (g x); [by constructor | exact IH].
Qed.

(** X6. The pages partition the kept ids: for a positive page size, the
    windows of the pages 1 .. n, one after the other, are the first [n * s]
    kept ids; so with enough pages to cover them the kept sequence is
    reproduced exactly, every id once and in order. *)
Theorem pages_concatenate_to_kept_ids
    (ids : list string) (records : gmap string EntityRecord)
    (filters : gmap string ColumnFilter) (s : Z) (n : nat) :
  0 < s ->
  let pages := map (fun p => displayRecordIds ids records filters p s) (pagesUpTo n) in
  concat pages = take (n * Z.to_nat s) (filteredIds ids records filters)
  /\ (Z.of_nat (length (filteredIds ids records filters)) <= Z.of_nat n * s ->
      concat pages = filteredIds ids records filters).
Proof.
  intros Hs. cbn zeta.
  assert (Hcat : concat (map (fun p => displayRecordIds ids records filters p s) (pagesUpTo n))
                 = take (n * Z.to_nat s) (filteredIds ids records filters)).
  { unfold pagesUpTo. induction n as [|n IH]; [done|].
    rewrite seq_S, !map_app, concat_app, IH. cbn [map concat].
    rewrite app_nil_r. unfold displayRecordIds at 1.
    replace (Z.of_nat (1 + n) - 1) with (Z.of_nat n) by lia.
    rewrite slice_window by lia.
    replace (Z.to_nat (Z.of_nat n * s)) with (n * Z.to_nat s)%nat by nia.
    rewrite take_take_drop. f_equal. lia. }
  split; [exact Hcat|].
  intros Hlen. rewrite Hcat. apply take_ge. nia.
Qed.

Lemma pages_concatenate_to_kept_ids_witness :
  concat (map (fun p => displayRecordIds Samples.fiveIds ∅ ∅ p 2) (pagesUpTo 3))
  = Samples.fiveIds.
Proof.
  destruct (pages_concatenate_to_kept_ids Samples.fiveIds ∅ ∅ 2 3) as [_ Hall]; [lia|].
  rewrite Hall; [reflexivity | vm_compute; discriminate].
Defined.

(** X7. Narrowing: putting a filter on a column that had none never brings
    an id back; the ids kept under the larger mapping are a subsequence of
    the ids kept before. *)
Theorem adding_a_filter_narrows
    (ids : list string) (records : gmap string EntityRecord)
    (filters : gmap string ColumnFilter) (column : string) (f : ColumnFilter) :
  filters !! column = None ->
  sublist (filteredIds ids records (<[ column := f ]> filters))
          (filteredIds ids records filters).
Proof.
  intros Hfresh. rewrite !filteredIds_keptIds. unfold keptIds.
  rewrite decide_False by apply insert_non_empty.
  case_decide as He.
  - apply list_filter_sublist.
  - apply list_filter_sublist_weaker. intros id. unfold keepRecordId.
    destruct (records !! id) as [record|]; [|done].
    rewrite !passesAllFilters_spec. intros Hall c g Hg. apply Hall.
    rewrite lookup_insert_ne; [done|]. intros ->. congruence.
Qed.

Lemma adding_a_filter_narrows_witness :
  sublist
    (filteredIds ["A"; "B"; "C"] Samples.statusRecords
       (<[ "Status" := {| columnName := "Status"; operator := "Starts with"; value := "a" |} ]> ∅))
    (filteredIds ["A"; "B"; "C"] Samples.statusRecords ∅)
  /\ filteredIds ["A"; "B"; "C"] Samples.statusRecords
       (<[ "Status" := {| columnName := "Status"; operator := "Starts with"; value := "a" |} ]> ∅)
     = ["A"].
Proof.
  split.
  - apply (adding_a_filter_narrows ["A"; "B"; "C"] Samples.statusRecords ∅ "Status").
    vm_compute; reflexivity.
  - vm_compute; reflexivity.
Defined.

(** X8. How the operators relate, for one record, column and filter value:
    a cell that passes Equals passes Starts with and Ends with; a cell that
    passes Starts with or Ends with passes Contains; Does not contain is the
    exact complement of Contains; and an operator name the switch does not
    know gives the same answer as Contains. *)
Theorem filter_operators_relate (record : EntityRecord) (column v unknown : string) :
  let test op := filterMatches record column {| columnName := column; operator := op; value := v |} in
  (test "Equals" = true -> test "Starts with" = true /\ test "Ends with" = true)
  /\ (test "Starts with" = true -> test "Contains" = true)
  /\ (test "Ends with" = true -> test "Contains" = true)
  /\ test "Does not contain" = negb (test "Contains")
  /\ (unknown ∉ ["Contains"; "Equals"; "Starts with"; "Ends with"; "Does not contain"] ->
      test unknown = test "Contains").
Proof.
  cbn zeta. unfold filterMatches. cbn.
  set (cell := toLowerCase (stringOrEmpty (getFormattedValue record column))).
  set (w := toLowerCase v).
  split; [|split; [|split; [|split]]].
  - intros Heq. apply String.eqb_eq in Heq. rewrite Heq. split.
    + apply startsWith_spec. exists "". by rewrite app_nil_r_s.
    + apply endsWith_spec. by exists "".
  - rewrite startsWith_spec, includes_spec. intros [t ->]. by exists "", t.
  - rewrite endsWith_spec, includes_spec. intros [t ->].
    exists t, "". by rewrite app_nil_r_s.
  - reflexivity.
  - intros Hu.
    destruct (String.eqb_spec unknown "Contains") as [He|_]; [done|].
    destruct (String.eqb_spec unknown "Equals") as [He|_];
      [exfalso; apply Hu; rewrite He; apply list_elem_of_In; simpl; tauto|].
    destruct (String.eqb_spec unknown "Starts with") as [He|_];
      [exfalso; apply Hu; rewrite He; apply list_elem_of_In; simpl; tauto|].
    destruct (String.eqb_spec unknown "Ends with") as [He|_];
      [exfalso; apply Hu; rewrite He; apply list_elem_of_In; simpl; tauto|].
    destruct (String.eqb_spec unknown "Does not contain") as [He|_];
      [exfalso; apply Hu; rewrite He; apply list_elem_of_In; simpl; tauto|].
    reflexivity.
Qed.

End FilterAndPages.

(** ** The control: page counter, host loop, sort requests, link records *)

Section ControlMore.

Import TableGrid Paging.

Context {D : Type} `{DataSetApi D}.

Lemma reachable_run (events : list (Event D)) (g : State D) :
  reachable g -> reachable (run events g).
Proof.
  revert g. induction events as [|e events IH]; intros g Hg; [done|].
  cbn. apply IH. by constructor.
Qed.

Lemma ceilDiv_positive (t : Z) : 0 < t -> 1 <= ceilDiv t 10.
Proof.
  intros Ht. unfold ceilDiv.
  assert (- t / 10 < 0) by (apply Z.div_lt_upper_bound; lia). lia.
Qed.

Lemma totalPages_at_least_1 (g : State D) : g.(pageSize) = 10 -> 1 <= totalPages g.
Proof.
  intros Hps. unfold totalPages. rewrite Hps.
  destruct (Z.ltb_spec 0 (totalRecordCount g)); [by apply ceilDiv_positive | lia].
Qed.

Lemma reachable_currentPage (g : State D) : reachable g -> 1 <= g.(currentPage).
Proof.
  induction 1 as [d | e g Hg IH]; [done|].
  pose proof (reachable_pageSize g Hg) as Hps.
  destruct e as [inputs | direction | c | ids | id | d]; cbn [step]; try exact IH.
  - rewrite updateView_currentPage. destruct (refreshEdge inputs g); [done | exact IH].
  - unfold onNavigate. destruct direction.
    + case_match; [cbn; lia | exact IH].
    + destruct (Z.ltb_spec 1 (currentPage g)); [cbn; lia | exact IH].
    + case_match; [done | exact IH].
    + cbn. by apply totalPages_at_least_1.
  - destruct (onSort_currentPage c g) as [-> | ->]; [done | exact IH].
  - unfold onLinkClick. repeat case_match; exact IH.
Qed.

(** X10. In every reachable state of the control the page counter is at
    least 1 and the page size is 10, whatever the host reports and whatever
    sequence of navigation, sort, selection and refresh events happened; so
    the start index of the window the component derives is never negative. *)
Theorem reachable_page_counter (g : State D) :
  reachable g ->
  1 <= g.(currentPage)
  /\ g.(pageSize) = 10
  /\ 0 <= (g.(currentPage) - 1) * g.(pageSize)
  /\ (forall inputs, (propsOf inputs g).(CustomTable.hasPreviousPage) = false
                     <-> g.(currentPage) = 1).
Proof.
  intros Hr. pose proof (reachable_currentPage g Hr) as Hp.
  pose proof (reachable_pageSize g Hr) as Hs.
  split; [exact Hp|]. split; [exact Hs|]. split; [rewrite Hs; lia|].
  intros inputs. cbn. destruct (Z.ltb_spec 1 (currentPage g)); split; (done || lia).
Qed.

Lemma loadRemainingPages_calls (budget : nat) (d : D) :
  exists k : nat,
    (k <= budget)%nat
    /\ loadRemainingPages budget d = callTimes paging_loadNextPage k d
    /\ (paging_hasNextPage (loadRemainingPages budget d) = false \/ k = budget)
    /\ (forall j : nat, (j < k)%nat ->
          paging_hasNextPage (callTimes paging_loadNextPage j d) = true).
Proof.
  revert d. induction budget as [|budget IH]; intros d.
  - exists 0%nat. repeat split; [lia | by right | lia].
  - cbn [loadRemainingPages]. destruct (paging_hasNextPage d) eqn:Hn.
    + destruct (IH (paging_loadNextPage d)) as (k & Hk & Heq & Hend & Hall).
      exists (S k). repeat split; [lia | exact Heq | |].
      * destruct Hend as [Hend | ->]; [by left | by right].
      * intros [|j] Hj; [exact Hn | apply Hall; lia].
    + exists 0%nat. repeat split; [lia | by left | lia].
Qed.

(** X11. A "last" request calls the host's [loadNextPage] some number [k] of
    times, never more than 100: it stops as soon as the host reports no next
    page, every call before that was made while the host reported one, and
    if 100 calls did not exhaust the pages it stops all the same. *)
Theorem last_loads_at_most_100_pages (g : State D) :
  exists k : nat,
    (k <= 100)%nat
    /\ (onNavigate Last g).(dataset) = callTimes paging_loadNextPage k g.(dataset)
    /\ (paging_hasNextPage (onNavigate Last g).(dataset) = false \/ k = 100%nat)
    /\ (forall j : nat, (j < k)%nat ->
          paging_hasNextPage (callTimes paging_loadNextPage j g.(dataset)) = true).
Proof. apply (loadRemainingPages_calls 100 g.(dataset)). Qed.

Lemma find_column_None (cols : list Column) (c : string) :
  List.find (fun col => String.eqb col.(name) c) cols = None
  <-> forall col, col ∈ cols -> col.(name) ≠ c.
Proof.
  split.
  - intros Hf col Hin Heq. apply list_elem_of_In in Hin.
    pose proof (find_none _ _ Hf col Hin) as Hn. cbn in Hn.
    rewrite Heq, String.eqb_refl in Hn. discriminate.
  - intros Hall. destruct (List.find _ cols) as [col|] eqn:Hf; [|done].
    apply find_some in Hf as [Hin Heq]. apply String.eqb_eq in Heq.
    exfalso. apply (Hall col); [by apply list_elem_of_In | done].
Qed.

(** X12. A sort request for a column name the data set does not have still
    moves the sort state of the control (as the cycle prescribes) but tells
    the host nothing and leaves the page counter alone; a request for a
    column the data set has hands the host the new sorting (empty when the
    direction becomes None, else the one column with its direction), resets
    the host paging, refreshes it, and puts the page counter back to 1. *)
Theorem onSort_unknown_and_known_column (c : string) (g : State D) :
  let new := nextSort c g.(currentSortColumn) g.(currentSortDirection) in
  sortOf (onSort c g) = new
  /\ ((forall col, col ∈ ds_columns g.(dataset) -> col.(name) ≠ c) ->
      (onSort c g).(dataset) = g.(dataset)
      /\ (onSort c g).(currentPage) = g.(currentPage))
  /\ ((exists col, col ∈ ds_columns g.(dataset) /\ col.(name) = c) ->
      (onSort c g).(currentPage) = 1
      /\ (onSort c g).(dataset)
         = ds_refresh (paging_reset (ds_setSorting
             (match new.2 with
              | DirNone => []
              | dir => [ {| sortName := c; sortStatusDirection := dir |} ]
              end) g.(dataset)))).
Proof.
  cbn zeta. split; [apply onSort_sortOf|]. unfold onSort.
  destruct (nextSort c (currentSortColumn g) (currentSortDirection g)) as [col dir].
  split.
  - intros Hall. apply find_column_None in Hall. by rewrite Hall.
  - intros (col0 & Hin & Hname).
    destruct (List.find _ _) as [found|] eqn:Hf; [by destruct dir|].
    pose proof (proj1 (find_column_None _ _) Hf col0 Hin) as Hne. done.
Qed.

Lemma updateView_notifications (inputs : ViewInputs) (g : State D) :
  (updateView inputs g).1.(outputNotifications)
  = if refreshEdge inputs g then S g.(outputNotifications) else g.(outputNotifications).
Proof.
  destruct (updateView_fields inputs g) as [-> | [json ->]];
    unfold updateFields, refreshEdge; by destruct (_ && _).
Qed.

Lemma reachable_link_records (g : State D) :
  reachable g -> (length g.(selectedLinkRecords) <= 1)%nat.
Proof.
  induction 1 as [d | e g Hg IH]; [cbn; lia|].
  destruct e as [inputs | direction | c | ids | id | d]; cbn [step]; try exact IH.
  - pose proof (updateView_selection inputs g) as (_ & _ & Hl). cbn zeta in Hl.
    rewrite Hl. destruct (refreshEdge inputs g); [cbn; lia | exact IH].
  - unfold onNavigate. destruct direction; repeat case_match; exact IH.
  - unfold onSort. destruct (nextSort _ _ _) as [col dir].
    destruct (List.find _ _); exact IH.
  - unfold onLinkClick. repeat case_match; try exact IH. cbn. lia.
Qed.

(** X13. At most one link-clicked record is held in any reachable state: a
    click replaces what was held, and a click on an id that is not among the
    converted records (or before any conversion) changes nothing and does
    not notify the framework. *)
Theorem link_click_keeps_one_record (g : State D) (id : string) :
  reachable g ->
  (length g.(selectedLinkRecords) <= 1)%nat
  /\ (length (onLinkClick id g).(selectedLinkRecords) <= 1)%nat
  /\ ((forall json, g.(recordsToJson) = Some json -> findRecordObject id json = None) ->
      onLinkClick id g = g)
  /\ (forall json clicked,
        g.(recordsToJson) = Some json -> findRecordObject id json = Some clicked ->
        (onLinkClick id g).(selectedLinkRecords) = [clicked]
        /\ (onLinkClick id g).(outputNotifications) = S g.(outputNotifications)).
Proof.
  intros Hr. split; [by apply reachable_link_records|]. split.
  - apply (reachable_link_records (step (LinkClick id) g)). by constructor.
  - split.
    + intros Hnone. unfold onLinkClick.
      destruct (recordsToJson g) as [json|]; [|done]. by rewrite (Hnone json).
    + intros json clicked Hj Hf. unfold onLinkClick. by rewrite Hj, Hf.
Qed.

(** X14. The refresh signal and the outputs: on the false-to-true
    transition of the signal [updateView] leaves both outputs as the empty
    string and notifies the framework exactly once; an [updateView] without
    that transition never notifies. *)
Theorem refresh_empties_outputs (inputs : ViewInputs) (g : State D) :
  let g' := (updateView inputs g).1 in
  (refreshEdge inputs g = true ->
     getOutputs g' = {| SelectedRecordIds := ""; SelectedLinkRecords := "" |}
     /\ g'.(outputNotifications) = S g.(outputNotifications))
  /\ (refreshEdge inputs g = false ->
     g'.(outputNotifications) = g.(outputNotifications)
     /\ getOutputs g' = getOutputs g).
Proof.
  cbn zeta.
  pose proof (updateView_selection inputs g) as (_ & Hobjs & Hlinks).
  pose proof (updateView_notifications inputs g) as Hn.
  cbn zeta in Hobjs, Hlinks. unfold getOutputs.
  split; intros He; rewrite He in *; rewrite Hobjs, Hlinks, Hn; done.
Qed.

Lemma updateView_total (inputs : ViewInputs) (g : State D) :
  let g' := (updateView inputs g).1 in
  g'.(totalRecordCount) = computeTotal g' g'.(dataset)
  /\ g'.(pageSize) = g.(pageSize)
  /\ g'.(sortedRecordsIds) = ds_sortedRecordIds g'.(dataset).
Proof.
  cbn zeta.
  destruct (updateView_fields inputs g) as [-> | [json ->]];
    unfold updateFields, computeTotal;
    destruct (_ && _); cbn; repeat split; reflexivity.
Qed.

(** X15. The total stored by [updateView] in a reachable state. When the
    host reports a total (zero or more) it is stored as it is. When the host
    reports none but has a next page, the stored total is one page more than
    the pages up to the current one, so the page count is the current page
    plus one and a "last" request moves the page counter forward by exactly
    one. When the host reports none and has no next page, and between 1 and
    10 ids are loaded, the page count is the current page. *)
Theorem stored_total_and_page_count (inputs : ViewInputs) (g : State D) :
  reachable g ->
  let g' := (updateView inputs g).1 in
  let reported := paging_totalResultCount g'.(dataset) in
  let loaded := Z.of_nat (length g'.(sortedRecordsIds)) in
  (0 <= reported -> g'.(totalRecordCount) = reported)
  /\ (reported < 0 -> paging_hasNextPage g'.(dataset) = true ->
      g'.(totalRecordCount) = (g'.(currentPage) + 1) * 10
      /\ totalPages g' = g'.(currentPage) + 1
      /\ (onNavigate Last g').(currentPage) = g'.(currentPage) + 1)
  /\ (reported < 0 -> paging_hasNextPage g'.(dataset) = false ->
      1 <= loaded <= 10 ->
      totalPages g' = g'.(currentPage)).
Proof.
  intros Hr. cbn zeta.
  assert (Hr' : reachable (updateView inputs g).1)
    by (apply (reachable_step (UpdateView inputs)), Hr).
  pose proof (reachable_currentPage _ Hr') as Hp.
  pose proof (reachable_pageSize _ Hr') as Hs.
  destruct (updateView_total inputs g) as (Ht & _ & Hids). cbn zeta in Ht, Hids.
  set (g' := (updateView inputs g).1) in *.
  unfold computeTotal in Ht. rewrite Hs in Ht.
  split; [|split].
  - intros H0. rewrite Ht. by destruct (Z.leb_spec 0 (paging_totalResultCount (dataset g'))); [|lia].
  - intros Hneg Hnext. rewrite Hnext in Ht.
    destruct (Z.leb_spec 0 (paging_totalResultCount (dataset g'))); [lia|].
    assert (Hpages : totalPages g' = currentPage g' + 1).
    { unfold totalPages. rewrite Ht, Hs.
      destruct (Z.ltb_spec 0 (currentPage g' * 10 + 10)); [|lia].
      unfold ceilDiv.
      replace (- (currentPage g' * 10 + 10)) with ((- currentPage g' - 1) * 10) by lia.
      rewrite Z.div_mul by lia. lia. }
    split; [rewrite Ht; lia|]. split; [exact Hpages|].
    unfold onNavigate. cbn. exact Hpages.
  - intros Hneg Hnext Hloaded. rewrite Hnext in Ht.
    destruct (Z.leb_spec 0 (paging_totalResultCount (dataset g'))); [lia|].
    rewrite <- Hids in Ht.
    unfold totalPages. rewrite Ht, Hs.
    destruct (Z.ltb_spec 0 ((currentPage g' - 1) * 10 + Z.of_nat (length (sortedRecordsIds g'))));
      [|lia].
    unfold ceilDiv.
    assert (Hq : - ((currentPage g' - 1) * 10 + Z.of_nat (length (sortedRecordsIds g'))) / 10
                 = - currentPage g').
    { symmetry.
      apply (Z.div_unique _ 10 (- currentPage g')
               (10 - Z.of_nat (length (sortedRecordsIds g')))); lia. }
    rewrite Hq. lia.
Qed.

End ControlMore.

(** ** Record objects, selection and rendering *)

Section RecordObjects.

Import TableGrid Json RecordJson.

Lemma getProperty_replaceValue_same (k : string) (v : option string) (o : RecordObject) :
  hasKey k o = true -> getProperty k (replaceValue k v o) = v.
Proof.
  induction o as [|[k0 w] rest IH]; cbn; [done|].
  destruct (String.eqb_spec k0 k) as [->|Hne]; cbn.
  - by rewrite String.eqb_refl.
  - intros Hk. destruct (String.eqb_spec k0 k); [done|]. by apply IH.
Qed.

Lemma getProperty_replaceValue_other (k k' : string) (v : option string) (o : RecordObject) :
  k' ≠ k -> getProperty k' (replaceValue k v o) = getProperty k' o.
Proof.
  intros Hne. induction o as [|[k0 w] rest IH]; cbn; [done|].
  destruct (String.eqb_spec k0 k) as [->|Hk]; cbn.
  - by destruct (String.eqb_spec k k').
  - by rewrite IH.
Qed.

Lemma getProperty_insertIndexKey_same (n : N) (k : string) (v : option string)
    (o : RecordObject) :
  hasKey k o = false -> getProperty k (insertIndexKey n k v o) = v.
Proof.
  induction o as [|[k0 w] rest IH]; cbn.
  - by rewrite String.eqb_refl.
  - intros Hk. apply orb_false_iff in Hk as [Hk0 Hrest].
    destruct (arrayIndex k0) as [m|].
    + destruct (n <? m)%N; cbn; [by rewrite String.eqb_refl|].
      rewrite Hk0. by apply IH.
    + cbn. by rewrite String.eqb_refl.
Qed.

Lemma getProperty_insertIndexKey_other (n : N) (k k' : string) (v : option string)
    (o : RecordObject) :
  k' ≠ k -> getProperty k' (insertIndexKey n k v o) = getProperty k' o.
Proof.
  intros Hne. induction o as [|[k0 w] rest IH]; cbn.
  - by destruct (String.eqb_spec k k').
  - destruct (arrayIndex k0) as [m|].
    + destruct (n <? m)%N; cbn.
      * by destruct (String.eqb_spec k k').
      * by rewrite IH.
    + cbn. by destruct (String.eqb_spec k k').
Qed.

Lemma getProperty_app_same (k : string) (v : option string) (o : RecordObject) :
  hasKey k o = false -> getProperty k (o ++ [(k, v)]) = v.
Proof.
  induction o as [|[k0 w] rest IH]; cbn.
  - by rewrite String.eqb_refl.
  - intros Hk. apply orb_false_iff in Hk as [Hk0 Hrest]. rewrite Hk0. by apply IH.
Qed.

Lemma getProperty_app_other (k k' : string) (v : option string) (o : RecordObject) :
  k' ≠ k -> getProperty k' (o ++ [(k, v)]) = getProperty k' o.
Proof.
  intros Hne. induction o as [|[k0 w] rest IH]; cbn.
  - by destruct (String.eqb_spec k k').
  - by rewrite IH.
Qed.

(** Reading a property after writing it, and reading another one. *)
Lemma getProperty_setProperty_same (k : string) (v : option string) (o : RecordObject) :
  k ≠ protoKey -> getProperty k (setProperty k v o) = v.
Proof.
  intros Hproto. unfold setProperty.
  destruct (String.eqb_spec k protoKey) as [|_]; [done|].
  destruct (hasKey k o) eqn:Hk.
  - by apply getProperty_replaceValue_same.
  - destruct (arrayIndex k);
      [by apply getProperty_insertIndexKey_same | by apply getProperty_app_same].
Qed.

Lemma getProperty_setProperty_other (k k' : string) (v : option string) (o : RecordObject) :
  k' ≠ k -> getProperty k' (setProperty k v o) = getProperty k' o.
Proof.
  intros Hne. unfold setProperty. destruct (String.eqb k protoKey); [done|].
  destruct (hasKey k o).
  - by apply getProperty_replaceValue_other.
  - destruct (arrayIndex k);
      [by apply getProperty_insertIndexKey_other | by apply getProperty_app_other].
Qed.

(** Which own properties an object has after a write. *)
Lemma hasKey_replaceValue (k k' : string) (v : option string) (o : RecordObject) :
  hasKey k' (replaceValue k v o) = hasKey k' o.
Proof.
  induction o as [|[k0 w] rest IH]; cbn; [done|].
  destruct (String.eqb k0 k); cbn; [done|]. by rewrite IH.
Qed.

Lemma hasKey_insertIndexKey (n : N) (k k' : string) (v : option string) (o : RecordObject) :
  hasKey k' (insertIndexKey n k v o) = String.eqb k k' || hasKey k' o.
Proof.
  induction o as [|[k0 w] rest IH]; cbn; [done|].
  destruct (arrayIndex k0) as [m|]; [|done].
  destruct (n <? m)%N; cbn; [done|].
  rewrite IH. by destruct (String.eqb k0 k'), (String.eqb k k').
Qed.

Lemma hasKey_app (k k' : string) (v : option string) (o : RecordObject) :
  hasKey k' (o ++ [(k, v)]) = String.eqb k k' || hasKey k' o.
Proof.
  induction o as [|[k0 w] rest IH]; cbn; [by rewrite orb_false_r|].
  rewrite IH. by destruct (String.eqb k0 k'), (String.eqb k k').
Qed.

Lemma hasKey_setProperty_proto (k : string) (v : option string) (o : RecordObject) :
  hasKey protoKey (setProperty k v o) = hasKey protoKey o.
Proof.
  unfold setProperty. destruct (String.eqb_spec k protoKey) as [|Hne]; [done|].
  destruct (hasKey k o); [apply hasKey_replaceValue|].
  destruct (arrayIndex k); [rewrite hasKey_insertIndexKey | rewrite hasKey_app];
    by destruct (String.eqb_spec k protoKey).
Qed.

Lemma recordToJson_found (cols : list Column) (records : gmap string EntityRecord)
    (id : string) (record : EntityRecord) :
  records !! id = Some record ->
  recordToJson cols records id = Some (fillColumns record cols [("recordId", Some id)]).
Proof. intros Hrec. unfold recordToJson. by rewrite Hrec. Qed.

Lemma fillColumns_column (record : EntityRecord) (cols : list Column) (start : RecordObject)
    (col : Column) :
  col ∈ cols ->
  col.(name) ≠ protoKey ->
  getProperty col.(name) (fillColumns record cols start)
  = getFormattedValue record col.(name).
Proof.
  unfold fillColumns. revert start.
  induction cols as [|x cols IH] using rev_ind; intros start Hin Hproto;
    [by apply elem_of_nil in Hin|].
  rewrite foldl_app. cbn [foldl].
  destruct (decide (name col = name x)) as [Heq|Hne].
  - rewrite <- Heq. by apply getProperty_setProperty_same.
  - rewrite getProperty_setProperty_other by done.
    apply IH; [|done]. apply elem_of_app in Hin as [Hin|Hin]; [done|].
    apply list_elem_of_singleton in Hin. by subst.
Qed.

Lemma fillColumns_proto (record : EntityRecord) (cols : list Column) (start : RecordObject) :
  hasKey protoKey (fillColumns record cols start) = hasKey protoKey start.
Proof.
  unfold fillColumns. revert start.
  induction cols as [|x cols IH] using rev_ind; intros start; [done|].
  rewrite foldl_app. cbn [foldl]. by rewrite hasKey_setProperty_proto.
Qed.

Lemma fillColumns_other (record : EntityRecord) (cols : list Column) (start : RecordObject)
    (key : string) :
  (forall col, col ∈ cols -> col.(name) ≠ key) ->
  getProperty key (fillColumns record cols start) = getProperty key start.
Proof.
  unfold fillColumns. revert start.
  induction cols as [|x cols IH] using rev_ind; intros start Hall; [done|].
  rewrite foldl_app. cbn [foldl].
  rewrite getProperty_setProperty_other.
  - apply IH. intros col Hin. apply Hall, elem_of_app. by left.
  - intros Heq. apply (Hall x); [|done]. apply elem_of_app. right. apply list_elem_of_here.
Qed.

Lemma recordToJson_recordId (cols : list Column) (records : gmap string EntityRecord)
    (id : string) (obj : RecordObject) :
  (forall col, col ∈ cols -> col.(name) ≠ "recordId") ->
  recordToJson cols records id = Some obj ->
  getProperty "recordId" obj = Some id.
Proof.
  intros Hno. destruct (records !! id) as [record|] eqn:Hrec.
  - rewrite (recordToJson_found cols records id record Hrec). intros [= <-].
    by rewrite (fillColumns_other record cols _ "recordId" Hno).
  - unfold recordToJson. rewrite Hrec. destruct cols; [by intros [= <-] | done].
Qed.

(** X16. The object built for an id that has a record: for every column of
    the data set whose name is not "__proto__" it carries, under the
    column's name, the formatted value of the record (also when two columns
    share a name); a column named "__proto__" leaves no property of that
    name on the object; and unless a column is itself named "recordId" (it
    would overwrite it), its "recordId" is the id. *)
Theorem recordToJson_carries_columns (cols : list Column)
    (records : gmap string EntityRecord) (id : string) (record : EntityRecord) :
  records !! id = Some record ->
  exists obj,
    recordToJson cols records id = Some obj
    /\ (forall col, col ∈ cols -> col.(name) ≠ protoKey ->
          getProperty col.(name) obj = getFormattedValue record col.(name))
    /\ hasKey protoKey obj = false
    /\ ((forall col, col ∈ cols -> col.(name) ≠ "recordId") ->
        getProperty "recordId" obj = Some id).
Proof.
  intros Hrec. rewrite (recordToJson_found cols records id record Hrec).
  eexists. split; [done|]. split; [|split].
  - intros col Hin Hproto. by apply (fillColumns_column record cols).
  - by rewrite fillColumns_proto.
  - intros Hno. by rewrite (fillColumns_other record cols _ "recordId" Hno).
Qed.

Lemma recordToJson_carries_columns_witness :
  exists obj,
    recordToJson MockHost.people.(MockHost.columns) MockHost.people.(MockHost.records) "r2"
      = Some obj
    /\ getProperty "Name" obj = Some "Bob"
    /\ hasKey protoKey obj = false
    /\ getProperty "recordId" obj = Some "r2".
Proof.
  destruct (recordToJson_carries_columns MockHost.people.(MockHost.columns)
              MockHost.people.(MockHost.records) "r2"
              (Samples.recordOf {[ "Name" := "Bob"; "Age" := "41"; "Status" := "pending" ]}))
    as (obj & Hobj & Hcols & Hproto & Hid); [vm_compute; reflexivity|].
  exists obj. split; [exact Hobj|]. split; [|split; [exact Hproto|]].
  - change (getProperty (name (mkColumn "Name" "Name")) obj = Some "Bob").
    rewrite (Hcols (mkColumn "Name" "Name")); [vm_compute; reflexivity| |discriminate].
    apply list_elem_of_here.
  - apply Hid. intros col Hin. apply list_elem_of_In in Hin. cbn in Hin.
    destruct Hin as [<- | [<- | [<- | []]]]; discriminate.
Defined.

End RecordObjects.

Section SelectionAndRender.

Import TableGrid Json RecordJson.

Context {D : Type} `{DataSetApi D}.

Lemma findRecordObject_in_json (cols : list Column) (records : gmap string EntityRecord)
    (ids : list string) (json : list RecordObject) (id : string) :
  (forall col, col ∈ cols -> col.(name) ≠ "recordId") ->
  Forall2 (fun i obj => recordToJson cols records i = Some obj) ids json ->
  id ∈ ids ->
  exists obj, findRecordObject id json = Some obj
              /\ recordToJson cols records id = Some obj.
Proof.
  intros Hno Hall Hin. induction Hall as [|i obj ids json Hi Hrest IH];
    [by apply elem_of_nil in Hin|].
  pose proof (recordToJson_recordId cols records i obj Hno Hi) as Hrid.
  unfold findRecordObject. cbn [List.find]. rewrite Hrid.
  destruct (decide (i = id)) as [->|Hne].
  - rewrite bool_decide_eq_true_2 by done. by exists obj.
  - rewrite bool_decide_eq_false_2 by congruence.
    apply elem_of_cons in Hin as [Heq|Hin]; [congruence|]. by apply IH.
Qed.

Lemma selected_objects (cols : list Column) (records : gmap string EntityRecord)
    (ids : list string) (json : list RecordObject) (selectedIds : list string) :
  (forall col, col ∈ cols -> col.(name) ≠ "recordId") ->
  Forall2 (fun i obj => recordToJson cols records i = Some obj) ids json ->
  (forall id, id ∈ selectedIds -> id ∈ ids) ->
  mapM (recordToJson cols records) selectedIds
  = Some (omap (fun id => findRecordObject id json) selectedIds).
Proof.
  intros Hno Hall Hsub. apply mapM_Some.
  induction selectedIds as [|id sel IH]; [constructor|].
  destruct (findRecordObject_in_json cols records ids json id Hno Hall) as (obj & Hf & Ho).
  { apply Hsub, list_elem_of_here. }
  cbn [omap list_omap]. rewrite Hf. constructor; [exact Ho|].
  apply IH. intros i Hi. apply Hsub. by apply list_elem_of_further.
Qed.

Lemma mapped_all_defined {A B : Type} (f : A -> option B) (l : list A) (k : list B) (x : A) :
  Forall2 (fun a b => f a = Some b) l k -> x ∈ l -> is_Some (f x).
Proof.
  intros Hall Hin. induction Hall as [|a b l k Hab _ IH]; [by apply elem_of_nil in Hin|].
  apply elem_of_cons in Hin as [->|Hin]; [by eexists | by apply IH].
Qed.

Lemma updateView_json (inputs : ViewInputs) (g : State D) (props : CustomTable.GridProps) :
  (updateView inputs g).2 = Some props ->
  let g' := (updateView inputs g).1 in
  exists json,
    g'.(recordsToJson) = Some json
    /\ mapM (recordToJson (ds_columns g'.(dataset)) g'.(records)) g'.(sortedRecordsIds)
       = Some json
    /\ props = propsOf inputs g'.
Proof.
  unfold updateView.
  destruct (convertRecordsToJson (updateFields inputs g)) as [json|] eqn:Hc; [|done].
  cbn. intros [= <-]. exists json. by repeat split.
Qed.

(** X17. Selecting after a successful [updateView]: when no column is named
    "recordId" and every selected id is among the loaded ids, the selected
    record objects are exactly the objects built for the selected ids, one
    per id and in the order of the selection; the ids are stored as given
    and the framework is notified once. *)
Theorem selection_yields_objects_of_selected_ids
    (inputs : ViewInputs) (g : State D) (selectedIds : list string) :
  let g' := (updateView inputs g).1 in
  let selected := onSelectionChange selectedIds g' in
  is_Some (updateView inputs g).2 ->
  (forall col, col ∈ ds_columns g'.(dataset) -> col.(name) ≠ "recordId") ->
  (forall id, id ∈ selectedIds -> id ∈ g'.(sortedRecordsIds)) ->
  mapM (recordToJson (ds_columns g'.(dataset)) g'.(records)) selectedIds
    = Some selected.(selectedRecordObjects)
  /\ length selected.(selectedRecordObjects) = length selectedIds
  /\ selected.(selectedRecordIds) = selectedIds
  /\ selected.(outputNotifications) = S g'.(outputNotifications).
Proof.
  cbn zeta. intros [props Hprops] Hno Hsub.
  destruct (updateView_json inputs g props Hprops) as (json & Hjson & Hmap & _).
  apply mapM_Some in Hmap.
  pose proof (selected_objects _ _ _ _ selectedIds Hno Hmap Hsub) as Hsel.
  assert (Hobjs : (onSelectionChange selectedIds (updateView inputs g).1).(selectedRecordObjects)
                  = omap (fun id => findRecordObject id json) selectedIds).
  { unfold onSelectionChange. cbn. rewrite Hjson.
    case_bool_decide as He; [by subst | done]. }
  rewrite Hobjs. split; [exact Hsel|]. split; [|done].
  apply mapM_Some in Hsel. symmetry. by eapply Forall2_length.
Qed.

(** X18. Whenever [updateView] gets as far as rendering, the component
    function does not throw on the props it is given, whatever its own
    state: the unguarded reads of the [recordsJson] memo are safe because
    the control has just made the same reads in [convertRecordsToJson]. *)
Theorem rendered_props_never_throw
    (inputs : ViewInputs) (g : State D) (props : CustomTable.GridProps)
    (st : CustomTable.LocalState) :
  (updateView inputs g).2 = Some props ->
  CustomTable.recordsJsonThrows props = false
  /\ is_Some (CustomTable.renderView props st).
Proof.
  intros Hprops.
  destruct (updateView_json inputs g props Hprops) as (json & _ & Hmap & ->).
  set (g' := (updateView inputs g).1) in *.
  assert (Hno : CustomTable.recordsJsonThrows (propsOf inputs g') = false).
  { unfold CustomTable.recordsJsonThrows. cbn.
    destruct (ds_columns (dataset g')) as [|col cols] eqn:Hcols.
    { rewrite bool_decide_eq_true_2 by done. apply andb_false_r. }
    apply andb_false_iff. left.
    apply not_true_iff_false. intros Hex. apply existsb_exists in Hex as (id & Hin & Hmiss).
    apply mapM_Some in Hmap. apply list_elem_of_In in Hin.
    destruct (mapped_all_defined _ _ _ id Hmap Hin) as [obj Hobj].
    unfold recordToJson in Hobj.
    destruct (records g' !! id); [|done].
    rewrite bool_decide_eq_true_2 in Hmiss by (by eexists). done. }
  split; [exact Hno|]. unfold CustomTable.renderView. rewrite Hno. by eexists.
Qed.

End SelectionAndRender.

(** ** The sort buttons of the popup and the header texts *)

Section SortButtons.

Import TableGrid CustomTable App HeaderPopup.

Context {D : Type} `{DataSetApi D}.

Lemma sortAToZClick_sortOf (props : GridProps) (c : string) (w : World D) :
  sortOf (sortAToZClick props c w).(grid)
  = let s1 := nextSort c (sortOf w.(grid)).1 (sortOf w.(grid)).2 in
    if negb (bool_decide (props.(sortColumn) = Some c))
       || negb (bool_decide (props.(sortDirection) = Ascending))
    then nextSort c s1.1 s1.2
    else s1.
Proof.
  unfold sortAToZClick. cbn [grid].
  destruct (negb _ || negb _); by rewrite ?onSort_sortOf_pair.
Qed.

Lemma sortZToAClick_sortOf (props : GridProps) (c : string) (w : World D) :
  let '(w', pending) := sortZToAClick props c w in
  sortOf (runTimers pending w').(grid)
  = let s1 := nextSort c (sortOf w.(grid)).1 (sortOf w.(grid)).2 in
    if bool_decide (props.(sortColumn) = Some c)
       && bool_decide (props.(sortDirection) = Ascending)
    then s1
    else if negb (bool_decide (props.(sortColumn) = Some c))
    then nextSort c s1.1 s1.2
    else sortOf w.(grid).
Proof.
  unfold sortZToAClick.
  destruct (bool_decide _ && bool_decide _).
  - cbn. apply onSort_sortOf_pair.
  - destruct (negb _); cbn; [|done]. by rewrite !onSort_sortOf_pair.
Qed.

Lemma propsOf_shows_sort (inputs : ViewInputs) (g : State D) :
  propsShowSort (propsOf inputs g) g.
Proof. by split. Qed.

(** X19. The button "Sort A to Z" of a column's popup, pressed when the
    props on screen show the sort state of the control: it leaves the column
    sorted ascending only if the column was sorted descending before; from
    every other state (unsorted, sorted on another column, or already
    ascending on this column) it leaves the column sorted descending. The
    popup is closed and the filters are untouched. *)
Theorem sort_a_to_z_button (props : GridProps) (c : string) (w : World D) :
  reachable w.(grid) ->
  propsShowSort props w.(grid) ->
  let w' := sortAToZClick props c w in
  sortOf w'.(grid)
    = (if decide (sortOf w.(grid) = (Some c, Descending))
       then (Some c, Ascending)
       else (Some c, Descending))
  /\ w'.(table).(localState).(openFilterColumn) = None
  /\ w'.(table).(localState).(columnFilters) = w.(table).(localState).(columnFilters).
Proof.
  intros Hr [Hcol Hdir]. cbn zeta. split; [|done].
  rewrite sortAToZClick_sortOf, Hcol, Hdir.
  pose proof (reachable_sortAllowed _ Hr) as Hal.
  unfold sortOf in *. cbn [fst snd] in *.
  destruct (currentSortColumn (grid w)) as [col|];
    destruct (currentSortDirection (grid w)); cbn in Hal; try done;
    unfold nextSort; cbn [fst snd];
    repeat (case_bool_decide; simplify_eq; cbn [fst snd negb orb andb]);
    repeat (case_decide; simplify_eq); done.
Qed.

(** X20. The button "Sort Z to A", under the same condition and once the
    call it leaves to a timer has been made with nothing else in between:
    the column is sorted descending, from whatever state it started. The
    second call is needed, and scheduled, exactly when the column was not
    the sort column. *)
Theorem sort_z_to_a_button (props : GridProps) (c : string) (w : World D) :
  reachable w.(grid) ->
  propsShowSort props w.(grid) ->
  let clicked := sortZToAClick props c w in
  sortOf (runTimers clicked.2 clicked.1).(grid) = (Some c, Descending)
  /\ (clicked.2 = [] <-> w.(grid).(currentSortColumn) = Some c)
  /\ (w.(grid).(currentSortColumn) ≠ Some c ->
      clicked.2 = [Sort c] /\ sortOf clicked.1.(grid) = (Some c, Ascending)).
Proof.
  intros Hr [Hcol Hdir]. cbn zeta.
  pose proof (reachable_sortAllowed _ Hr) as Hal. unfold sortOf in Hal.
  unfold sortZToAClick. rewrite Hcol, Hdir.
  destruct (decide (currentSortColumn (grid w) = Some c)) as [Hc|Hc].
  - rewrite (bool_decide_eq_true_2 _ Hc). cbn [andb negb].
    destruct (currentSortDirection (grid w)) eqn:Hd.
    + rewrite Hc in Hal. done.
    + rewrite bool_decide_eq_true_2 by done. cbn [fst snd runTimers run foldl grid].
      rewrite onSort_sortOf, Hc, Hd, nextSort_same. done.
    + rewrite bool_decide_eq_false_2 by done. cbn [fst snd runTimers run foldl grid].
      unfold sortOf. rewrite Hc, Hd. done.
  - rewrite (bool_decide_eq_false_2 _ Hc). cbn [andb negb fst snd].
    split; [|split].
    + cbn [runTimers run foldl grid step].
      rewrite onSort_sortOf_pair, onSort_sortOf_pair. cbn [sortOf fst snd].
      rewrite (nextSort_other c _ _ Hc). cbn [fst snd]. apply nextSort_same.
    + split; [done | by intros].
    + intros _. split; [done|]. cbn [grid].
      rewrite onSort_sortOf. by apply nextSort_other.
Qed.

End SortButtons.

Section HeaderTexts.

Import CustomTable HeaderPopup OtherCase.

Lemma toUpperChar_idem (c : ascii) : toUpperChar (toUpperChar c) = toUpperChar c.
Proof. destruct c as [[] [] [] [] [] [] [] []]; reflexivity. Qed.

Lemma toLowerChar_toUpperChar (c : ascii) : toLowerChar (toUpperChar c) = toLowerChar c.
Proof. destruct c as [[] [] [] [] [] [] [] []]; reflexivity. Qed.

Lemma toLowerCase_toUpperCase (s : string) : toLowerCase (toUpperCase s) = toLowerCase s.
Proof.
  induction s as [|c s IH]; [done|]. cbn. by rewrite toLowerChar_toUpperChar, IH.
Qed.

Lemma truthy_toUpperCase (s : string) : truthy (toUpperCase s) = truthy s.
Proof. by destruct s. Qed.

Lemma isAsciiUnit_toUpperChar (c : ascii) : isAsciiUnit (toUpperChar c) = isAsciiUnit c.
Proof. destruct c as [[] [] [] [] [] [] [] []]; reflexivity. Qed.

(** X21. On a text that is empty or starts with an ASCII character,
    [capitalizeFirstLetter] returns a text and changes at most the case of
    that character: the result keeps the length and everything after the
    first character, it is equal to the original up to case, it starts
    with an ASCII character again and capitalizing it once more returns it
    unchanged; the empty text stays empty. *)
Theorem capitalizeFirstLetter_only_first_letter (text : string) :
  startsInAscii text = true ->
  exists result,
    capitalizeFirstLetter text = Some result
    /\ capitalizeFirstLetter result = Some result
    /\ String.length result = String.length text
    /\ dropChars 1 result = dropChars 1 text
    /\ toLowerCase result = toLowerCase text
    /\ (result = "" <-> text = "").
Proof.
  destruct text as [|c rest]; cbn [startsInAscii]; intros Hascii.
  - by exists "".
  - exists (String (toUpperChar c) rest).
    cbn [capitalizeFirstLetter String.length dropChars toLowerCase].
    rewrite isAsciiUnit_toUpperChar, Hascii, toUpperChar_idem, toLowerChar_toUpperChar.
    done.
Qed.

Lemma capitalizeFirstLetter_only_first_letter_witness :
  startsInAscii "status" = true
  /\ exists result,
       capitalizeFirstLetter "status" = Some result
       /\ capitalizeFirstLetter result = Some result
       /\ String.length result = String.length "status"
       /\ dropChars 1 result = dropChars 1 "status"
       /\ toLowerCase result = toLowerCase "status"
       /\ (result = "" <-> "status" = "").
Proof.
  split; [reflexivity|].
  apply (capitalizeFirstLetter_only_first_letter "status"). reflexivity.
Defined.

(** X9. The filter is blind to case on both sides: writing the filter value
    in upper case, or the cells of the record in upper case, changes the
    answer of no operator. *)
Theorem filter_ignores_case (record : EntityRecord) (column : string) (f : ColumnFilter) :
  filterMatches record column
    {| columnName := f.(columnName); operator := f.(operator);
       value := toUpperCase f.(value) |}
  = filterMatches record column f
  /\ filterMatches (upperRecord record) column f = filterMatches record column f.
Proof.
  unfold filterMatches. cbn [value operator getFormattedValue upperRecord].
  rewrite toLowerCase_toUpperCase. split; [done|].
  assert (Hcell : toLowerCase (stringOrEmpty (toUpperCase <$> getFormattedValue record column))
                  = toLowerCase (stringOrEmpty (getFormattedValue record column))).
  { destruct (getFormattedValue record column) as [s|]; [|done]. cbn.
    rewrite truthy_toUpperCase. destruct (truthy s); [apply toLowerCase_toUpperCase | done]. }
  by rewrite Hcell.
Qed.

Lemma header_marks_at_most_one (mark : HeaderCell -> bool) (render : Column -> HeaderCell)
    (target : option string) (cols : list Column) :
  (forall col, mark (render col) = bool_decide (target = Some col.(name))) ->
  NoDup (map name cols) ->
  (length (List.filter mark (map render cols)) <= 1)%nat.
Proof.
  intros Hmark Hnd. induction cols as [|col cols IH]; [cbn; lia|].
  cbn [map] in Hnd. apply NoDup_cons in Hnd as [Hnot Hnd].
  cbn [map List.filter]. rewrite Hmark. case_bool_decide as Ht; [|by apply IH].
  assert (Hnone : List.filter mark (map render cols) = []).
  { clear IH Hnd. induction cols as [|c2 cols IH2]; [done|].
    cbn [map List.filter]. rewrite Hmark.
    rewrite bool_decide_eq_false_2.
    - apply IH2. intros Hin. apply Hnot. cbn. by apply list_elem_of_further.
    - intros Heq. apply Hnot. cbn. rewrite Ht in Heq. injection Heq as ->.
      apply list_elem_of_here. }
  rewrite Hnone. cbn. lia.
Qed.

(** X22. When the columns of the data set have distinct names, a rendered
    view has one header cell per column, in order, and among them at most
    one carries the sort mark and at most one has its filter popup open:
    opening the popup of another column closes the one that was open. *)
Theorem header_has_at_most_one_mark (props : GridProps) (st : LocalState) (v : View) :
  NoDup (map name props.(columns)) ->
  renderView props st = Some v ->
  map headerColumn v.(header) = map name props.(columns)
  /\ (length (List.filter isSorted v.(header)) <= 1)%nat
  /\ (length (List.filter popupOpen v.(header)) <= 1)%nat.
Proof.
  intros Hnd Hv. unfold renderView in Hv.
  destruct (recordsJsonThrows props); [done|]. injection Hv as <-. cbn [header].
  split; [|split].
  - rewrite map_map. by apply map_ext.
  - by apply (header_marks_at_most_one isSorted _ props.(sortColumn)).
  - by apply (header_marks_at_most_one popupOpen _ st.(openFilterColumn)).
Qed.

End HeaderTexts.

(** ** The status table *)

Section StatusTable.

Import StatusUtils StatusValues.

Lemma getProperty_own (category : StatusCategory) (key : string) (style : StatusStyle) :
  getProperty category key = Some (OwnStyle style) -> (key, style) ∈ category.
Proof.
  unfold getProperty. destruct (ownProperty category key) as [s|] eqn:Hown.
  - intros [= <-]. by apply ownProperty_Some.
  - by destruct (existsb _ _).
Qed.

Lemma searchCategories_sound (categories : list StatusCategory) (n : string)
    (style : StatusStyle) :
  searchCategories categories n = Some (OwnStyle style) ->
  exists category key,
    category ∈ categories /\ (key, style) ∈ category
    /\ toLowerCase key = toLowerCase n.
Proof.
  induction categories as [|category rest IH]; cbn; [done|].
  assert (Hrest : searchCategories rest n = Some (OwnStyle style) ->
                  exists category0 key, category0 ∈ category :: rest
                    /\ (key, style) ∈ category0 /\ toLowerCase key = toLowerCase n).
  { intros Hr. destruct (IH Hr) as (c0 & key & Hin & Hk & Hl).
    exists c0, key. split; [by apply list_elem_of_further | done]. }
  destruct (getProperty category n) as [found|] eqn:Hexact.
  - intros [= ->]. exists category, n.
    split; [apply list_elem_of_here|]. split; [by apply getProperty_own | done].
  - destruct (findKeyIgnoringCase category n) as [statusKey|] eqn:Hfind; [|exact Hrest].
    destruct (truthy statusKey); [|exact Hrest].
    intros Hown. apply find_some in Hfind as [_ Heq]. apply String.eqb_eq in Heq.
    exists category, statusKey.
    split; [apply list_elem_of_here|]. split; [by apply getProperty_own | done].
Qed.

(** X23. A style returned by the lookup is the style of an entry of the
    table: whenever [getStatusStyle] answers with a style object of the
    table, some category has an entry with that style whose key equals the
    trimmed cell value up to case. *)
Theorem getStatusStyle_returns_a_table_entry (statusValue : string) (style : StatusStyle) :
  getStatusStyle statusValue = Some (OwnStyle style) ->
  exists (categoryName : string) (category : StatusCategory) (key : string),
    (categoryName, category) ∈ STATUS_DEFINITIONS
    /\ (key, style) ∈ category
    /\ toLowerCase key = toLowerCase (trim statusValue).
Proof.
  unfold getStatusStyle. destruct (negb (truthy statusValue)); [done|].
  intros Hs. apply searchCategories_sound in Hs as (category & key & Hin & Hk & Hl).
  apply list_elem_of_fmap in Hin as ([cname cat] & -> & Hin).
  by exists cname, cat, key.
Qed.

Lemma getStatusStyle_returns_a_table_entry_witness :
  exists (categoryName : string) (category : StatusCategory) (key : string),
    (categoryName, category) ∈ STATUS_DEFINITIONS
    /\ (key, mkStatusStyle "⟳") ∈ category
    /\ toLowerCase key = "in progress".
Proof.
  destruct (getStatusStyle_returns_a_table_entry "  IN PROGRESS " (mkStatusStyle "⟳"))
    as (cname & cat & key & Hin & Hk & Hl); [vm_compute; reflexivity|].
  exists cname, cat, key. split; [exact Hin|]. split; [exact Hk|].
  rewrite Hl. vm_compute; reflexivity.
Defined.

(** X24. Every value listed by [getAllStatusValues] is classified, and with
    the style it has in the first category of the table that lists it: for a
    value that several categories list (Active, Pending, Cancelled) the
    entries of the later categories are never returned. *)
Theorem listed_values_get_first_category_style (v : string) :
  v ∈ getAllStatusValues ->
  exists style,
    getStatusStyle v = Some (OwnStyle style)
    /\ firstOwnStyle (map snd STATUS_DEFINITIONS) v = Some style.
Proof.
  intros Hin.
  assert (Hall : Forall (fun v => exists style,
                    getStatusStyle v = Some (OwnStyle style)
                    /\ firstOwnStyle (map snd STATUS_DEFINITIONS) v = Some style)
                  getAllStatusValues).
  { vm_compute getAllStatusValues.
    repeat (constructor; [eexists; split; vm_compute; reflexivity|]). constructor. }
  rewrite Forall_forall in Hall. by apply Hall.
Qed.

Lemma listed_values_get_first_category_style_witness :
  getStatusStyle "Pending" = Some (OwnStyle (mkStatusStyle "⏸"))
  /\ ownProperty
       (default [] (snd <$> List.find (fun c => String.eqb c.1 "paymentStatus") STATUS_DEFINITIONS))
       "Pending" = Some (mkStatusStyle "⏳").
Proof.
  destruct (listed_values_get_first_category_style "Pending") as (style & Hs & Hfirst).
  - vm_compute. do 13 apply list_elem_of_further. apply list_elem_of_here.
  - split; [|vm_compute; reflexivity].
    rewrite Hs. vm_compute in Hfirst. injection Hfirst as <-. reflexivity.
Defined.

End StatusTable.

(** ** The further properties on the sample host *)

Section MoreScenarios.

Import TableGrid CustomTable App HeaderPopup.

Lemma reachable_page_counter_witness :
  let g := run [UpdateView MockHost.plainInputs; Navigate Previous; Navigate Last;
                Navigate Previous; Navigate Previous; Navigate Previous]
               (init MockHost.people) in
  g.(TableGrid.currentPage) = 1 /\ 1 <= g.(TableGrid.currentPage) /\ g.(pageSize) = 10.
Proof.
  cbn zeta.
  destruct (reachable_page_counter
              (run [UpdateView MockHost.plainInputs; Navigate Previous; Navigate Last;
                    Navigate Previous; Navigate Previous; Navigate Previous]
                   (init MockHost.people)))
    as (Hp & Hs & _).
  - apply reachable_run, reachable_init.
  - split; [vm_compute; reflexivity|]. split; [exact Hp | exact Hs].
Defined.

Lemma link_click_keeps_one_record_witness :
  let g := run [UpdateView MockHost.plainInputs; LinkClick "r1"; LinkClick "r3"]
               (init MockHost.people) in
  (length (onLinkClick "r2" g).(selectedLinkRecords) <= 1)%nat
  /\ onLinkClick "nobody" g = g.
Proof.
  cbn zeta.
  destruct (link_click_keeps_one_record
              (run [UpdateView MockHost.plainInputs; LinkClick "r1"; LinkClick "r3"]
                   (init MockHost.people)) "r2") as (_ & Hone & _).
  { apply reachable_run, reachable_init. }
  split; [exact Hone | vm_compute; reflexivity].
Defined.

Lemma stored_total_and_page_count_witness :
  let g' := (updateView MockHost.plainInputs (init MoreSamples.peopleUnknownTotal)).1 in
  totalPages g' = 2 /\ (onNavigate Last g').(TableGrid.currentPage) = 2.
Proof.
  cbn zeta.
  destruct (stored_total_and_page_count MockHost.plainInputs
              (init MoreSamples.peopleUnknownTotal)) as (_ & Hnext & _).
  { apply reachable_init. }
  destruct Hnext as (_ & Hpages & Hlast);
    [vm_compute; reflexivity | vm_compute; reflexivity |].
  split; [rewrite Hpages | rewrite Hlast]; vm_compute; reflexivity.
Defined.

Lemma selection_yields_objects_of_selected_ids_witness :
  let g' := (updateView MockHost.plainInputs (init MockHost.people)).1 in
  map (Json.getProperty "Name") (onSelectionChange ["r3"; "r1"] g').(selectedRecordObjects)
  = [Some "Cy"; Some "Ada"]
  /\ length (onSelectionChange ["r3"; "r1"] g').(selectedRecordObjects) = 2%nat.
Proof.
  cbn zeta.
  destruct (selection_yields_objects_of_selected_ids MockHost.plainInputs
              (init MockHost.people) ["r3"; "r1"]) as (_ & Hlen & _).
  - vm_compute. by eexists.
  - intros col Hin. vm_compute in Hin. apply list_elem_of_In in Hin. cbn in Hin.
    destruct Hin as [<- | [<- | [<- | []]]]; discriminate.
  - intros id Hin. apply list_elem_of_In in Hin. cbn in Hin.
    destruct Hin as [<- | [<- | []]]; vm_compute.
    + do 2 apply list_elem_of_further. apply list_elem_of_here.
    + apply list_elem_of_here.
  - split; [vm_compute; reflexivity | exact Hlen].
Defined.

Lemma rendered_props_never_throw_witness :
  let props := propsOf MockHost.plainInputs
                 (updateView MockHost.plainInputs (init MockHost.people)).1 in
  recordsJsonThrows props = false
  /\ (summary <$> renderView props initialLocalState)
     = Some (["r1"; "r2"; "r3"], [], []).
Proof.
  cbn zeta.
  destruct (rendered_props_never_throw MockHost.plainInputs (init MockHost.people)
              (propsOf MockHost.plainInputs
                 (updateView MockHost.plainInputs (init MockHost.people)).1)
              initialLocalState) as [Hno _].
  - vm_compute; reflexivity.
  - split; [exact Hno | vm_compute; reflexivity].
Defined.

Lemma sortedByName_reachable : reachable MoreSamples.sortedByName.(grid).
Proof. unfold MoreSamples.sortedByName. cbn [grid]. apply reachable_run, reachable_init. Qed.

Lemma sort_a_to_z_button_witness :
  let w := MoreSamples.sortedByName in
  let props := propsOf MockHost.plainInputs w.(grid) in
  sortOf w.(grid) = (Some "Name", Ascending)
  /\ sortOf (sortAToZClick props "Name" w).(grid) = (Some "Name", Descending)
  /\ sortOf (sortAToZClick props "Age" w).(grid) = (Some "Age", Descending).
Proof.
  cbn zeta. split; [vm_compute; reflexivity|]. split.
  - destruct (sort_a_to_z_button
                (propsOf MockHost.plainInputs MoreSamples.sortedByName.(grid)) "Name"
                MoreSamples.sortedByName sortedByName_reachable
                (propsOf_shows_sort _ _)) as (Hs & _).
    rewrite Hs. vm_compute; reflexivity.
  - destruct (sort_a_to_z_button
                (propsOf MockHost.plainInputs MoreSamples.sortedByName.(grid)) "Age"
                MoreSamples.sortedByName sortedByName_reachable
                (propsOf_shows_sort _ _)) as (Hs & _).
    rewrite Hs. vm_compute; reflexivity.
Defined.

Lemma sort_z_to_a_button_witness :
  let w := MoreSamples.sortedByName in
  let props := propsOf MockHost.plainInputs w.(grid) in
  let clicked := sortZToAClick props "Age" w in
  clicked.2 = [Sort "Age"]
  /\ sortOf clicked.1.(grid) = (Some "Age", Ascending)
  /\ sortOf (runTimers clicked.2 clicked.1).(grid) = (Some "Age", Descending).
Proof.
  cbn zeta.
  destruct (sort_z_to_a_button
              (propsOf MockHost.plainInputs MoreSamples.sortedByName.(grid)) "Age"
              MoreSamples.sortedByName sortedByName_reachable
              (propsOf_shows_sort _ _)) as (Hfinal & _ & Hother).
  destruct Hother as [Hpending Hfirst]; [vm_compute; discriminate|].
  split; [exact Hpending|]. split; [exact Hfirst | exact Hfinal].
Defined.

Lemma header_has_at_most_one_mark_witness :
  let props := propsOf MockHost.plainInputs MoreSamples.sortedByName.(grid) in
  let st := handleOpenFilter "Age" initialLocalState in
  exists v,
    renderView props st = Some v
    /\ map headerColumn (List.filter popupOpen v.(header)) = ["Age"]
    /\ (length (List.filter isSorted v.(header)) <= 1)%nat.
Proof.
  cbn zeta.
  destruct (renderView (propsOf MockHost.plainInputs MoreSamples.sortedByName.(grid))
              (handleOpenFilter "Age" initialLocalState))
    as [v|] eqn:Hv; [|vm_compute in Hv; discriminate].
  exists v. split; [done|].
  destruct (header_has_at_most_one_mark
              (propsOf MockHost.plainInputs MoreSamples.sortedByName.(grid))
              (handleOpenFilter "Age" initialLocalState) v) as (_ & Hsorted & _).
  - vm_compute. repeat constructor; intros Hin; apply list_elem_of_In in Hin; cbn in Hin;
      intuition discriminate.
  - exact Hv.
  - split; [|exact Hsorted].
    vm_compute in Hv. injection Hv as <-. vm_compute; reflexivity.
Defined.

End MoreScenarios.

(** ** The refresh signal, from the control to the screen *)

Section RefreshOnScreen.

Import TableGrid CustomTable App.

Context {D : Type} `{DataSetApi D}.

Lemma updateView_props (inputs : ViewInputs) (g : State D) (props : GridProps) :
  (updateView inputs g).2 = Some props ->
  props = propsOf inputs (updateView inputs g).1
  /\ forall st, is_Some (renderView props st).
Proof.
  intros Hprops.
  destruct (updateView_json inputs g props Hprops) as (json & _ & Hmap & ->).
  split; [done|]. intros st.
  set (g' := (updateView inputs g).1) in *.
  assert (Hno : recordsJsonThrows (propsOf inputs g') = false).
  { unfold recordsJsonThrows. cbn.
    destruct (ds_columns (dataset g')) as [|col cols] eqn:Hcols.
    { rewrite bool_decide_eq_true_2 by done. apply andb_false_r. }
    apply andb_false_iff. left.
    apply not_true_iff_false. intros Hex. apply existsb_exists in Hex as (id & Hin & Hmiss).
    apply mapM_Some in Hmap. apply list_elem_of_In in Hin.
    destruct (mapped_all_defined _ _ _ id Hmap Hin) as [obj Hobj].
    unfold recordToJson in Hobj.
    destruct (TableGrid.records g' !! id); [|done].
    rewrite bool_decide_eq_true_2 in Hmiss by (by eexists). done. }
  unfold renderView. rewrite Hno. by eexists.
Qed.

Lemma samePrimitiveProps_signal (shown props : GridProps) :
  samePrimitiveProps shown props = true ->
  isTableRefresh shown = isTableRefresh props.
Proof.
  unfold samePrimitiveProps. intros Hsame.
  repeat (apply andb_true_iff in Hsame as [Hsame ?]).
  by repeat case_bool_decide.
Qed.

Lemma effectRuns_signal (a b : bool) :
  effectRuns (Some (Some a)) (Some b) = negb (Bool.eqb a b).
Proof. by destruct a, b. Qed.

(** What one update does to the component, given what the control and the
    component remember of the signal. *)
Lemma hostUpdate_component (sameObjects : bool) (inputs : ViewInputs) (s : Screen D)
    (props : GridProps) :
  inStep s ->
  (updateView inputs s.(world).(grid)).2 = Some props ->
  let old := s.(world).(table).(localState) in
  let out := hostUpdate sameObjects inputs s in
  inStep out.2
  /\ (refreshEdge inputs s.(world).(grid) = true ->
      out.1 = [renderView props old; renderView props initialLocalState]
      /\ out.2.(world).(table).(localState) = initialLocalState)
  /\ (refreshEdge inputs s.(world).(grid) = false ->
      out.2.(world).(table).(localState) = old
      /\ (is_Some s.(renderedProps) -> out.1 = [] \/ out.1 = [renderView props old])).
Proof.
  intros Hstep Hprops. cbn zeta.
  destruct (updateView_props inputs _ props Hprops) as [Heq Hsafe].
  pose proof (updateView_previousRefreshValue inputs s.(world).(grid)) as Hprev.
  assert (Hsig : isTableRefresh props
                 = Some (previousRefreshValue (updateView inputs s.(world).(grid)).1)).
  { rewrite Hprev, Heq. reflexivity. }
  unfold refreshEdge. rewrite <- Hprev. clear Hprev Heq.
  unfold hostUpdate.
  destruct (updateView inputs (grid (world s))) as [g' optProps] eqn:Hu.
  cbn [fst snd] in *. subst optProps.
  destruct (Hsafe (localState (table (world s)))) as [view Hview].
  unfold inStep in Hstep.
  destruct (renderedProps s) as [shown|] eqn:Hshown; cbn [memoSkipsRender].
  - destruct Hstep as [Hshow Hdeps].
    destruct (sameObjects && samePrimitiveProps shown props) eqn:Hmemo.
    + apply andb_true_iff in Hmemo as [_ Hsame].
      apply samePrimitiveProps_signal in Hsame.
      rewrite Hshow, Hsig in Hsame. injection Hsame as Hsame.
      cbn [fst snd world table grid renderedProps]. unfold inStep. cbn.
      split; [by rewrite Hsig, Hdeps, Hsame|].
      split; [rewrite <- Hsame; by destruct (previousRefreshValue _) | by auto].
    + unfold renderPass. rewrite Hview, Hdeps, Hsig, effectRuns_signal.
      destruct (previousRefreshValue g') eqn:Hnew,
               (previousRefreshValue (grid (world s))) eqn:Hold;
        cbn; unfold inStep; cbn; rewrite ?Hsig, ?Hnew; (split; [done|]);
        (split; [intros ?; try done | intros ?; try done]);
        rewrite <- ?Hview; eauto.
  - rewrite Hstep. unfold renderPass. cbn [localState unmounted refreshDeps effectRuns].
    rewrite Hstep in Hview. cbn [localState unmounted] in Hview. rewrite Hview, Hsig.
    destruct (previousRefreshValue g') eqn:Hnew,
             (previousRefreshValue (grid (world s))) eqn:Hold;
      cbn; unfold inStep; cbn; rewrite ?Hsig, ?Hnew; (split; [done|]);
      (split; [intros ?; try done | intros ?; try done]);
      rewrite <- ?Hview; split; try done; by intros [? ?].
Qed.

Lemma step_previousRefreshValue (e : Event D) (g : State D) :
  (forall inputs, e <> UpdateView inputs) ->
  previousRefreshValue (step e g) = previousRefreshValue g.
Proof.
  intros Hno. destruct e as [inputs | direction | c | ids | id | d]; cbn [step].
  - by destruct (Hno inputs).
  - unfold onNavigate. destruct direction; repeat case_match; reflexivity.
  - unfold onSort. destruct (nextSort _ _ _) as [col dir].
    by destruct (List.find _ _).
  - reflexivity.
  - unfold onLinkClick. repeat case_match; reflexivity.
  - reflexivity.
Qed.

(** In a run in which every [updateView] reached its render, the control
    and the component have seen the same signal. *)
Lemma steady_inStep (s : Screen D) : steady s -> inStep s.
Proof.
  induction 1 as [d | sameObjects inputs s _ IH [props Hprops] | e s _ IH [shown Hshown]
                  | e s _ IH Hno].
  - reflexivity.
  - by destruct (hostUpdate_component sameObjects inputs s props IH Hprops) as [Hstep _].
  - unfold inStep in *. cbn. rewrite Hshown in *. exact IH.
  - unfold inStep in *. cbn.
    rewrite (step_previousRefreshValue e _ Hno).
    destruct (renderedProps s); exact IH.
Qed.

(** C8, amended. On the false-to-true transition of the refresh signal, and
    not on a sustained true value, [updateView] resets the state of the
    control in one step: selections emptied, page 1, sort state (null,
    Ascending); and it makes the host reset its paging, drop its sorting
    and refresh. Without that transition it changes none of these and only
    sets the page size of the host. The component clears its own state
    (filter mapping, popup, pending operator and value, column widths,
    resize session) in a second step. When [updateView] reaches its render
    and the component has seen the signal the control remembers, the
    update of the transition is never skipped by [React.memo] and produces
    two views: the first is computed from the new props (sort gone, page 1)
    and the old component state, the second from the cleared state. An
    update without the transition leaves the state of the component as it
    is and produces at most one view. When [updateView] throws before its
    render, the control is reset all the same and the component is left as
    it is. In a run in which every [updateView] reached its render the
    component has seen the signal the control remembers. *)
Theorem refresh_signal_resets_in_two_steps
    (sameObjects : bool) (inputs : ViewInputs) (s : Screen D) :
  let g := s.(world).(grid) in
  let g' := (updateView inputs g).1 in
  let old := s.(world).(table).(localState) in
  let out := hostUpdate sameObjects inputs s in
  out.2.(world).(grid) = g'
  /\ (refreshEdge inputs g = true ->
      sortOf g' = (None, Ascending)
      /\ TableGrid.currentPage g' = 1
      /\ TableGrid.selectedRecordIds g' = []
      /\ TableGrid.selectedRecordObjects g' = []
      /\ TableGrid.selectedLinkRecords g' = []
      /\ dataset g'
         = paging_setPageSize 10 (ds_refresh (ds_setSorting [] (paging_reset (dataset g)))))
  /\ (refreshEdge inputs g = false ->
      sortOf g' = sortOf g
      /\ TableGrid.currentPage g' = TableGrid.currentPage g
      /\ TableGrid.selectedRecordIds g' = TableGrid.selectedRecordIds g
      /\ TableGrid.selectedRecordObjects g' = TableGrid.selectedRecordObjects g
      /\ TableGrid.selectedLinkRecords g' = TableGrid.selectedLinkRecords g
      /\ dataset g' = paging_setPageSize 10 (dataset g))
  /\ refreshEdge inputs g' = false
  /\ (forall props : GridProps,
        inStep s ->
        (updateView inputs g).2 = Some props ->
        inStep out.2
        /\ (refreshEdge inputs g = true ->
            isTableRefresh props = Some true
            /\ sortColumn props = None
            /\ sortDirection props = Ascending
            /\ CustomTable.currentPage props = 1
            /\ out.1 = [renderView props old; renderView props initialLocalState]
            /\ is_Some (renderView props old)
            /\ is_Some (renderView props initialLocalState)
            /\ out.2.(world).(table).(localState) = initialLocalState)
        /\ (refreshEdge inputs g = false ->
            out.2.(world).(table).(localState) = old
            /\ (is_Some s.(renderedProps) ->
                out.1 = [] \/ out.1 = [renderView props old])))
  /\ ((updateView inputs g).2 = None ->
      out.1 = [] /\ out.2.(world).(table) = s.(world).(table))
  /\ (steady s -> inStep s).
Proof.
  cbn zeta.
  pose proof (updateView_selection inputs s.(world).(grid)) as (Hids & Hobjs & Hlinks).
  pose proof (updateView_sortOf inputs s.(world).(grid)) as Hsort.
  pose proof (updateView_currentPage inputs s.(world).(grid)) as Hpage.
  pose proof (updateView_dataset inputs s.(world).(grid)) as Hdata.
  cbn zeta in Hids, Hobjs, Hlinks.
  split; [|split; [|split; [|split; [|split; [|split]]]]].
  - unfold hostUpdate. destruct (updateView inputs (grid (world s))) as [g' [props|]]; [|done].
    destruct (memoSkipsRender _ _ _); [done|]. by destruct (renderPass _ _).
  - intros He. rewrite He in *. done.
  - intros He. rewrite He in *. done.
  - apply refreshEdge_after_updateView.
  - intros props Hstep Hprops.
    destruct (hostUpdate_component sameObjects inputs s props Hstep Hprops)
      as (Hnext & Hedge & Hnone).
    destruct (updateView_props inputs _ props Hprops) as [Heq Hsafe].
    split; [exact Hnext|]. split; [|exact Hnone].
    intros He. destruct (Hedge He) as [Hviews Hlocal].
    rewrite He in *. unfold sortOf in Hsort. injection Hsort as Hcol Hdir.
    repeat split; try done; rewrite Heq; cbn; try done.
    unfold refreshEdge in He. apply andb_true_iff in He as [He _]. by rewrite He.
  - intros Hnone. unfold hostUpdate.
    destruct (updateView inputs (grid (world s))) as [g' [props|]]; done.
  - apply steady_inStep.
Qed.

End RefreshOnScreen.

Section RefreshScenario.

Import TableGrid CustomTable App.

(** C8 as stated fails: the clearing is not one transition. The first view
    rendered on the transition of the signal shows the rows still filtered
    by the old filter (and the Status column still marked as filtered) while
    the sort mark is already gone; only the second view is cleared. *)
Lemma refresh_renders_a_mixed_view :
  map (fmap summary) Scenario.beforeRefresh.1
    = [ Some (["r1"; "r3"], ["Name"], ["Status"]) ]
  /\ map (fmap summary) Scenario.atRefresh.1
    = [ Some (["r1"; "r3"], [], ["Status"]);
        Some (["r1"; "r2"; "r3"], [], []) ].
Proof. split; vm_compute; reflexivity. Qed.

Lemma refresh_signal_resets_in_two_steps_witness :
  refreshEdge MockHost.refreshInputs Scenario.beforeRefresh.2.(world).(grid) = true
  /\ inStep Scenario.beforeRefresh.2
  /\ (updateView MockHost.refreshInputs Scenario.beforeRefresh.2.(world).(grid)).2
     = Some (propsOf MockHost.refreshInputs
               (updateView MockHost.refreshInputs Scenario.beforeRefresh.2.(world).(grid)).1)
  /\ sortOf (updateView MockHost.refreshInputs Scenario.beforeRefresh.2.(world).(grid)).1
     = (None, Ascending)
  /\ dataset (updateView MockHost.refreshInputs Scenario.beforeRefresh.2.(world).(grid)).1
     = paging_setPageSize 10
         (ds_refresh (ds_setSorting []
            (paging_reset (dataset Scenario.beforeRefresh.2.(world).(grid)))))
  /\ Scenario.atRefresh.2.(world).(table).(localState) = initialLocalState
  /\ inStep Scenario.atRefresh.2.
Proof.
  assert (Hedge : refreshEdge MockHost.refreshInputs
                    Scenario.beforeRefresh.2.(world).(grid) = true)
    by (vm_compute; reflexivity).
  assert (Hstep : inStep Scenario.beforeRefresh.2)
    by (vm_compute; split; reflexivity).
  assert (Hprops :
            (updateView MockHost.refreshInputs Scenario.beforeRefresh.2.(world).(grid)).2
            = Some (propsOf MockHost.refreshInputs
                      (updateView MockHost.refreshInputs
                         Scenario.beforeRefresh.2.(world).(grid)).1))
    by (vm_compute; reflexivity).
  destruct (refresh_signal_resets_in_two_steps true MockHost.refreshInputs
              Scenario.beforeRefresh.2)
    as (_ & Hcontrol & _ & _ & Hscreen & _ & _).
  destruct (Hcontrol Hedge) as (Hsort & _ & _ & _ & _ & Hdata).
  destruct (Hscreen _ Hstep Hprops) as (Hnext & Hcleared & _).
  destruct (Hcleared Hedge) as (_ & _ & _ & _ & _ & _ & _ & Hlocal).
  split; [exact Hedge|]. split; [exact Hstep|]. split; [exact Hprops|].
  split; [exact Hsort|]. split; [exact Hdata|]. split; [exact Hlocal | exact Hnext].
Defined.

(** The scenario is a run in which every update rendered; the sorting that
    the user asked for is on the host before the refresh and gone after
    it, and the host was refreshed once. Repeating the update with the
    signal still true renders nothing. *)
Lemma refresh_scenario_on_the_host :
  steady Scenario.beforeRefresh.2
  /\ MockHost.sorting (dataset Scenario.beforeRefresh.2.(world).(grid))
     = [ mkSortStatus "Name" Ascending ]
  /\ MockHost.sorting (dataset Scenario.atRefresh.2.(world).(grid)) = []
  /\ MockHost.refreshes (dataset Scenario.atRefresh.2.(world).(grid)) = 2%nat
  /\ Scenario.afterRefresh.1 = [].
Proof.
  split; [|repeat split; vm_compute; reflexivity].
  unfold Scenario.beforeRefresh.
  apply steady_update; [|vm_compute; by eexists].
  apply steady_callback; [|done].
  do 3 (apply steady_user; [|vm_compute; by eexists]).
  apply steady_update; [|vm_compute; by eexists].
  apply steady_start.
Qed.

(** The component must have seen the signal the control remembers: after
    an [updateView] that threw before its render the two disagree, and the
    next transition of the signal resets the control (the edge is taken)
    while the component keeps its filter and renders one view, still
    filtered. *)
Lemma refresh_after_failed_update_keeps_filter :
  Scenario.failedUpdate.1 = []
  /\ previousRefreshValue Scenario.failedUpdate.2.(world).(grid) = false
  /\ Scenario.failedUpdate.2.(world).(table).(refreshDeps) = Some (Some true)
  /\ refreshEdge MockHost.refreshInputs
       (setDataset MockHost.people Scenario.failedUpdate.2.(world).(grid)) = true
  /\ map (fmap summary) Scenario.refreshAfterFailedUpdate.1
     = [ Some (["r1"; "r3"], [], ["Status"]) ]
  /\ map fst (map_to_list
       Scenario.refreshAfterFailedUpdate.2.(world).(table).(localState).(columnFilters))
     = ["Status"].
Proof. repeat split; vm_compute; reflexivity. Qed.

End RefreshScenario.
